(** * xpsdeeplearning: the augmentation matrix, the dataset builder and the
      text parser's grid regularisation

    A shallow embedding of [augmentation/creator.py] ([Creator]) and of
    [simulation/base_model/converters/text_parser.py] ([TextParser]).

    Conventions of the embedding.
    - float64 values are rationals ([Q]): the arithmetic of the program is
      read over the exact numbers, and comparisons of numbers are [Qeq],
      [Qle], [Qlt]. The one quotient whose integer part the program
      takes, in the fill of a gap, is rounded as float64 rounds it
      ([float_div]).
    - numpy's generator is the record [RandomGen]: the three operations the
      program calls, over an explicit generator state that every call
      threads.  What numpy promises of them is stated as separate
      predicates, assumed only by the theorems that need them.
    - a Python exception is [Raise e]; a [while] loop that has not finished
      within the fuel it was given is [Running].
    - the console, the files and the database are the [world] of the export
      operations; what [create_matrix] and [run] print is left out. *)

From Stdlib Require Import ZArith QArith Qabs Qround Qminmax Qpower Lia Lqa.
From stdpp Require Import base option list strings gmap pretty.

(** ** Outcomes *)

Inductive exn : Set :=
| ValueError | IndexError | KeyError | AttributeError | UnboundLocalError
| NameError | OverflowError | ZeroDivisionError | EOFError.

Inductive outcome (A : Type) : Type :=
| Done (a : A)
| Raise (e : exn)
| Running.
Arguments Done {A} a.
Arguments Raise {A} e.
Arguments Running {A}.

#[global] Instance outcome_ret : MRet outcome := fun _ a => Done a.
#[global] Instance outcome_bind : MBind outcome := fun _ _ f m =>
  match m with
  | Done a => f a
  | Raise e => Raise e
  | Running => Running
  end.

(** ** numpy.random *)

Record RandomGen : Type := {
  rng_state : Type;
  (* np.random.uniform(low, high) *)
  uniform : Q -> Q -> rng_state -> Q * rng_state;
  (* np.random.randint(low, high) *)
  randint : Z -> Z -> rng_state -> Z * rng_state;
  (* np.random.choice(a): None is the ValueError of an empty a *)
  choice : list nat -> rng_state -> option (nat * rng_state)
}.

Definition uniform_in_range (G : RandomGen) : Prop :=
  forall lo hi st, (lo <= hi)%Q ->
    (lo <= (uniform G lo hi st).1 <= hi)%Q.

Definition randint_in_range (G : RandomGen) : Prop :=
  forall lo hi st, (lo < hi)%Z ->
    (lo <= (randint G lo hi st).1 < hi)%Z.

Definition choice_from_list (G : RandomGen) : Prop :=
  forall l st q st', choice G l st = Some (q, st') -> q ∈ l.

(** A generator that replays a recorded list of raw numbers (an exhausted
    recording yields 0): the generator of the examples. *)
Definition replay_next (st : list Z) : Z * list Z :=
  match st with
  | [] => (0%Z, [])
  | z :: st' => (z, st')
  end.

Definition replay_uniform (lo hi : Q) (st : list Z) : Q * list Z :=
  let '(z, st') := replay_next st in
  ((lo + (hi - lo) * ((z mod 1000) # 1000))%Q, st').

Definition replay_randint (lo hi : Z) (st : list Z) : Z * list Z :=
  let '(z, st') := replay_next st in
  ((lo + z mod (hi - lo))%Z, st').

Definition replay_choice (l : list nat) (st : list Z) : option (nat * list Z) :=
  let '(z, st') := replay_next st in
  match l !! Z.to_nat (z mod Z.of_nat (length l)) with
  | Some q => Some (q, st')
  | None => None
  end.

Definition Replay : RandomGen :=
  {| rng_state := list Z;
     uniform := replay_uniform;
     randint := replay_randint;
     choice := replay_choice |}.

(** ** The augmentation matrix: a numpy array of shape (n, p) *)

Abbreviation matrix := (list (list Q)).

Definition np_zeros (n p : nat) : matrix := replicate n (replicate p 0%Q).

(** numpy's reading of an index into an axis of length [len]: a negative
    index counts from the end, and one outside [-len, len) is an
    IndexError ([None]). *)
Definition norm_index (len : nat) (j : Z) : option nat :=
  if decide (0 <= j < Z.of_nat len)%Z then Some (Z.to_nat j)
  else if decide (- Z.of_nat len <= j < 0)%Z then Some (Z.to_nat (Z.of_nat len + j))
  else None.

(** An assignment into row [i] of the matrix: [m[i, ...] = ...]. *)
Definition on_row (m : matrix) (i : nat) (f : list Q -> outcome (list Q))
  : outcome matrix :=
  match m !! i with
  | None => Raise IndexError
  | Some row => row' ← f row; Done (<[i := row']> m)
  end.

(** [row[j] = v] *)
Definition row_set_item (j : Z) (v : Q) (row : list Q) : outcome (list Q) :=
  match norm_index (length row) j with
  | None => Raise IndexError
  | Some c => Done (<[c := v]> row)
  end.

(** [row[j]] *)
Definition row_item (j : Z) (row : list Q) : outcome Q :=
  match norm_index (length row) j with
  | None => Raise IndexError
  | Some c => match row !! c with Some v => Done v | None => Raise IndexError end
  end.

(** [row[lo:hi] = v] for a scalar [v]; [hi = None] is an open slice. The
    bounds of a slice are clipped to the axis. *)
Definition row_fill_slice (lo : nat) (hi : option nat) (v : Q) (row : list Q)
  : outcome (list Q) :=
  let hi' := (default (length row) hi) `min` length row in
  let lo' := lo `min` hi' in
  Done (take lo' row ++ replicate (hi' - lo') v ++ drop hi' row).

(** [row[lo:hi] = vals] for a list [vals]: its length is the slice's, or it
    is one value that is broadcast; anything else is a ValueError. *)
Definition row_set_slice (lo hi : nat) (vals : list Q) (row : list Q)
  : outcome (list Q) :=
  let hi' := hi `min` length row in
  let lo' := lo `min` hi' in
  if decide (length vals = hi' - lo') then
    Done (take lo' row ++ vals ++ drop hi' row)
  else
    match vals with
    | [v] => Done (take lo' row ++ replicate (hi' - lo') v ++ drop hi' row)
    | _ => Raise ValueError
    end.

(** [m[i, j] = v], [m[i, lo:hi] = v] and [m[i, lo:hi] = vals] *)
Definition set_item (m : matrix) (i : nat) (j : Z) (v : Q) : outcome matrix :=
  on_row m i (row_set_item j v).

Definition fill_slice (m : matrix) (i lo : nat) (hi : option nat) (v : Q)
  : outcome matrix :=
  on_row m i (row_fill_slice lo hi v).

Definition set_slice (m : matrix) (i lo hi : nat) (vals : list Q)
  : outcome matrix :=
  on_row m i (row_set_slice lo hi vals).

(** [m[:, j] = v] *)
Fixpoint set_column (j : Z) (v : Q) (m : matrix) : outcome matrix :=
  match m with
  | [] => Done []
  | row :: m' =>
      row' ← row_set_item j v row;
      m'' ← set_column j v m';
      Done (row' :: m'')
  end.

(** ** Records of the data model *)

(** Modelled from the spec: [base_model.MeasuredSpectrum] is not among the
    source files; a reference spectrum is the triple (x, y, label) of the
    data model. [Creator] only stores and passes these on. *)
Record MeasuredSpectrum : Type := {
  ms_x : list Q;
  ms_y : list Q;
  ms_label : string
}.

(** The attributes of [sim.output_spectrum] that
    [dict_from_one_simulation] reads. *)
Record OutputSpectrum : Type := {
  os_label : list (string * Q);
  os_shift_x : option Q;
  os_scale_y : Q;
  os_signal_to_noise : option Q;
  os_fwhm : option Q;
  os_x : list Q;
  os_lineshape : list Q
}.

(** One row of [self.df]: the dictionary of [dict_from_one_simulation]. *)
Record SimRecord : Type := {
  d_label : list (string * Q);
  d_shift_x : option Q;
  d_scale_y : Q;
  d_noise : option Q;
  d_FWHM : option Q;
  d_x : list Q;
  d_y : list Q
}.

(** One row of [self.reduced_df]: the columns x, y and label. *)
Record ReducedRecord : Type := {
  r_x : list Q;
  r_y : list Q;
  r_label : list (string * Q)
}.

Record Creator : Type := {
  no_of_simulations : nat;
  input_spectra : list MeasuredSpectrum;
  no_of_linear_params : nat;
  augmentation_matrix : matrix;
  (* the attributes [run] creates: absent ([None]) before it *)
  df : option (list SimRecord);
  reduced_df : option (list ReducedRecord)
}.

Definition with_matrix (c : Creator) (m : matrix) : Creator :=
  {| no_of_simulations := no_of_simulations c;
     input_spectra := input_spectra c;
     no_of_linear_params := no_of_linear_params c;
     augmentation_matrix := m;
     df := df c;
     reduced_df := reduced_df c |}.

(** The shape [__init__] gives the matrix: [no_of_simulations] rows of
    [no_of_linear_params + 3] columns. *)
Definition matrix_shape (n k : nat) (m : matrix) : Prop :=
  length m = n /\ Forall (fun row => length row = k + 3) m.

Definition well_shaped (c : Creator) : Prop :=
  matrix_shape (no_of_simulations c) (no_of_linear_params c)
    (augmentation_matrix c).

(** ** Creator.create_matrix *)

(** The floor of a mixing weight. *)
Definition floor_weight : Q := 1 # 10.

(** [[np.random.uniform(0.1, 1.0) for j in range(k)]] *)
Fixpoint draw_uniforms (G : RandomGen) (k : nat) (st : rng_state G)
  : list Q * rng_state G :=
  match k with
  | O => ([], st)
  | S k' =>
      let '(u, st1) := uniform G (1 # 10) 1 st in
      let '(us, st2) := draw_uniforms G k' st1 in
      (u :: us, st2)
  end.

(** Python's [sum(r)]: from 0, left to right. *)
Definition py_sum (r : list Q) : Q := fold_left Qplus r 0%Q.

(** [s = sum(r); [k/s for k in r]]; a float divided by zero is a
    ZeroDivisionError. *)
Definition normalise (r : list Q) : outcome (list Q) :=
  let s := py_sum r in
  match r with
  | [] => Done []
  | _ => if Qeq_bool s 0 then Raise ZeroDivisionError
         else Done (map (fun k => (k / s)%Q) r)
  end.

(** [all(p >= 0.1 for p in linear_params)] *)
Definition all_above_floor (lp : list Q) : bool :=
  forallb (fun p => Qle_bool floor_weight p) lp.

(** The [while all(...) == False] loop: [fuel] bounds how many times its body
    may run in the model; the source has no bound. *)
Fixpoint resample (G : RandomGen) (fuel k : nat) (lp : list Q)
  (st : rng_state G) : outcome (list Q * rng_state G) :=
  if all_above_floor lp then Done (lp, st)
  else
    match fuel with
    | O => Running
    | S fuel' =>
        let '(r, st') := draw_uniforms G k st in
        lp' ← normalise r;
        resample G fuel' k lp' st'
    end.

(** The linear parameters of one row in combination mode. *)
Definition sample_weights (G : RandomGen) (fuel k : nat) (st : rng_state G)
  : outcome (list Q * rng_state G) :=
  let '(r, st') := draw_uniforms G k st in
  lp ← normalise r;
  resample G fuel k lp st'.

(** The weight columns of row [i], by mode. *)
Definition set_weights (G : RandomGen) (fuel k : nat) (single : bool)
  (i : nat) (m : matrix) (st : rng_state G)
  : outcome (matrix * rng_state G) :=
  if single then
    match choice G (seq 0 k) st with
    | None => Raise ValueError
    | Some (q, st') =>
        m1 ← set_item m i (Z.of_nat q) 1;
        m2 ← fill_slice m1 i 0 (Some q) 0;
        m3 ← fill_slice m2 i (q + 1) None 0;
        Done (m3, st')
    end
  else
    '(lp, st') ← sample_weights G fuel k st;
    m1 ← set_slice m i 0 k lp;
    Done (m1, st').

(** The body of the [for i] loop. *)
Definition create_row (G : RandomGen) (fuel k : nat) (single : bool)
  (i : nat) (m : matrix) (st : rng_state G)
  : outcome (matrix * rng_state G) :=
  '(m1, st1) ← set_weights G fuel k single i m st;
  let '(fwhm, st2) := randint G 145 722 st1 in
  m2 ← set_item m1 i (-3) (inject_Z fwhm);
  let '(shift, st3) := randint G (-8) 9 st2 in
  m3 ← set_item m2 i (-2) (inject_Z shift);
  let '(snr, st4) := randint G 15 200 st3 in
  m4 ← set_item m3 i (-1) (inject_Z snr);
  Done (m4, st4).

Fixpoint create_rows (G : RandomGen) (fuel k : nat) (single : bool)
  (rows : list nat) (m : matrix) (st : rng_state G)
  : outcome (matrix * rng_state G) :=
  match rows with
  | [] => Done (m, st)
  | i :: rows' =>
      '(m', st') ← create_row G fuel k single i m st;
      create_rows G fuel k single rows' m' st'
  end.

Definition create_matrix (G : RandomGen) (fuel : nat) (c : Creator)
  (single : bool) (st : rng_state G) : outcome (Creator * rng_state G) :=
  '(m, st') ← create_rows G fuel (no_of_linear_params c) single
                 (seq 0 (no_of_simulations c)) (augmentation_matrix c) st;
  Done (with_matrix c m, st').

(** The object [__init__] has built when it calls [create_matrix]. *)
Definition blank_creator (n : nat) (spectra : list MeasuredSpectrum) : Creator :=
  {| no_of_simulations := n;
     input_spectra := spectra;
     no_of_linear_params := length spectra;
     augmentation_matrix := np_zeros n (length spectra + 3);
     df := None;
     reduced_df := None |}.

(** [Creator.__init__], the reference spectra already loaded. *)
Definition Creator_init (G : RandomGen) (fuel : nat) (n : nat)
  (spectra : list MeasuredSpectrum) (single : bool) (st : rng_state G)
  : outcome (Creator * rng_state G) :=
  create_matrix G fuel (blank_creator n spectra) single st.

(** The weight columns of a row. *)
Definition weights (k : nat) (row : list Q) : list Q := take k row.

(** ** The loop body read on the row it assigns

    Every assignment of the body of [create_matrix]'s loop is to row [i];
    [row_step] is the body as a function of that row ([create_row_on_row]
    relates the two). *)

Definition row_set_weights (G : RandomGen) (fuel k : nat) (single : bool)
  (row : list Q) (st : rng_state G) : outcome (list Q * rng_state G) :=
  if single then
    match choice G (seq 0 k) st with
    | None => Raise ValueError
    | Some (q, st') =>
        r1 ← row_set_item (Z.of_nat q) 1 row;
        r2 ← row_fill_slice 0 (Some q) 0 r1;
        r3 ← row_fill_slice (q + 1) None 0 r2;
        Done (r3, st')
    end
  else
    '(lp, st') ← sample_weights G fuel k st;
    r1 ← row_set_slice 0 k lp row;
    Done (r1, st').

Definition row_step (G : RandomGen) (fuel k : nat) (single : bool)
  (row : list Q) (st : rng_state G) : outcome (list Q * rng_state G) :=
  '(r1, st1) ← row_set_weights G fuel k single row st;
  let '(fwhm, st2) := randint G 145 722 st1 in
  r2 ← row_set_item (-3) (inject_Z fwhm) r1;
  let '(shift, st3) := randint G (-8) 9 st2 in
  r3 ← row_set_item (-2) (inject_Z shift) r2;
  let '(snr, st4) := randint G 15 200 st3 in
  r4 ← row_set_item (-1) (inject_Z snr) r3;
  Done (r4, st4).

(** A row with exactly one weight 1 and the others 0. *)
Definition one_hot (k q : nat) : list Q := <[q := 1%Q]> (replicate k 0%Q).

(** A row that one pass of the loop body produced. *)
Definition generated_row (G : RandomGen) (fuel k : nat) (single : bool)
  (row' : list Q) : Prop :=
  exists row st st',
    length row = k + 3 /\ row_step G fuel k single row st = Done (row', st').

(** A loop that has not returned, however many rounds it is given. *)
Definition never_returns {A : Type} (loop : nat -> outcome A) : Prop :=
  forall fuel, loop fuel = Running.

(** ** Creator.run *)

(** The head of [run]: the column of a distortion that is switched off is
    overwritten with 0 in every row. *)
Definition suppress_distortions (broaden x_shift noise : bool) (m : matrix)
  : outcome matrix :=
  m1 ← (if broaden then Done m else set_column (-3) 0 m);
  m2 ← (if x_shift then Done m1 else set_column (-2) 0 m1);
  if noise then Done m2 else set_column (-1) 0 m2.

(** [simulation.Simulation] is not among the source files: [run] is read
    over any implementation of the three calls it makes and of the
    attribute [output_spectrum] it reads. Adding noise draws from numpy's
    generator, so [change_spectrum] threads its state. *)
Record SimulationClass (G : RandomGen) : Type := {
  Simulation : Type;
  new_simulation : list MeasuredSpectrum -> outcome Simulation;
  combine_linear : Simulation -> list Q -> outcome Simulation;
  change_spectrum : Simulation -> Q -> Q -> Q -> rng_state G ->
                    outcome (Simulation * rng_state G);
  output_spectrum : Simulation -> OutputSpectrum
}.
Arguments Simulation {G} _.
Arguments new_simulation {G} _ _.
Arguments combine_linear {G} _ _ _.
Arguments change_spectrum {G} _ _ _ _ _ _.
Arguments output_spectrum {G} _ _.

Definition dict_from_one_simulation (spectrum : OutputSpectrum) : SimRecord :=
  {| d_label := os_label spectrum;
     d_shift_x := os_shift_x spectrum;
     d_scale_y := os_scale_y spectrum;
     d_noise := os_signal_to_noise spectrum;
     d_FWHM := os_fwhm spectrum;
     d_x := os_x spectrum;
     d_y := os_lineshape spectrum |}.

(** [self.augmentation_matrix[i]] *)
Definition matrix_row (m : matrix) (i : nat) : outcome (list Q) :=
  match m !! i with
  | Some row => Done row
  | None => Raise IndexError
  end.

(** The body of [run]'s loop: the record of simulation [i]. *)
Definition simulate_one (G : RandomGen) (S : SimulationClass G) (c : Creator)
  (m : matrix) (i : nat) (st : rng_state G)
  : outcome (SimRecord * rng_state G) :=
  sim ← new_simulation S (input_spectra c);
  row ← matrix_row m i;
  let scaling_params := take (no_of_linear_params c) row in
  sim1 ← combine_linear S sim scaling_params;
  fwhm ← matrix_row m i ≫= row_item (-3);
  shift_x ← matrix_row m i ≫= row_item (-2);
  signal_to_noise ← matrix_row m i ≫= row_item (-1);
  '(sim2, st') ← change_spectrum S sim1 fwhm shift_x signal_to_noise st;
  Done (dict_from_one_simulation (output_spectrum S sim2), st').

Fixpoint simulate_rows (G : RandomGen) (S : SimulationClass G) (c : Creator)
  (m : matrix) (rows : list nat) (dict_list : list SimRecord)
  (st : rng_state G) : outcome (list SimRecord * rng_state G) :=
  match rows with
  | [] => Done (dict_list, st)
  | i :: rows' =>
      '(d, st') ← simulate_one G S c m i st;
      simulate_rows G S c m rows' (dict_list ++ [d]) st'
  end.

(** [self.df[['x', 'y', 'label']]] *)
Definition reduce_record (d : SimRecord) : ReducedRecord :=
  {| r_x := d_x d; r_y := d_y d; r_label := d_label d |}.

(** [run]. A frame built from an empty list has no columns, so selecting
    x, y and label from it is a KeyError. *)
Definition run (G : RandomGen) (S : SimulationClass G) (c : Creator)
  (broaden x_shift noise : bool) (st : rng_state G)
  : outcome (Creator * rng_state G) :=
  m ← suppress_distortions broaden x_shift noise (augmentation_matrix c);
  '(dict_list, st') ← simulate_rows G S c m (seq 0 (no_of_simulations c)) [] st;
  match dict_list with
  | [] => Raise KeyError
  | _ =>
      Done ({| no_of_simulations := no_of_simulations c;
               input_spectra := input_spectra c;
               no_of_linear_params := no_of_linear_params c;
               augmentation_matrix := m;
               df := Some dict_list;
               reduced_df := Some (map reduce_record dict_list) |}, st')
  end.

(** A simulation for the examples: the linear combination only. *)
Definition toy_combine (spectra : list MeasuredSpectrum) (w : list Q)
  : OutputSpectrum :=
  {| os_label := zip (map ms_label spectra) w;
     os_shift_x := None;
     os_scale_y := 1;
     os_signal_to_noise := None;
     os_fwhm := None;
     os_x := default [] (ms_x <$> head spectra);
     os_lineshape :=
       foldr (fun '(s, a) acc =>
                zip_with Qplus (map (Qmult a) (ms_y s)) acc)
             (replicate (length (default [] (ms_x <$> head spectra))) 0%Q)
             (zip spectra w) |}.

Definition ToySimulation (G : RandomGen) : SimulationClass G :=
  {| Simulation := list MeasuredSpectrum * OutputSpectrum;
     new_simulation := fun spectra => Done (spectra, toy_combine spectra []);
     combine_linear := fun sim w => Done (sim.1, toy_combine sim.1 w);
     change_spectrum := fun sim fwhm shift_x snr st =>
       Done ((sim.1,
              {| os_label := os_label sim.2;
                 os_shift_x := Some shift_x;
                 os_scale_y := os_scale_y sim.2;
                 os_signal_to_noise := Some snr;
                 os_fwhm := Some fwhm;
                 os_x := os_x sim.2;
                 os_lineshape := os_lineshape sim.2 |}), st);
     output_spectrum := fun sim => sim.2 |}.

(** A row after the switch of one distortion: its column [col] is kept when
    the distortion is enabled and 0 when it is not. *)
Definition switch_column (enabled : bool) (col : nat) (row : list Q) : list Q :=
  if enabled then row else <[col := 0%Q]> row.

(** ** Rounding *)

(** [np.rint]: to the nearest integer, a half to the even neighbour. *)
Definition rint (q : Q) : Z :=
  let f := Qfloor q in
  match (q - inject_Z f ?= 1 # 2)%Q with
  | Lt => f
  | Gt => (f + 1)%Z
  | Eq => if Z.even f then f else (f + 1)%Z
  end.

(** [np.around(q, decimals)], which is also [round(q, decimals)] on a
    float64: scale, round to the nearest integer, scale back. *)
Definition np_around (q : Q) (decimals : nat) : Q :=
  (inject_Z (rint (q * inject_Z (10 ^ Z.of_nat decimals))) /
   inject_Z (10 ^ Z.of_nat decimals))%Q.

(** Python's [int(q)]: truncation towards zero. *)
Definition py_int (q : Q) : Z := (Qnum q ÷ Z.pos (Qden q))%Z.

(** ** The world of the export operations: console, files, database *)

Inductive table : Type :=
| FullTable (rows : list SimRecord)
| ReducedTable (rows : list ReducedRecord).

Inductive series : Type :=
| FullRow (row : SimRecord)
| ReducedRow (row : ReducedRecord).

(** What [_save_to_file] is given: a data frame, or one row of one. *)
Inductive content : Type :=
| WholeTable (t : table)
| OneRow (s : series).

(** A file by the writer that made it. *)
Inductive artifact : Type :=
| ExcelFile (sheet_name : string) (data : content)
| JsonFile (data : content)
| PickleFile (data : content).

Record world : Type := {
  stdout : list string;            (* lines printed, prompts included *)
  stdin : list string;             (* the answers [input] will read *)
  files : gmap string artifact;    (* the file system, by path *)
  db : gmap string (list SimRecord) (* the collections of database 'sia' *)
}.

(** A statement with effects: its outcome and the world it leaves; the
    effects that came before an exception stay. *)
Definition io (A : Type) : Type := world -> outcome A * world.

#[global] Instance io_ret : MRet io := fun _ a w => (Done a, w).
#[global] Instance io_bind : MBind io := fun _ _ f m w =>
  match m w with
  | (Done a, w') => f a w'
  | (Raise e, w') => (Raise e, w')
  | (Running, w') => (Running, w')
  end.

Definition raise {A : Type} (e : exn) : io A := fun w => (Raise e, w).

Definition print (line : string) : io unit := fun w =>
  (Done tt, {| stdout := stdout w ++ [line]; stdin := stdin w;
               files := files w; db := db w |}).

(** [open(path, 'w')] and the writer's output. *)
Definition write_file (path : string) (a : artifact) : io unit := fun w =>
  (Done tt, {| stdout := stdout w; stdin := stdin w;
               files := <[path := a]> (files w); db := db w |}).

(** ** Creator.to_file *)

Definition filetypes : list string := ["excel"; "json"; "pickle"].

(** Whether an Excel writer takes [title] as the name of a sheet: the
    writers behind pandas refuse a name that holds one of the characters
    \ / ? * [ ] : (openpyxl with a ValueError, xlsxwriter with an
    exception of its own; the model has ValueError). The limit of 31
    characters, which only xlsxwriter enforces, and what a refused writer
    leaves at the path are not modelled. *)
Definition sheet_title_char_ok (ch : Ascii.ascii) : bool :=
  bool_decide (ch ∉ String.list_ascii_of_string "\/?*[]:").

Definition sheet_title_ok (title : string) : bool :=
  forallb sheet_title_char_ok (String.list_ascii_of_string title).

(** [_save_to_file]; the sheet of the workbook is named after the whole
    file name. *)
Definition _save_to_file (df : content) (filename filetype : string) : io unit :=
  (if decide (filetype = "excel")
   then
     if sheet_title_ok filename
     then write_file (filename +:+ ".xlsx") (ExcelFile filename df)
     else raise ValueError
   else mret tt) ≫= fun _ =>
  (if decide (filetype = "json")
   then write_file (filename +:+ ".json") (JsonFile df)
   else mret tt) ≫= fun _ =>
  (if decide (filetype = "pickle")
   then write_file (filename +:+ ".pkl") (PickleFile df)
   else mret tt).

(** The [if how == 'full' ... elif how == 'reduced'] statement: the local
    [df] stays unbound ([None]) for any other [how]; reading an attribute
    that [run] has not created is an AttributeError. *)
Definition select_table (c : Creator) (how : string) : io (option table) :=
  if decide (how = "full") then
    match df c with
    | Some rows => mret (Some (FullTable rows))
    | None => raise AttributeError
    end
  else if decide (how = "reduced") then
    match reduced_df c with
    | Some rows => mret (Some (ReducedTable rows))
    | None => raise AttributeError
    end
  else mret None.

(** Reading the local [df]. *)
Definition local_df (df : option table) : io table :=
  match df with
  | Some t => mret t
  | None => raise UnboundLocalError
  end.

(** [df.iloc[i]] *)
Definition iloc (t : table) (i : nat) : io series :=
  match t with
  | FullTable rows =>
      match rows !! i with
      | Some r => mret (FullRow r)
      | None => raise IndexError
      end
  | ReducedTable rows =>
      match rows !! i with
      | Some r => mret (ReducedRow r)
      | None => raise IndexError
      end
  end.

(** The loop of the [single] branch: one file per record. *)
Fixpoint save_each (datafolder name filetype : string) (df : option table)
  (rows : list nat) : io unit :=
  match rows with
  | [] => mret tt
  | i :: rows' =>
      let number := name +:+ pretty i in
      let filepath := datafolder +:+ "\" +:+ number in
      (t ← local_df df;
       row ← iloc t i;
       _save_to_file (OneRow row) filepath filetype) ≫= fun _ =>
      save_each datafolder name filetype df rows'
  end.

(** [to_file]; [datafolder] is the directory the source derives from its
    own location. *)
Definition to_file (datafolder : string) (c : Creator)
  (name filetype how : string) (single : bool) : io unit :=
  let filepath := datafolder +:+ "\" +:+ name in
  (if decide (filetype ∈ filetypes)
   then print "Data was saved."
   else print "Saving was not successful. Choose a valid filetype!") ≫= fun _ =>
  df ← select_table c how;
  if single then
    save_each datafolder name filetype df (seq 0 (no_of_simulations c))
  else
    t ← local_df df;
    _save_to_file (WholeTable t) filepath filetype.

(** ** Creator.upload_to_DB *)

(** The document of a row: [row.to_dict()] with x rounded to two decimals
    and both arrays turned into lists. *)
Definition to_document (row : SimRecord) : SimRecord :=
  {| d_label := d_label row;
     d_shift_x := d_shift_x row;
     d_scale_y := d_scale_y row;
     d_noise := d_noise row;
     d_FWHM := d_FWHM row;
     d_x := map (fun v => np_around v 2) (d_x row);
     d_y := d_y row |}.

(** [db[name].delete_many({})]: empties a collection that exists. *)
Definition delete_many (name : string) : io unit := fun w =>
  (Done tt, {| stdout := stdout w; stdin := stdin w; files := files w;
               db := match db w !! name with
                     | Some _ => <[name := []]> (db w)
                     | None => db w
                     end |}).

(** [db[name].insert_one(data)]: creates the collection when it is the
    first document. *)
Definition insert_one (name : string) (doc : SimRecord) : io unit := fun w =>
  (Done tt, {| stdout := stdout w; stdin := stdin w; files := files w;
               db := <[name := default [] (db w !! name) ++ [doc]]> (db w) |}).

(** The documents of a collection, none when it does not exist. *)
Definition collection (w : world) (name : string) : list SimRecord :=
  default [] (db w !! name).

(** [collection_name in collections], where [collections] was read from
    the database before the dialogue. *)
Definition known_collection (collections : gset string) (name : string) : bool :=
  bool_decide (name ∈ collections).

(** Which [input] the overwrite dialogue is waiting at. *)
Inductive prompt : Set :=
| AskOverwrite   (* 'Do you want to overwrite it? (yes/no)' *)
| AskNew.        (* 'Do you want to create a new collection? (yes/no)' *)

(** The nested [while] loops that ask about overwriting, read over the
    answers typed at the console; every [input] takes one answer, and at the
    end of the answers raises EOFError. [answer2] is the local of that name:
    [None] while it is unbound. Every way out of the loops assigns [write]
    just before, so the result carries it. The result is the outcome, the
    answers left, and the lines printed. *)
Fixpoint overwrite_dialogue (collections : gset string)
  (answers : list string) (at_ : prompt) (answer2 : option string)
  (collection_name : string) (out : list string)
  : outcome (bool * string) * list string * list string :=
  match answers with
  | [] =>
      (Raise EOFError, [],
       out ++ [match at_ with
               | AskOverwrite => "Do you want to overwrite it? (yes/no)"
               | AskNew => "Do you want to create a new collection? (yes/no)"
               end])
  | answer :: rest =>
      match at_ with
      | AskOverwrite =>
          let out := out ++ ["Do you want to overwrite it? (yes/no)"] in
          if decide (answer = "yes") then
            (Done (true, collection_name), rest,
             out ++ ["Collection overwritten."])
          else if decide (answer = "no") then
            overwrite_dialogue collections rest AskNew answer2
              collection_name (out ++ ["Collection not overwritten."])
          else
            match answer2 with
            | None => (Raise UnboundLocalError, rest, out)
            | Some a2 =>
                if decide (a2 = "no") then
                  overwrite_dialogue collections rest AskOverwrite answer2
                    collection_name out
                else
                  overwrite_dialogue collections rest AskOverwrite answer2
                    collection_name (out ++ ["Please enter yes or no."])
            end
      | AskNew =>
          let out := out ++ ["Do you want to create a new collection? (yes/no)"] in
          if decide (answer = "yes") then
            match rest with
            | [] =>
                (Raise EOFError, [],
                 out ++ ["Please enter a new collection name."])
            | new_name :: rest' =>
                let out := out ++ ["Please enter a new collection name.";
                                   "New collection was uploaded."] in
                if known_collection collections new_name then
                  overwrite_dialogue collections rest' AskOverwrite
                    (Some "yes") new_name
                    (out ++ ["
 SIALAb MongoDB: Collection already exists!"])
                else (Done (true, new_name), rest', out)
            end
          else if decide (answer = "no") then
            (Done (false, collection_name), rest,
             out ++ ["Data was not uploaded."])
          else
            overwrite_dialogue collections rest AskNew answer2
              collection_name out
      end
  end.

(** From [collections = ...] to [collection = db[collection_name]]: whether
    to write, and to which collection. *)
Definition resolve_collection (collection_name : string) : io (bool * string) :=
  fun w =>
    let collections := dom (db w) in
    if known_collection collections collection_name then
      let '(res, rest, out) :=
        overwrite_dialogue collections (stdin w) AskOverwrite None
          collection_name ["
 SIALAb MongoDB: Collection already exists!"] in
      (res, {| stdout := stdout w ++ out; stdin := rest;
               files := files w; db := db w |})
    else (Done (true, collection_name), w).

(** The upload loop: it reads [self.df], whatever [reduced] was. *)
Fixpoint insert_rows (c : Creator) (collection_name : string)
  (rows : list nat) : io unit :=
  match rows with
  | [] => mret tt
  | i :: rows' =>
      (match df c with
       | None => raise AttributeError
       | Some full =>
           match full !! i with
           | None => raise IndexError
           | Some row =>
               insert_one collection_name (to_document row) ≫= fun _ =>
               print ("Upload: " +:+ pretty i +:+ "/" +:+
                      pretty (no_of_simulations c))
           end
       end) ≫= fun _ => insert_rows c collection_name rows'
  end.

(** [upload_to_DB]. The module reads a global [credentials] that it does not
    import: [credentials] is its binding, [None] when there is none (a
    NameError). The local [df] that [reduced] selects is not read again. *)
Definition upload_to_DB (credentials : option string) (c : Creator)
  (collection_name : string) (reduced : bool) : io unit :=
  match credentials with
  | None => raise NameError
  | Some connectionstring =>
      ((if reduced then
          match reduced_df c with
          | Some rows => mret (ReducedTable rows)
          | None => raise AttributeError
          end
        else
          match df c with
          | Some rows => mret (FullTable rows)
          | None => raise AttributeError
          end) : io table) ≫= fun df_local : table =>
      resolve_collection collection_name ≫= fun decision : bool * string =>
      if decision.1 then
        delete_many decision.2 ≫= fun _ =>
        insert_rows c decision.2 (seq 0 (no_of_simulations c))
      else mret tt
  end.

(** ** float64 division *)

(** The numbers of the model are exact rationals. Where the source takes
    the integer part of a quotient, the rounding of float64 decides the
    result (0.3 / 0.1 is 2.9999999999999996 there, not 3), so the quotient
    is computed as float64 does: both operands and the result are rounded
    to 53 significant bits, a tie to the even significand. Numbers outside
    the normal range of float64 (below 2^-1022 or from 2^1024 on) are
    rounded the same way. *)

(** The exponent of a positive number: the [e] with
    [2^e <= q < 2^(e+1)]. *)
Definition ilog2 (q : Q) : Z :=
  let e := (Z.log2 (Qnum q) - Z.log2 (Z.pos (Qden q)))%Z in
  if Qle_bool (2 ^ e) q then e else (e - 1)%Z.

(** A positive number rounded to 53 significant bits. *)
Definition round53 (q : Q) : Q :=
  let ulp := (2 ^ (ilog2 q - 52))%Q in
  (inject_Z (rint (q / ulp)) * ulp)%Q.

(** The float64 nearest to a number. *)
Definition float64 (q : Q) : Q :=
  match (q ?= 0)%Q with
  | Eq => 0%Q
  | Gt => round53 q
  | Lt => (- round53 (- q))%Q
  end.

(** [a / b] on two float64 numbers given by their decimal values. *)
Definition float_div (a b : Q) : Q := float64 (float64 a / float64 b).

(** ** TextParser: regularising the grid of a parsed spectrum *)

(** [np.roll(x, -1)]: every sample moves one place down, the first goes
    last. *)
Definition roll_left (x : list Q) : list Q := drop 1 x ++ take 1 x.

(** [np.abs(np.subtract(x, x1))] *)
Definition abs_diffs (x : list Q) : list Q :=
  zip_with (fun a b => Qabs (a - b)) x (roll_left x).

(** [diff[diff != 0]] *)
Definition nonzero (d : list Q) : list Q :=
  List.filter (fun v => negb (Qeq_bool v 0)) d.

(** [np.min], a ValueError on an empty array. *)
Definition np_min (l : list Q) : outcome Q :=
  match l with
  | [] => Raise ValueError
  | v :: l' => Done (fold_left Qmin l' v)
  end.

(** [step = round(np.min(diff[diff != 0]), 2)] *)
Definition canonical_step (x : list Q) : outcome Q :=
  m ← np_min (nonzero (abs_diffs x));
  Done (np_around m 2).

(** [a < b] on numbers. *)
Definition Qlt_bool (a b : Q) : bool := negb (Qle_bool b a).

(** [a / step > n] over float64, where a division by 0.0 does not raise: a
    positive number over 0.0 is inf, and any other is -inf or nan, which
    exceed nothing. *)
Definition quotient_exceeds (a step : Q) (n : nat) : bool :=
  if Qeq_bool step 0 then Qlt_bool 0 a
  else Qlt_bool (inject_Z (Z.of_nat n)) (a / step).

(** The loop [for j in range(int(np.round(diff / step)))] of one gap; [m] is
    [int(diff / step)], and dividing the integer [j] by 0 raises. *)
Fixpoint fill_gap (x y : list Q) (step : Q) (i : nat) (m : Z)
  (js : list nat) (new_x new_y : list Q) : outcome (list Q * list Q) :=
  match js with
  | [] => Done (new_x, new_y)
  | j :: js' =>
      xi ← row_item (Z.of_nat i) x;
      let new_x := new_x ++ [(xi + inject_Z (Z.of_nat j) * step)%Q] in
      if decide (m = 0%Z) then Raise ZeroDivisionError
      else
        let k := (inject_Z (Z.of_nat j) / inject_Z m)%Q in
        yi ← row_item (Z.of_nat i) y;
        yi1 ← row_item (Z.of_nat (i + 1)) y;
        fill_gap x y step i m js' new_x (new_y ++ [(yi * (1 - k) + yi1 * k)%Q])
  end.

(** The body of the loop over the samples. With [step] 0.0 the quotient
    [diff / step] is inf, whose conversion to an integer is an
    OverflowError. The quotient is the float64 one: its integer part and
    its nearest integer differ when it falls just below a whole number. *)
Definition interpolate_at (x y : list Q) (step : Q) (i : nat)
  (new_x new_y : list Q) : outcome (list Q * list Q) :=
  xi1 ← row_item (Z.of_nat (i + 1)) x;
  xi ← row_item (Z.of_nat i) x;
  let diff := Qabs (np_around (xi1 - xi) 2) in
  if Qlt_bool step diff && Qlt_bool diff 10 then
    if Qeq_bool step 0 then Raise OverflowError
    else
      fill_gap x y step i (py_int (float_div diff step))
        (seq 0 (Z.to_nat (rint (float_div diff step)))) new_x new_y
  else
    yi ← row_item (Z.of_nat i) y;
    Done (new_x ++ [xi], new_y ++ [yi]).

Fixpoint interpolate_loop (x y : list Q) (step : Q) (is_ : list nat)
  (new_x new_y : list Q) : outcome (list Q * list Q) :=
  match is_ with
  | [] => Done (new_x, new_y)
  | i :: is' =>
      '(new_x', new_y') ← interpolate_at x y step i new_x new_y;
      interpolate_loop x y step is' new_x' new_y'
  end.

(** [TextParser._interpolate] *)
Definition _interpolate (x y : list Q) (step : Q) : outcome (list Q * list Q) :=
  '(new_x, new_y) ← interpolate_loop x y step (seq 0 (length x - 1)) [] [];
  xl ← row_item (-1) x;
  yl ← row_item (-1) y;
  Done (new_x ++ [xl], new_y ++ [yl]).

(** [TextParser._check_step_width] *)
Definition _check_step_width (x y : list Q) : outcome (list Q * list Q) :=
  start ← row_item 0 x;
  stop ← row_item (-1) x;
  step ← canonical_step x;
  if quotient_exceeds (stop - start) step (length x)
  then _interpolate x y step
  else Done (x, y).

(** *** The regularisation, sample by sample *)

(** The points that the loop body appends for the sample [(xi, yi)] when
    the next sample is [(xi1, yi1)]: when their gap, rounded to two
    decimals, is more than the step and less than 10, as many points as
    the nearest integer to the float64 quotient [gap / step], one step
    apart from [xi] on, with y moved from [yi] towards [yi1] by the index
    over the integer part of that quotient; the sample alone otherwise. *)
Definition points_between (step : Q) (p p1 : Q * Q) : list (Q * Q) :=
  let gap := Qabs (np_around (p1.1 - p.1) 2) in
  if Qlt_bool step gap && Qlt_bool gap 10 then
    map (fun j : nat =>
           let k := (inject_Z (Z.of_nat j) /
                     inject_Z (py_int (float_div gap step)))%Q in
           ((p.1 + inject_Z (Z.of_nat j) * step)%Q,
            (p.2 * (1 - k) + p1.2 * k)%Q))
        (seq 0 (Z.to_nat (rint (float_div gap step))))
  else [p].

(** All samples but the last, each with the points that stand for it; the
    last sample closes the grid. *)
Fixpoint regular_grid (step : Q) (samples : list (Q * Q)) : list (Q * Q) :=
  match samples with
  | [] => []
  | p :: rest =>
      match rest with
      | [] => [p]
      | p1 :: _ => points_between step p p1 ++ regular_grid step rest
      end
  end.


(** ** Objects of the examples *)

Definition Fe_metal : MeasuredSpectrum :=
  {| ms_x := [700; 701; 702]%Q; ms_y := [1; 4; 1]%Q; ms_label := "Fe_metal" |}.

Definition FeO : MeasuredSpectrum :=
  {| ms_x := [700; 701; 702]%Q; ms_y := [2; 2; 6]%Q; ms_label := "FeO" |}.

(** A recording whose first row of two draws is rejected (0.1 and 0.9991
    normalise to a weight below 0.1) and whose second is accepted. *)
Definition recording : list Z :=
  [0; 999; 0; 700; 1; 2; 3; 500; 500; 4; 5; 6]%Z.

Definition result_or {A : Type} (d : A) (o : outcome A) : A :=
  match o with
  | Done a => a
  | _ => d
  end.

(** Two rows over two references, combination mode. *)
Definition sampled_combination : Creator * list Z :=
  Eval vm_compute in
    result_or (blank_creator 2 [Fe_metal; FeO], [])
      (Creator_init Replay 3 2 [Fe_metal; FeO] false recording).

(** Two rows over two references, single mode. *)
Definition sampled_single : Creator * list Z :=
  Eval vm_compute in
    result_or (blank_creator 2 [Fe_metal; FeO], [])
      (Creator_init Replay 0 2 [Fe_metal; FeO] true recording).

(** Two rows over one reference, combination mode. *)
Definition sampled_one_reference : Creator * list Z :=
  Eval vm_compute in
    result_or (blank_creator 2 [Fe_metal], [])
      (Creator_init Replay 0 2 [Fe_metal] false recording).

(** Runs of the combination sample, with and without broadening. *)
Definition run_all_enabled : Creator * list Z :=
  Eval vm_compute in
    result_or sampled_combination
      (run Replay (ToySimulation Replay) sampled_combination.1
         true true true sampled_combination.2).

Definition run_no_broadening : Creator * list Z :=
  Eval vm_compute in
    result_or sampled_combination
      (run Replay (ToySimulation Replay) sampled_combination.1
         false true true sampled_combination.2).

(** A world with nothing printed, nothing to read, no file, no collection. *)
Definition empty_world : world :=
  {| stdout := []; stdin := []; files := ∅; db := ∅ |}.

(** A database that already holds a collection 'Fe_old', and a user who
    declines to overwrite it and names a new collection. *)
Definition busy_world : world :=
  {| stdout := [];
     stdin := ["no"; "maybe"; "yes"; "Fe_new"];
     files := ∅;
     db := {[ "Fe_old" := [dict_from_one_simulation (toy_combine [] [])] ]} |}.


(** A spectrum on a 0.1 grid with two samples missing and a far segment. *)
Definition gapped_x : list Q := [0; 1 # 10; 4 # 10; 5 # 10; 30; 301 # 10]%Q.
Definition gapped_y : list Q := [10; 20; 50; 60; 5; 6]%Q.

(** ** Creator.plot_random *)

(** A line of the text that [plot_random] puts on a figure. The decimal
    digits that [str] prints for a number are not modelled: a line holds the
    number that is printed. *)
Inductive text_line : Type :=
| LabelText (key : string) (rounded : Q)  (* key: value rounded to 2 decimals *)
| BlankText
| FwhmText (rounded : option Q)           (* [None]: 'FHWM: not changed' *)
| ShiftText (shift : option Z)            (* [None]: 'X shift: none' *)
| NoiseText (snr : option Z).             (* [None]: 'S/N: not changed' *)

(** What [plot_random] hands to [base_model.Figure] and writes on it. *)
Record Figure : Type := {
  fig_x : list Q;
  fig_y : list Q;
  fig_title : string;
  fig_text : list text_line
}.

(** The test [row[key] != None and row[key] != 0]. *)
Definition changed (v : option Q) : option Q :=
  match v with
  | Some q => if Qeq_bool q 0 then None else Some q
  | None => None
  end.

(** The figure of the spectrum number [r], whose row of [self.df] is
    [row]. *)
Definition figure_of (r : Z) (row : SimRecord) : Figure :=
  {| fig_x := d_x row;
     fig_y := d_y row;
     fig_title := "Simulated spectrum no. " +:+ pretty r;
     fig_text :=
       map (fun kv : string * Q => LabelText kv.1 (np_around kv.2 2))
           (d_label row) ++
       [BlankText;
        FwhmText ((fun q => np_around q 2) <$> changed (d_FWHM row));
        ShiftText (py_int <$> changed (d_shift_x row));
        NoiseText (py_int <$> changed (d_noise row))] |}.

(** The loop [while r in random_numbers]: [fuel] bounds the draws in the
    model; the source has no bound. *)
Fixpoint draw_unseen (G : RandomGen) (fuel n : nat) (random_numbers : list Z)
  (r : Z) (st : rng_state G) : outcome (Z * rng_state G) :=
  if bool_decide (r ∈ random_numbers) then
    match fuel with
    | O => Running
    | S fuel' =>
        let '(r', st') := randint G 0 (Z.of_nat n) st in
        draw_unseen G fuel' n random_numbers r' st'
    end
  else Done (r, st).

(** [self.df.iloc[r]] for an integer [r]: a negative one counts from the
    end. *)
Definition df_iloc (c : Creator) (r : Z) : outcome SimRecord :=
  match df c with
  | None => Raise AttributeError
  | Some rows =>
      match norm_index (length rows) r with
      | None => Raise IndexError
      | Some i =>
          match rows !! i with
          | Some row => Done row
          | None => Raise IndexError
          end
      end
  end.

(** The loop of [plot_random] over [todo] passes; [plots] collects, for the
    record, the numbers of [random_numbers] with the figures made for
    them. *)
Fixpoint plot_loop (G : RandomGen) (fuel : nat) (c : Creator) (todo : nat)
  (plots : list (Z * Figure)) (st : rng_state G)
  : outcome (list (Z * Figure) * rng_state G) :=
  match todo with
  | O => Done (plots, st)
  | S todo' =>
      let '(r0, st0) := randint G 0 (Z.of_nat (no_of_simulations c)) st in
      '(r, st1) ← draw_unseen G fuel (no_of_simulations c) plots.*1 r0 st0;
      row ← df_iloc c r;
      plot_loop G fuel c todo' (plots ++ [(r, figure_of r row)]) st1
  end.

(** [plot_random]: at most [no_of_simulations] spectra are plotted. *)
Definition plot_random (G : RandomGen) (fuel : nat) (c : Creator)
  (no_of_spectra : nat) (st : rng_state G)
  : outcome (list (Z * Figure) * rng_state G) :=
  let no_of_spectra :=
    if decide (no_of_simulations c < no_of_spectra)
    then no_of_simulations c else no_of_spectra in
  plot_loop G fuel c no_of_spectra [] st.

(** ** What an export of a known file type writes *)

(** The ending [_save_to_file] appends for a file type of [filetypes]. *)
Definition extension (filetype : string) : string :=
  if decide (filetype = "excel") then ".xlsx"
  else if decide (filetype = "json") then ".json"
  else ".pkl".

(** The file [_save_to_file] writes for a file type of [filetypes]: a
    workbook with one sheet named after the file (when the writer takes
    that name), a JSON text, or a pickle. *)
Definition written (filetype filename : string) (data : content) : artifact :=
  if decide (filetype = "excel") then ExcelFile filename data
  else if decide (filetype = "json") then JsonFile data
  else PickleFile data.

(** The frame that [how] selects, when there is one. *)
Definition selected (c : Creator) (how : string) : option table :=
  if decide (how = "full") then FullTable <$> df c
  else if decide (how = "reduced") then ReducedTable <$> reduced_df c
  else None.

(** Row [i] of a frame. *)
Definition table_row (t : table) (i : nat) : option series :=
  match t with
  | FullTable rows => FullRow <$> rows !! i
  | ReducedTable rows => ReducedRow <$> rows !! i
  end.

Definition table_length (t : table) : nat :=
  match t with
  | FullTable rows => length rows
  | ReducedTable rows => length rows
  end.

(** The name, without its ending, of the file of record [i] in a
    one-file-per-record export. *)
Definition record_filename (datafolder name : string) (i : nat) : string :=
  datafolder +:+ "\" +:+ (name +:+ pretty i).

(** ** check_db and drop_db_collection *)

(** [check_db]: the second result is the documents of the collection asked
    for. The first maps every collection name to the documents of
    [db.collection], which is the collection named 'collection', not the
    one the name stands for. The identifier MongoDB adds to a stored
    document, which [check_db] deletes again, is not modelled. *)
Definition check_db (credentials : option string) (collection_name : string)
  : io (gmap string (list SimRecord) * list SimRecord) :=
  match credentials with
  | None => raise NameError
  | Some connectionstring => fun w =>
      let all_data := collection w collection_name in
      let c := gset_to_gmap (collection w "collection") (dom (db w)) in
      (Done (c, all_data), w)
  end.

(** [drop_db_collection]: the collection is removed from the database. *)
Definition drop_db_collection (credentials : option string)
  (collection_name : string) : io unit :=
  match credentials with
  | None => raise NameError
  | Some connectionstring => fun w =>
      (Done tt, {| stdout := stdout w; stdin := stdin w; files := files w;
                   db := delete collection_name (db w) |})
  end.

(** ** Further objects of the examples *)

(** A second run, with every distortion enabled, of the creator that the
    run without broadening left. *)
Definition run_again : Creator * list Z :=
  Eval vm_compute in
    result_or run_no_broadening
      (run Replay (ToySimulation Replay) run_no_broadening.1
         true true true [7; 8; 9; 10; 11; 12]%Z).

(** Five plots asked of the two simulated spectra; the second number drawn
    repeats the first and is drawn again. *)
Definition plotted : list (Z * Figure) * list Z :=
  Eval vm_compute in
    result_or ([], [])
      (plot_random Replay 2 run_all_enabled.1 5 [0; 0; 1; 4]%Z).

(** Users at a database that already holds a collection 'Fe_old': one who
    answers neither yes nor no, one who declines and then names the same
    collection and agrees to overwrite it, one who agrees at once, and one
    who declines twice. *)
Definition world_of (answers : list string) : world :=
  {| stdout := [];
     stdin := answers;
     files := ∅;
     db := {[ "Fe_old" := [dict_from_one_simulation (toy_combine [] [])] ]} |}.

Definition unsure_world : world := world_of ["maybe"; "yes"].
Definition roundabout_world : world := world_of ["no"; "yes"; "Fe_old"; "yes"; "next"].
Definition agreeing_world : world := world_of ["yes"; "next"].
Definition declining_world : world := world_of ["no"; "no"; "next"].

(** A spectrum recorded from high to low energy, with a gap. *)
Definition descending_x : list Q := [3; 29 # 10; 25 # 10]%Q.
Definition descending_y : list Q := [10; 20; 30]%Q.

(** A spectrum on a 0.1 grid whose only gap is a far segment. *)
Definition segments_x : list Q := [0; 1 # 10; 2 # 10; 30; 301 # 10]%Q.
Definition segments_y : list Q := [10; 20; 30; 5; 6]%Q.

(** A spectrum whose least difference, 0.005, rounds to 0. *)
Definition fine_x : list Q := [0; 1 # 200; 1]%Q.
Definition fine_y : list Q := [10; 20; 30]%Q.

(** ** calculate_runtime *)

(** [divmod(a, b)] on floats, for the positive divisors the source has: the
    floor of the quotient, and what is left of [a]. *)
Definition divmod (a b : Q) : Q * Q :=
  let q := inject_Z (Qfloor (a / b)) in (q, (a - q * b)%Q).

Fixpoint zeros (n : nat) : string :=
  match n with
  | O => EmptyString
  | S n' => "0" +:+ zeros n'
  end.

(** The format [{:0>width}] of a text: zeros on the left up to [width]
    characters. *)
Definition zfill (width : nat) (s : string) : string :=
  zeros (width - String.length s) +:+ s.

(** The format [{:05.2f}]: two decimals, the nearest (a tie to the even
    neighbour), and zeros after the sign up to five characters. *)
Definition format_05_2f (q : Q) : string :=
  let cents := Z.abs (rint (q * 100)) in
  let digits := pretty (cents / 100)%Z +:+ "." +:+
                zfill 2 (pretty (cents mod 100)%Z) in
  if Qlt_bool q 0 then "-" +:+ zfill 4 digits else zfill 5 digits.

Definition calculate_runtime (start end_ : Q) : string :=
  let time := (end_ - start)%Q in
  let '(hours, rem) := divmod time 3600 in
  let '(minutes, seconds) := divmod rem 60 in
  zfill 2 (pretty (py_int hours)) +:+ ":" +:+
  zfill 2 (pretty (py_int minutes)) +:+ ":" +:+
  format_05_2f seconds.

(** * Properties *)

(** ** Outcomes and indices *)

Lemma Done_inj {A : Type} (a b : A) : Done a = Done b -> a = b.
Proof. intros H. injection H as H. exact H. Qed.

Lemma bind_Done {A B : Type} (m : outcome A) (f : A -> outcome B) (b : B) :
  m ≫= f = Done b <-> exists a, m = Done a /\ f a = Done b.
Proof.
  destruct m as [a| |]; simpl; split.
  - intros H. exists a. split; [reflexivity|exact H].
  - intros (a' & Ha & H). injection Ha as ->. exact H.
  - discriminate.
  - intros (a' & Ha & _). discriminate.
  - discriminate.
  - intros (a' & Ha & _). discriminate.
Qed.

Lemma bind_done_l {A B : Type} (a : A) (f : A -> outcome B) :
  Done a ≫= f = f a.
Proof. reflexivity. Qed.

Lemma bind_raise_l {A B : Type} (e : exn) (f : A -> outcome B) :
  Raise e ≫= f = Raise e.
Proof. reflexivity. Qed.

Lemma bind_running_l {A B : Type} (f : A -> outcome B) :
  Running ≫= f = Running.
Proof. reflexivity. Qed.

Ltac step_bind :=
  repeat first [rewrite bind_done_l | rewrite bind_raise_l | rewrite bind_running_l].

Ltac step_bind_in H :=
  repeat first [rewrite bind_done_l in H | rewrite bind_raise_l in H
               | rewrite bind_running_l in H].

(** Case analysis on the outcome [t] that the goal binds. *)
Ltac case_outcome t :=
  destruct t as [?| |]; step_bind; try reflexivity.

Lemma norm_index_nat (len j : nat) :
  j < len -> norm_index len (Z.of_nat j) = Some j.
Proof.
  intros Hj. unfold norm_index.
  destruct (decide _) as [_|Hn]; [|lia].
  f_equal. lia.
Qed.

Lemma norm_index_neg (len j : nat) :
  0 < j <= len -> norm_index len (- Z.of_nat j) = Some (len - j).
Proof.
  intros Hj. unfold norm_index.
  destruct (decide _) as [H|_]; [lia|].
  destruct (decide _) as [_|H]; [|lia].
  f_equal. lia.
Qed.

Lemma norm_index_lt (len : nat) (j : Z) (c : nat) :
  norm_index len j = Some c -> c < len.
Proof.
  unfold norm_index. intros H.
  destruct (decide _); [injection H as <-; lia|].
  destruct (decide _); [injection H as <-; lia|discriminate].
Qed.

(** ** Assignments into one row *)

Arguments row_set_item : simpl never.
Arguments row_fill_slice : simpl never.
Arguments row_set_slice : simpl never.
Arguments on_row : simpl never.

Lemma on_row_Done (m : matrix) (i : nat) (f : list Q -> outcome (list Q))
  (m' : matrix) :
  on_row m i f = Done m' <->
  exists row row', m !! i = Some row /\ f row = Done row' /\ m' = <[i := row']> m.
Proof.
  unfold on_row. destruct (m !! i) as [row|]; split.
  - intros H. apply bind_Done in H as (row' & Hf & H).
    injection H as <-. eauto.
  - intros (r & r' & Hr & Hf & ->). injection Hr as <-.
    apply bind_Done. eauto.
  - discriminate.
  - intros (r & r' & Hr & _). discriminate.
Qed.

Lemma on_row_insert (m : matrix) (i : nat) (row : list Q)
  (f : list Q -> outcome (list Q)) :
  i < length m ->
  on_row (<[i := row]> m) i f = row' ← f row; Done (<[i := row']> m).
Proof.
  intros Hi. unfold on_row.
  rewrite list_lookup_insert_eq by exact Hi.
  destruct (f row) as [row'| |]; simpl; [|reflexivity..].
  rewrite list_insert_insert_eq. reflexivity.
Qed.

Lemma create_row_on_row (G : RandomGen) (fuel k : nat) (single : bool)
  (i : nat) (m : matrix) (st : rng_state G) (row : list Q) :
  m !! i = Some row ->
  create_row G fuel k single i m st =
  '(row', st') ← row_step G fuel k single row st; Done (<[i := row']> m, st').
Proof.
  intros Hrow.
  assert (Hi : i < length m) by (eapply lookup_lt_Some; exact Hrow).
  assert (Hid : m = <[i := row]> m) by (symmetry; apply list_insert_id; exact Hrow).
  unfold create_row, row_step, set_weights, row_set_weights.
  unfold set_item, fill_slice, set_slice.
  assert (Hw : forall (r1 : list Q) (st1 : rng_state G),
    (let '(fwhm, st2) := randint G 145 722 st1 in
     m2 ← on_row (<[i := r1]> m) i (row_set_item (-3) (inject_Z fwhm));
     let '(shift, st3) := randint G (-8) 9 st2 in
     m3 ← on_row m2 i (row_set_item (-2) (inject_Z shift));
     let '(snr, st4) := randint G 15 200 st3 in
     m4 ← on_row m3 i (row_set_item (-1) (inject_Z snr));
     Done (m4, st4)) =
    (let '(fwhm, st2) := randint G 145 722 st1 in
     r2 ← row_set_item (-3) (inject_Z fwhm) r1;
     let '(shift, st3) := randint G (-8) 9 st2 in
     r3 ← row_set_item (-2) (inject_Z shift) r2;
     let '(snr, st4) := randint G 15 200 st3 in
     r4 ← row_set_item (-1) (inject_Z snr) r3;
     Done (r4, st4)) ≫= (fun '(row', st') => Done (<[i := row']> m, st'))).
  { intros r1 st1.
    destruct (randint G 145 722 st1) as [fwhm st2].
    rewrite on_row_insert by exact Hi.
    case_outcome (row_set_item (-3) (inject_Z fwhm) r1).
    destruct (randint G (-8) 9 st2) as [shift st3].
    rewrite on_row_insert by exact Hi.
    case_outcome (row_set_item (-2) (inject_Z shift) a).
    destruct (randint G 15 200 st3) as [snr st4].
    rewrite on_row_insert by exact Hi.
    case_outcome (row_set_item (-1) (inject_Z snr) a0). }
  destruct single.
  - destruct (choice G (seq 0 k) st) as [[q st1]|]; [|reflexivity].
    rewrite Hid at 1. rewrite on_row_insert by exact Hi.
    case_outcome (row_set_item (Z.of_nat q) 1 row).
    rewrite on_row_insert by exact Hi.
    case_outcome (row_fill_slice 0 (Some q) 0 a).
    rewrite on_row_insert by exact Hi.
    case_outcome (row_fill_slice (q + 1) None 0 a0).
    apply Hw.
  - case_outcome (sample_weights G fuel k st).
    destruct a as [lp st1].
    rewrite Hid at 1. rewrite on_row_insert by exact Hi.
    case_outcome (row_set_slice 0 k lp row).
    apply Hw.
Qed.

Lemma create_row_lookup (G : RandomGen) (fuel k : nat) (single : bool)
  (i : nat) (m m' : matrix) (st st' : rng_state G) :
  create_row G fuel k single i m st = Done (m', st') ->
  exists row, m !! i = Some row.
Proof.
  intros H. destruct (m !! i) as [row|] eqn:Hrow; [eauto|exfalso].
  revert H. unfold create_row, set_weights, set_item, set_slice, on_row.
  rewrite Hrow. destruct single.
  - destruct (choice G (seq 0 k) st) as [[q st1]|]; discriminate.
  - case_outcome (sample_weights G fuel k st); try discriminate.
    destruct a as [lp st1]. discriminate.
Qed.

Lemma row_set_item_nat (row : list Q) (j : nat) (v : Q) :
  j < length row -> row_set_item (Z.of_nat j) v row = Done (<[j := v]> row).
Proof.
  intros Hj. unfold row_set_item. rewrite norm_index_nat by exact Hj.
  reflexivity.
Qed.

Lemma row_set_item_neg (row : list Q) (j : nat) (v : Q) :
  0 < j <= length row ->
  row_set_item (- Z.of_nat j) v row = Done (<[length row - j := v]> row).
Proof.
  intros Hj. unfold row_set_item. rewrite norm_index_neg by exact Hj.
  reflexivity.
Qed.

(** The three distortion columns of a row of [k + 3] entries. *)
Lemma set_distortions (k : nat) (r : list Q) (f s n : Q) :
  length r = k + 3 ->
  <[k + 2 := n]> (<[k + 1 := s]> (<[k := f]> r)) = take k r ++ [f; s; n].
Proof.
  intros Hlen. apply list_eq. intros j.
  destruct (decide (j < k)) as [Hj|Hj].
  - rewrite lookup_app_l by (rewrite length_take; lia).
    rewrite !list_lookup_insert_ne by lia.
    rewrite lookup_take_lt by lia. reflexivity.
  - rewrite lookup_app_r by (rewrite length_take; lia).
    rewrite length_take, Nat.min_l by lia.
    destruct (decide (j = k)) as [->|Hk].
    { rewrite Nat.sub_diag. simpl.
      rewrite !list_lookup_insert_ne by lia.
      apply list_lookup_insert_eq. lia. }
    destruct (decide (j = k + 1)) as [->|Hk1].
    { replace (k + 1 - k) with 1 by lia. simpl.
      rewrite list_lookup_insert_ne by lia.
      apply list_lookup_insert_eq. rewrite length_insert. lia. }
    destruct (decide (j = k + 2)) as [->|Hk2].
    { replace (k + 2 - k) with 2 by lia. simpl.
      apply list_lookup_insert_eq. rewrite !length_insert. lia. }
    rewrite !list_lookup_insert_ne by lia.
    rewrite (lookup_ge_None_2 r) by lia.
    symmetry. apply lookup_ge_None_2. simpl. lia.
Qed.

(** What the loop body leaves in a row of [k + 3] entries: the weights the
    mode chose, then the three integers the generator returned, in the
    order of the calls. *)
Lemma row_step_Done (G : RandomGen) (fuel k : nat) (single : bool)
  (row row' : list Q) (st st' : rng_state G) :
  row_step G fuel k single row st = Done (row', st') ->
  exists r1 st1,
    row_set_weights G fuel k single row st = Done (r1, st1) /\
    (length r1 = k + 3 ->
     let f := randint G 145 722 st1 in
     let s := randint G (-8) 9 f.2 in
     let n := randint G 15 200 s.2 in
     row' = take k r1 ++ [inject_Z f.1; inject_Z s.1; inject_Z n.1] /\
     st' = n.2).
Proof.
  unfold row_step. intros H.
  apply bind_Done in H as ([r1 st1] & Hw & H).
  exists r1, st1. split; [exact Hw|]. intros Hlen. cbv zeta.
  destruct (randint G 145 722 st1) as [f st2]. simpl.
  destruct (randint G (-8) 9 st2) as [s st3]. simpl.
  destruct (randint G 15 200 st3) as [n st4]. simpl.
  change (-3)%Z with (- Z.of_nat 3)%Z in H.
  change (-2)%Z with (- Z.of_nat 2)%Z in H.
  change (-1)%Z with (- Z.of_nat 1)%Z in H.
  rewrite row_set_item_neg in H by lia. step_bind_in H.
  rewrite row_set_item_neg in H by (rewrite length_insert; lia). step_bind_in H.
  rewrite row_set_item_neg in H by (rewrite !length_insert; lia). step_bind_in H.
  injection H as <- <-. rewrite !length_insert, Hlen.
  replace (k + 3 - 3) with k by lia.
  replace (k + 3 - 2) with (k + 1) by lia.
  replace (k + 3 - 1) with (k + 2) by lia.
  split; [|reflexivity]. apply set_distortions. exact Hlen.
Qed.

(** ** Sums and normalisation *)

Lemma fold_left_Qplus_acc (l : list Q) (a : Q) :
  (fold_left Qplus l a == a + py_sum l)%Q.
Proof.
  unfold py_sum. revert a. induction l as [|x l IH]; intros a; simpl.
  - lra.
  - rewrite IH. rewrite (IH (0 + x)%Q). lra.
Qed.

Lemma py_sum_cons (x : Q) (l : list Q) :
  (py_sum (x :: l) == x + py_sum l)%Q.
Proof.
  unfold py_sum at 1. simpl. rewrite fold_left_Qplus_acc. lra.
Qed.

Lemma py_sum_scale (l : list Q) (s : Q) :
  (py_sum (map (fun x => x / s) l) == py_sum l / s)%Q.
Proof.
  induction l as [|x l IH]; simpl.
  - unfold py_sum. simpl. unfold Qdiv. lra.
  - rewrite !py_sum_cons, IH. unfold Qdiv. ring.
Qed.

Lemma py_sum_lower (l : list Q) (a : Q) :
  Forall (fun p => (a <= p)%Q) l ->
  (inject_Z (Z.of_nat (length l)) * a <= py_sum l)%Q.
Proof.
  induction 1 as [|x l Hx _ IH].
  - change (0 * a <= 0)%Q. rewrite Qmult_0_l. apply Qle_refl.
  - rewrite py_sum_cons. cbn [length]. rewrite Nat2Z.inj_succ.
    unfold Z.succ. rewrite inject_Z_plus.
    assert (E : ((inject_Z (Z.of_nat (length l)) + inject_Z 1) * a ==
                 inject_Z (Z.of_nat (length l)) * a + a)%Q)
      by (unfold inject_Z at 2; ring).
    rewrite E. lra.
Qed.

Lemma all_above_floor_Forall (lp : list Q) :
  all_above_floor lp = true <-> Forall (fun p => (floor_weight <= p)%Q) lp.
Proof.
  unfold all_above_floor. rewrite forallb_forall, Forall_forall.
  split; intros H p Hp.
  - apply Qle_bool_iff, H, list_elem_of_In, Hp.
  - apply Qle_bool_iff, H, list_elem_of_In, Hp.
Qed.

Lemma draw_uniforms_length (G : RandomGen) (k : nat) (st : rng_state G) :
  length (draw_uniforms G k st).1 = k.
Proof.
  revert st. induction k as [|k IH]; intros st; simpl; [reflexivity|].
  destruct (uniform G (1 # 10) 1 st) as [u st1].
  specialize (IH st1). destruct (draw_uniforms G k st1) as [us st2].
  simpl in *. lia.
Qed.

Lemma normalise_Done (r w : list Q) :
  normalise r = Done w ->
  length w = length r /\
  (r <> [] -> ~ (py_sum r == 0)%Q /\ w = map (fun x => (x / py_sum r)%Q) r).
Proof.
  unfold normalise. destruct r as [|x r].
  - intros H. injection H as <-. split; [reflexivity|congruence].
  - destruct (Qeq_bool (py_sum (x :: r)) 0) eqn:Hs; [discriminate|].
    intros H. injection H as <-. split.
    + simpl. f_equal. apply length_map.
    + intros _. split; [|reflexivity].
      intros Heq. apply Qeq_bool_iff in Heq. congruence.
Qed.

(** A normalised row of at least one draw sums to one. *)
Lemma normalise_sum (r w : list Q) :
  r <> [] -> normalise r = Done w -> (py_sum w == 1)%Q.
Proof.
  intros Hr H. apply normalise_Done in H as [_ H].
  destruct (H Hr) as [Hs ->]. rewrite py_sum_scale. field. exact Hs.
Qed.

(** ** The rejection loop *)

(** What the loop returns passed the floor test, and is either the row it
    was entered with or the normalisation of a whole fresh draw. *)
Lemma resample_Done (G : RandomGen) (fuel k : nat) (lp w : list Q)
  (st st' : rng_state G) :
  resample G fuel k lp st = Done (w, st') ->
  all_above_floor w = true /\
  ((w = lp /\ st' = st) \/
   exists st0 r, draw_uniforms G k st0 = (r, st') /\ normalise r = Done w).
Proof.
  revert lp st. induction fuel as [|fuel IH]; intros lp st; simpl.
  - destruct (all_above_floor lp) eqn:Hall; [|discriminate].
    intros H. injection H as <- <-. auto.
  - destruct (all_above_floor lp) eqn:Hall.
    + intros H. injection H as <- <-. auto.
    + destruct (draw_uniforms G k st) as [r st1] eqn:Hd.
      intros H. apply bind_Done in H as (lp' & Hn & H).
      apply IH in H as [Hw [[-> ->]|H]]; split; try exact Hw; right; eauto.
Qed.

Lemma sample_weights_Done (G : RandomGen) (fuel k : nat) (w : list Q)
  (st st' : rng_state G) :
  sample_weights G fuel k st = Done (w, st') ->
  all_above_floor w = true /\
  exists st0 r, draw_uniforms G k st0 = (r, st') /\ normalise r = Done w.
Proof.
  unfold sample_weights.
  destruct (draw_uniforms G k st) as [r st1] eqn:Hd.
  intros H. apply bind_Done in H as (lp & Hn & H).
  apply resample_Done in H as [Hw [[-> ->]|H]]; split; eauto.
Qed.

Lemma sample_weights_length (G : RandomGen) (fuel k : nat) (w : list Q)
  (st st' : rng_state G) :
  sample_weights G fuel k st = Done (w, st') -> length w = k.
Proof.
  intros H. apply sample_weights_Done in H as (_ & st0 & r & Hd & Hn).
  apply normalise_Done in Hn as [-> _].
  pose proof (draw_uniforms_length G k st0) as Hlen.
  rewrite Hd in Hlen. exact Hlen.
Qed.

(** ** The weight columns, by mode *)

Lemma row_set_weights_combination (G : RandomGen) (fuel k : nat)
  (row r1 : list Q) (st st1 : rng_state G) :
  length row = k + 3 ->
  row_set_weights G fuel k false row st = Done (r1, st1) ->
  exists lp, sample_weights G fuel k st = Done (lp, st1) /\
             length lp = k /\ r1 = lp ++ drop k row.
Proof.
  intros Hlen. unfold row_set_weights. intros H.
  apply bind_Done in H as ([lp st'] & Hs & H).
  pose proof (sample_weights_length _ _ _ _ _ _ Hs) as Hlp.
  unfold row_set_slice in H.
  rewrite Nat.min_l in H by lia. rewrite Nat.min_l in H by lia.
  destruct (decide (length lp = k - 0)) as [_|Hn]; [|lia].
  step_bind_in H. injection H as <- <-.
  exists lp. split; [exact Hs|]. split; [exact Hlp|]. reflexivity.
Qed.

Lemma lookup_fill (row : list Q) (lo hi : nat) (v : Q) (j : nat) :
  lo <= hi <= length row ->
  (take lo row ++ replicate (hi - lo) v ++ drop hi row) !! j =
  if decide (lo <= j < hi) then Some v else row !! j.
Proof.
  intros Hb. destruct (decide (j < lo)) as [Hj|Hj].
  - rewrite lookup_app_l by (rewrite length_take; lia).
    rewrite lookup_take_lt by lia.
    destruct (decide _) as [H|_]; [lia|reflexivity].
  - rewrite lookup_app_r by (rewrite length_take; lia).
    rewrite length_take, Nat.min_l by lia.
    destruct (decide (j < hi)) as [Hh|Hh].
    + rewrite lookup_app_l by (rewrite length_replicate; lia).
      rewrite lookup_replicate_2 by lia.
      destruct (decide _) as [_|H]; [reflexivity|lia].
    + rewrite lookup_app_r by (rewrite length_replicate; lia).
      rewrite length_replicate, lookup_drop.
      destruct (decide _) as [H|_]; [lia|].
      f_equal. lia.
Qed.

Lemma lookup_one_hot (n q j : nat) :
  q < n ->
  one_hot n q !! j =
  if decide (j = q) then Some 1%Q
  else if decide (j < n) then Some 0%Q else None.
Proof.
  intros Hq. unfold one_hot. destruct (decide (j = q)) as [->|Hne].
  - apply list_lookup_insert_eq. rewrite length_replicate. exact Hq.
  - rewrite list_lookup_insert_ne by congruence.
    destruct (decide (j < n)) as [Hj|Hj].
    + apply lookup_replicate_2. exact Hj.
    + apply lookup_ge_None_2. rewrite length_replicate. lia.
Qed.

Lemma row_set_weights_single (G : RandomGen) (fuel k : nat)
  (row r1 : list Q) (st st1 : rng_state G) :
  length row = k + 3 ->
  row_set_weights G fuel k true row st = Done (r1, st1) ->
  exists q, choice G (seq 0 k) st = Some (q, st1) /\
            q < k + 3 /\ r1 = one_hot (k + 3) q.
Proof.
  intros Hlen. unfold row_set_weights.
  destruct (choice G (seq 0 k) st) as [[q st']|] eqn:Hq; [|discriminate].
  intros H. unfold row_set_item in H.
  destruct (norm_index (length row) (Z.of_nat q)) as [c|] eqn:Hc; [|discriminate].
  pose proof (norm_index_lt _ _ _ Hc) as Hlt.
  assert (c = q) as ->.
  { unfold norm_index in Hc.
    destruct (decide _) as [_|_]; [injection Hc as <-; lia|].
    destruct (decide _) as [Hn|_]; [lia|discriminate]. }
  step_bind_in H. unfold row_fill_slice in H. step_bind_in H.
  injection H as <- <-. exists q. split; [reflexivity|]. split; [lia|].
  simpl default.
  set (r0 := <[q := 1%Q]> row).
  assert (Hr0 : length r0 = k + 3) by (unfold r0; rewrite length_insert; exact Hlen).
  rewrite ?(Nat.min_l q (length r0)) by lia.
  set (r2 := replicate (q - 0) 0%Q ++ drop q r0).
  assert (Hr2 : forall j, r2 !! j = if decide (0 <= j < q) then Some 0%Q else r0 !! j).
  { intros j. unfold r2.
    change (replicate (q - 0) 0%Q ++ drop q r0)
      with (take 0 r0 ++ replicate (q - 0) 0%Q ++ drop q r0).
    apply lookup_fill. lia. }
  assert (Hl2 : length r2 = k + 3).
  { unfold r2. rewrite length_app, length_replicate, length_drop. lia. }
  rewrite Nat.min_id. rewrite (Nat.min_l (q + 1) (length r2)) by lia.
  apply list_eq. intros j.
  rewrite lookup_fill by lia. rewrite Hr2.
  rewrite lookup_one_hot by lia. unfold r0.
  destruct (decide (j = q)) as [->|Hne].
  - destruct (decide _) as [H|_]; [lia|].
    destruct (decide _) as [H|_]; [lia|].
    apply list_lookup_insert_eq. lia.
  - destruct (decide (q + 1 <= j < length r2)) as [H|H].
    + destruct (decide _) as [_|Hn]; [reflexivity|lia].
    + destruct (decide (0 <= j < q)) as [H'|H'].
      * destruct (decide _) as [_|Hn]; [reflexivity|lia].
      * destruct (decide _) as [Hn|_]; [lia|].
        rewrite list_lookup_insert_ne by congruence.
        apply lookup_ge_None_2. lia.
Qed.

(** ** The loop over the rows *)

Lemma row_set_weights_length (G : RandomGen) (fuel k : nat) (single : bool)
  (row r1 : list Q) (st st1 : rng_state G) :
  length row = k + 3 ->
  row_set_weights G fuel k single row st = Done (r1, st1) ->
  length r1 = k + 3.
Proof.
  intros Hlen H. destruct single.
  - apply row_set_weights_single in H as (q & _ & _ & ->); [|exact Hlen].
    unfold one_hot. rewrite length_insert, length_replicate. reflexivity.
  - apply row_set_weights_combination in H as (lp & _ & Hlp & ->); [|exact Hlen].
    rewrite length_app, length_drop. lia.
Qed.

Lemma row_step_length (G : RandomGen) (fuel k : nat) (single : bool)
  (row row' : list Q) (st st' : rng_state G) :
  length row = k + 3 ->
  row_step G fuel k single row st = Done (row', st') ->
  length row' = k + 3.
Proof.
  intros Hlen H. apply row_step_Done in H as (r1 & st1 & Hw & H).
  apply row_set_weights_length in Hw; [|exact Hlen].
  destruct (H Hw) as [-> _].
  rewrite length_app, length_take. simpl. lia.
Qed.

Lemma create_rows_spec (G : RandomGen) (fuel k : nat) (single : bool)
  (n a : nat) (m m' : matrix) (st st' : rng_state G) :
  Forall (fun row => length row = k + 3) m ->
  create_rows G fuel k single (seq a n) m st = Done (m', st') ->
  length m' = length m /\
  Forall (fun row => length row = k + 3) m' /\
  a + n <= length m + (if decide (n = 0) then a else 0) /\
  (forall i, i < a -> m' !! i = m !! i) /\
  (forall i, a <= i < a + n ->
     exists row', m' !! i = Some row' /\ generated_row G fuel k single row').
Proof.
  revert a m st. induction n as [|n IH]; intros a m st Hshape; simpl.
  - intros H. injection H as <- <-.
    repeat split; [exact Hshape|lia|intros i Hi; lia].
  - intros H. apply bind_Done in H as ([m1 st1] & Hrow & H).
    destruct (create_row_lookup _ _ _ _ _ _ _ _ _ Hrow) as [row Hlk].
    rewrite (create_row_on_row _ _ _ _ _ _ _ _ Hlk) in Hrow.
    apply bind_Done in Hrow as ([row' st2] & Hstep & Hrow).
    injection Hrow as <- <-.
    assert (Hlen : length row = k + 3).
    { rewrite Forall_forall in Hshape. apply Hshape.
      eapply list_elem_of_lookup_2. exact Hlk. }
    pose proof (row_step_length _ _ _ _ _ _ _ _ Hlen Hstep) as Hlen'.
    assert (Hshape1 : Forall (fun row => length row = k + 3) (<[a := row']> m)).
    { apply Forall_insert; assumption. }
    pose proof (lookup_lt_Some _ _ _ Hlk) as Ha.
    destruct (IH (S a) _ _ Hshape1 H) as (Hl & Hs & Hb & Hlow & Hnew).
    rewrite length_insert in Hl, Hb.
    split; [exact Hl|]. split; [exact Hs|]. split.
    { destruct (decide (n = 0)); lia. }
    split.
    + intros i Hi. rewrite Hlow by lia.
      apply list_lookup_insert_ne. lia.
    + intros i Hi. destruct (decide (i = a)) as [->|Hne].
      * exists row'. split.
        { rewrite Hlow by lia. apply list_lookup_insert_eq. exact Ha. }
        exists row, st, st2. split; assumption.
      * apply Hnew. lia.
Qed.

(** After [create_matrix] on a creator whose matrix has the shape
    [__init__] gave it, every row is one the loop body produced. *)
Lemma create_matrix_rows (G : RandomGen) (fuel : nat) (c c' : Creator)
  (single : bool) (st st' : rng_state G) :
  well_shaped c ->
  create_matrix G fuel c single st = Done (c', st') ->
  no_of_simulations c' = no_of_simulations c /\
  no_of_linear_params c' = no_of_linear_params c /\
  well_shaped c' /\
  (forall row, row ∈ augmentation_matrix c' ->
     generated_row G fuel (no_of_linear_params c) single row).
Proof.
  intros [Hn Hshape]. unfold create_matrix. intros H.
  apply bind_Done in H as ([m st1] & Hrows & H). injection H as <- <-.
  apply create_rows_spec in Hrows as (Hl & Hs & _ & _ & Hnew); [|exact Hshape].
  simpl. split; [reflexivity|]. split; [reflexivity|]. split.
  - split; simpl; [lia|exact Hs].
  - intros row Hin. apply list_elem_of_lookup in Hin as [i Hi].
    pose proof (lookup_lt_Some _ _ _ Hi) as Hlt.
    destruct (Hnew i) as (row' & Hrow' & Hgen); [lia|].
    rewrite Hi in Hrow'. injection Hrow' as <-. exact Hgen.
Qed.

Lemma np_zeros_shape (n p : nat) :
  length (np_zeros n p) = n /\ Forall (fun row => length row = p) (np_zeros n p).
Proof.
  unfold np_zeros. split.
  - apply length_replicate.
  - apply Forall_replicate, length_replicate.
Qed.

(** ** The rows of the augmentation matrix *)

(** A generated row is the weights its mode chose followed by the three
    integers of the generator. *)
Lemma generated_row_parts (G : RandomGen) (fuel k : nat) (single : bool)
  (row' : list Q) :
  generated_row G fuel k single row' ->
  exists row st r1 st1,
    length row = k + 3 /\
    row_set_weights G fuel k single row st = Done (r1, st1) /\
    length r1 = k + 3 /\
    weights k row' = take k r1 /\
    drop k row' =
      [inject_Z (randint G 145 722 st1).1;
       inject_Z (randint G (-8) 9 (randint G 145 722 st1).2).1;
       inject_Z (randint G 15 200
                   (randint G (-8) 9 (randint G 145 722 st1).2).2).1].
Proof.
  intros (row & st & st' & Hlen & Hstep).
  apply row_step_Done in Hstep as (r1 & st1 & Hw & H).
  pose proof (row_set_weights_length _ _ _ _ _ _ _ _ Hlen Hw) as Hl1.
  destruct (H Hl1) as [-> _].
  exists row, st, r1, st1. repeat split; try assumption.
  - unfold weights. rewrite take_app_le by (rewrite length_take; lia).
    rewrite take_take, Nat.min_id. reflexivity.
  - rewrite drop_app_ge by (rewrite length_take; lia).
    rewrite length_take, Nat.min_l by lia.
    rewrite Nat.sub_diag. reflexivity.
Qed.

(** C1 (amended): with at least one reference spectrum, the weights of
    every row that [create_matrix] stores in combination mode are as many as
    the references, non-negative, at least 0.1 each, and sum to 1 (so within
    1e-6 of it); they are the normalisation of one whole draw of uniform
    values, so a draw whose normalisation has a weight below 0.1 is never
    what is stored. *)
Theorem combination_rows_weights (G : RandomGen) (fuel : nat)
  (c c' : Creator) (st st' : rng_state G) :
  well_shaped c ->
  1 <= no_of_linear_params c ->
  create_matrix G fuel c false st = Done (c', st') ->
  forall row, row ∈ augmentation_matrix c' ->
    let w := weights (no_of_linear_params c) row in
    length w = no_of_linear_params c /\
    Forall (fun p => (0 <= p)%Q) w /\
    Forall (fun p => (1 # 10 <= p)%Q) w /\
    (Qabs (py_sum w - 1) <= 1 # 1000000)%Q /\
    exists st0 r st1,
      draw_uniforms G (no_of_linear_params c) st0 = (r, st1) /\
      normalise r = Done w.
Proof.
  intros Hshape Hk Hrun row Hin. cbv zeta.
  destruct (create_matrix_rows _ _ _ _ _ _ _ Hshape Hrun) as (_ & _ & _ & Hgen).
  apply Hgen, generated_row_parts in Hin
    as (row0 & st0 & r1 & st1 & Hlen & Hw & Hl1 & -> & _).
  apply row_set_weights_combination in Hw as (lp & Hs & Hlp & ->); [|exact Hlen].
  rewrite take_app_length' by (symmetry; exact Hlp).
  pose proof Hs as Hs'.
  apply sample_weights_Done in Hs' as (Hall & stA & r & Hd & Hn).
  apply all_above_floor_Forall in Hall.
  split; [exact Hlp|]. split.
  { eapply Forall_impl; [exact Hall|]. unfold floor_weight. intros p Hp. lra. }
  split; [exact Hall|]. split.
  - assert (Hr : r <> []).
    { pose proof (draw_uniforms_length G (no_of_linear_params c) stA) as Hrl.
      rewrite Hd in Hrl. simpl in Hrl. intros ->. simpl in Hrl. lia. }
    pose proof (normalise_sum _ _ Hr Hn) as Hsum.
    rewrite Hsum. vm_compute. discriminate.
  - exists stA, r, st1. split; assumption.
Qed.

(** C5: every row that [create_matrix] stores in single mode has exactly one
    weight equal to 1 and all the others equal to 0. *)
Theorem single_rows_one_hot (G : RandomGen) (fuel : nat)
  (c c' : Creator) (st st' : rng_state G) :
  choice_from_list G ->
  well_shaped c ->
  create_matrix G fuel c true st = Done (c', st') ->
  forall row, row ∈ augmentation_matrix c' ->
    let w := weights (no_of_linear_params c) row in
    length w = no_of_linear_params c /\
    exists q, q < no_of_linear_params c /\
      w !! q = Some 1%Q /\
      forall j, j < no_of_linear_params c -> j <> q -> w !! j = Some 0%Q.
Proof.
  intros Hchoice Hshape Hrun row Hin. cbv zeta.
  destruct (create_matrix_rows _ _ _ _ _ _ _ Hshape Hrun) as (_ & _ & _ & Hgen).
  apply Hgen, generated_row_parts in Hin
    as (row0 & st0 & r1 & st1 & Hlen & Hw & Hl1 & -> & _).
  apply row_set_weights_single in Hw as (q & Hq & Hlt & ->); [|exact Hlen].
  apply Hchoice, elem_of_seq in Hq.
  split.
  { rewrite length_take. lia. }
  exists q. split; [lia|]. split.
  - rewrite lookup_take_lt by lia. rewrite lookup_one_hot by lia.
    destruct (decide (q = q)); [reflexivity|congruence].
  - intros j Hj Hne.
    rewrite lookup_take_lt by lia. rewrite lookup_one_hot by lia.
    destruct (decide (j = q)); [congruence|].
    destruct (decide (j < no_of_linear_params c + 3)); [reflexivity|lia].
Qed.

(** ** What the generator's contract gives the rejection loop *)

Lemma draw_uniforms_range (G : RandomGen) (k : nat) (st : rng_state G) :
  uniform_in_range G ->
  Forall (fun u => (1 # 10 <= u)%Q) (draw_uniforms G k st).1.
Proof.
  intros Hu. revert st. induction k as [|k IH]; intros st; simpl.
  - constructor.
  - pose proof (Hu (1 # 10) 1%Q st) as Hr.
    destruct (uniform G (1 # 10) 1%Q st) as [u st1]. simpl in Hr.
    specialize (IH st1). destruct (draw_uniforms G k st1) as [us st2].
    simpl in *. constructor; [|exact IH].
    apply Hr. discriminate.
Qed.

Lemma py_sum_positive (r : list Q) :
  r <> [] -> Forall (fun u => (1 # 10 <= u)%Q) r -> (0 < py_sum r)%Q.
Proof.
  intros Hr Hall. destruct Hall as [|x l Hx Hl]; [congruence|].
  rewrite py_sum_cons. pose proof (py_sum_lower _ _ Hl) as Hlow.
  assert (0 <= inject_Z (Z.of_nat (length l)) * (1 # 10))%Q.
  { apply Qmult_le_0_compat; [|discriminate].
    change 0%Q with (inject_Z 0). rewrite <- Zle_Qle. lia. }
  lra.
Qed.

Lemma normalise_positive (r : list Q) :
  r <> [] -> Forall (fun u => (1 # 10 <= u)%Q) r ->
  normalise r = Done (map (fun x => (x / py_sum r)%Q) r).
Proof.
  intros Hr Hall. pose proof (py_sum_positive _ Hr Hall) as Hpos.
  unfold normalise. destruct r as [|x r]; [congruence|].
  destruct (Qeq_bool (py_sum (x :: r)) 0) eqn:Hs; [|reflexivity].
  apply Qeq_bool_iff in Hs. lra.
Qed.

Lemma draw_normalise (G : RandomGen) (k : nat) (st : rng_state G) :
  uniform_in_range G -> 1 <= k ->
  exists r st' w,
    draw_uniforms G k st = (r, st') /\ normalise r = Done w /\
    length w = k /\ (py_sum w == 1)%Q.
Proof.
  intros Hu Hk. pose proof (draw_uniforms_range G k st Hu) as Hall.
  pose proof (draw_uniforms_length G k st) as Hlen.
  destruct (draw_uniforms G k st) as [r st']. simpl in *.
  assert (Hr : r <> []) by (intros ->; simpl in Hlen; lia).
  pose proof (normalise_positive _ Hr Hall) as Hn.
  exists r, st', (map (fun x => (x / py_sum r)%Q) r).
  split; [reflexivity|]. split; [exact Hn|]. split.
  - rewrite length_map. exact Hlen.
  - eapply normalise_sum; eassumption.
Qed.

(** More rounds do not change what the loop returned. *)
Lemma resample_mono (G : RandomGen) (fuel fuel' k : nat) (lp : list Q)
  (st : rng_state G) (res : list Q * rng_state G) :
  fuel <= fuel' ->
  resample G fuel k lp st = Done res ->
  resample G fuel' k lp st = Done res.
Proof.
  revert fuel' lp st. induction fuel as [|fuel IH]; intros fuel' lp st Hle.
  - simpl. destruct (all_above_floor lp) eqn:Hall; [|discriminate].
    intros H. destruct fuel'; simpl; rewrite Hall; exact H.
  - destruct fuel' as [|fuel']; [lia|]. simpl.
    destruct (all_above_floor lp); [auto|].
    destruct (draw_uniforms G k st) as [r st1].
    destruct (normalise r) as [lp'| |]; step_bind; try discriminate.
    apply IH. lia.
Qed.

Lemma resample_no_raise (G : RandomGen) (fuel k : nat) (lp : list Q)
  (st : rng_state G) (e : exn) :
  uniform_in_range G -> 1 <= k ->
  resample G fuel k lp st <> Raise e.
Proof.
  intros Hu Hk. revert lp st. induction fuel as [|fuel IH]; intros lp st; simpl.
  - destruct (all_above_floor lp); discriminate.
  - destruct (all_above_floor lp); [discriminate|].
    destruct (draw_normalise G k st Hu Hk) as (r & st' & w & -> & -> & _).
    step_bind. apply IH.
Qed.

(** Eleven or more weights that sum to one cannot all reach 0.1. *)
Lemma floor_unreachable (w : list Q) :
  11 <= length w -> (py_sum w == 1)%Q -> all_above_floor w = false.
Proof.
  intros Hlen Hsum. destruct (all_above_floor w) eqn:Hall; [|reflexivity].
  apply all_above_floor_Forall, py_sum_lower in Hall.
  assert (Hl : (11 <= inject_Z (Z.of_nat (length w)))%Q).
  { change 11%Q with (inject_Z 11). rewrite <- Zle_Qle. lia. }
  unfold floor_weight in Hall.
  assert (Hm : (11 * (1 # 10) <= inject_Z (Z.of_nat (length w)) * (1 # 10))%Q).
  { apply Qmult_le_compat_r; [exact Hl|discriminate]. }
  exfalso. lra.
Qed.

Lemma resample_unreachable (G : RandomGen) (fuel k : nat) (lp : list Q)
  (st : rng_state G) :
  uniform_in_range G -> 11 <= k ->
  length lp = k -> (py_sum lp == 1)%Q ->
  resample G fuel k lp st = Running.
Proof.
  intros Hu Hk. revert lp st.
  induction fuel as [|fuel IH]; intros lp st Hlen Hsum; simpl;
    rewrite floor_unreachable by (try exact Hsum; lia).
  - reflexivity.
  - destruct (draw_normalise G k st Hu) as (r & st' & w & -> & -> & Hl & Hs);
      [lia|].
    step_bind. apply IH; assumption.
Qed.

(** C3 (amended): the rejection loop has no retry cap and signals no error.
    With the generator's draws in [0.1, 1] and at least one reference, the
    sampler never raises; when it returns, the row it returns passed the
    floor test and any larger number of rounds returns the same row; and
    with eleven references or more it has not returned after any number of
    rounds. *)
Theorem rejection_loop_has_no_cap (G : RandomGen) (k : nat) :
  uniform_in_range G ->
  1 <= k ->
  (forall fuel st e, sample_weights G fuel k st <> Raise e) /\
  (forall fuel st w st',
     sample_weights G fuel k st = Done (w, st') ->
     all_above_floor w = true /\
     forall fuel', fuel <= fuel' ->
       sample_weights G fuel' k st = Done (w, st')) /\
  (11 <= k ->
   forall st, never_returns (fun fuel => sample_weights G fuel k st)).
Proof.
  intros Hu Hk. split; [|split].
  - intros fuel st e. unfold sample_weights.
    destruct (draw_normalise G k st Hu Hk) as (r & st' & w & -> & -> & _).
    step_bind. apply resample_no_raise; assumption.
  - intros fuel st w st' H. split.
    + apply sample_weights_Done in H. apply H.
    + intros fuel' Hle. revert H. unfold sample_weights.
      destruct (draw_uniforms G k st) as [r st1].
      destruct (normalise r) as [lp| |]; step_bind; try discriminate.
      apply resample_mono. exact Hle.
  - intros Hk11 st fuel. unfold sample_weights.
    destruct (draw_normalise G k st Hu Hk) as (r & st' & w & -> & -> & Hl & Hs).
    step_bind. apply resample_unreachable; assumption.
Qed.

(** ** One reference spectrum *)

Lemma sample_weights_single_reference (G : RandomGen) (st : rng_state G) :
  uniform_in_range G ->
  exists w st',
    (w == 1)%Q /\
    forall fuel, sample_weights G fuel 1 st = Done ([w], st').
Proof.
  intros Hu. pose proof (Hu (1 # 10) 1%Q st) as Hr.
  unfold sample_weights. cbn [draw_uniforms].
  destruct (uniform G (1 # 10) 1 st) as [u st1]. simpl in Hr.
  assert (Hu1 : (1 # 10 <= u)%Q) by (apply Hr; discriminate).
  assert (Hs : (py_sum [u] == u)%Q) by (unfold py_sum; simpl; lra).
  exists (u / py_sum [u])%Q, st1.
  assert (Hone : (u / py_sum [u] == 1)%Q) by (rewrite Hs; field; lra).
  split; [exact Hone|].
  intros fuel. unfold normalise.
  destruct (Qeq_bool (py_sum [u]) 0) eqn:Hz.
  { apply Qeq_bool_iff in Hz. lra. }
  step_bind. cbn [map].
  assert (Hall : all_above_floor [(u / py_sum [u])%Q] = true).
  { apply all_above_floor_Forall. constructor; [|constructor].
    unfold floor_weight. rewrite Hone. discriminate. }
  destruct fuel; cbn [resample]; rewrite Hall; reflexivity.
Qed.

Lemma row_step_single_reference (G : RandomGen) (row : list Q)
  (st : rng_state G) :
  uniform_in_range G ->
  length row = 4 ->
  exists row' st', forall fuel,
    row_step G fuel 1 false row st = Done (row', st').
Proof.
  intros Hu Hlen.
  destruct (sample_weights_single_reference G st Hu) as (w & st1 & _ & Hs).
  destruct (randint G 145 722 st1) as [f st2] eqn:Hf.
  destruct (randint G (-8) 9 st2) as [s st3] eqn:Hsh.
  destruct (randint G 15 200 st3) as [n st4] eqn:Hn.
  exists (<[3 := inject_Z n]> (<[2 := inject_Z s]> (<[1 := inject_Z f]>
            ([w] ++ drop 1 row)))), st4.
  intros fuel. unfold row_step, row_set_weights. rewrite Hs. step_bind.
  unfold row_set_slice. rewrite Hlen. simpl Nat.min.
  destruct (decide (length [w] = 1 - 0)) as [_|Hne]; [|simpl in Hne; lia].
  step_bind. rewrite take_0. simpl app. rewrite Hf.
  assert (Hl : length (w :: drop 1 row) = 4).
  { simpl. rewrite length_drop. lia. }
  change (-3)%Z with (- Z.of_nat 3)%Z.
  change (-2)%Z with (- Z.of_nat 2)%Z.
  change (-1)%Z with (- Z.of_nat 1)%Z.
  rewrite row_set_item_neg by lia. step_bind. rewrite Hsh.
  rewrite row_set_item_neg by (rewrite length_insert; lia). step_bind.
  rewrite Hn.
  rewrite row_set_item_neg by (rewrite !length_insert; lia). step_bind.
  rewrite !length_insert, Hl. reflexivity.
Qed.

Lemma create_rows_single_reference (G : RandomGen) (n a : nat) (m : matrix)
  (st : rng_state G) :
  uniform_in_range G ->
  Forall (fun row => length row = 4) m ->
  a + n <= length m ->
  exists m' st', forall fuel,
    create_rows G fuel 1 false (seq a n) m st = Done (m', st').
Proof.
  intros Hu. revert a m st. induction n as [|n IH]; intros a m st Hshape Hle.
  - exists m, st. intros fuel. reflexivity.
  - destruct (lookup_lt_is_Some_2 m a) as [row Hrow]; [lia|].
    assert (Hlen : length row = 4).
    { rewrite Forall_forall in Hshape. apply Hshape.
      eapply list_elem_of_lookup_2. exact Hrow. }
    destruct (row_step_single_reference G row st Hu Hlen) as (row' & st1 & Hstep).
    assert (Hlen' : length row' = 4).
    { apply (row_step_length G 0 1 false row row' st st1); [exact Hlen|apply Hstep]. }
    destruct (IH (S a) (<[a := row']> m) st1) as (m' & st' & Hrest).
    { apply Forall_insert; assumption. }
    { rewrite length_insert. lia. }
    exists m', st'. intros fuel. simpl.
    rewrite (create_row_on_row _ _ _ _ _ _ _ _ Hrow), Hstep. step_bind.
    apply Hrest.
Qed.

(** C6: with one reference spectrum in combination mode, [create_matrix]
    returns whatever number of rounds the rejection loop is allowed, none
    included, so the loop body is never run; the matrix it stores has
    [no_of_simulations] rows, and the sole weight of every one of them is
    exactly 1. *)
Theorem single_reference_weight_is_one (G : RandomGen) (c : Creator)
  (st : rng_state G) :
  uniform_in_range G ->
  well_shaped c ->
  no_of_linear_params c = 1 ->
  exists c' st',
    (forall fuel, create_matrix G fuel c false st = Done (c', st')) /\
    length (augmentation_matrix c') = no_of_simulations c /\
    (forall i, i < no_of_simulations c ->
       exists row w,
         augmentation_matrix c' !! i = Some row /\
         weights 1 row = [w] /\ (w == 1)%Q) /\
    forall row, row ∈ augmentation_matrix c' ->
      exists w, weights 1 row = [w] /\ (w == 1)%Q.
Proof.
  intros Hu Hshape Hk. pose proof Hshape as [Hn Hrows]. rewrite Hk in Hrows.
  destruct (create_rows_single_reference G (no_of_simulations c) 0
              (augmentation_matrix c) st Hu Hrows) as (m' & st' & Hall).
  { simpl. lia. }
  exists (with_matrix c m'), st'.
  assert (Hrun : forall fuel,
    create_matrix G fuel c false st = Done (with_matrix c m', st')).
  { intros fuel. unfold create_matrix. rewrite Hk, Hall. reflexivity. }
  destruct (create_matrix_rows _ _ _ _ _ _ _ Hshape (Hrun 0))
    as (Hn' & _ & [Hlen' _] & Hgen).
  assert (Hone : forall row, row ∈ augmentation_matrix (with_matrix c m') ->
                 exists w, weights 1 row = [w] /\ (w == 1)%Q).
  { intros row Hin. apply Hgen in Hin. rewrite Hk in Hin.
    apply generated_row_parts in Hin
      as (row0 & st0 & r1 & st1 & Hlen & Hw & Hl1 & -> & _).
    apply row_set_weights_combination in Hw as (lp & Hs & Hlp & ->);
      [|exact Hlen].
    rewrite take_app_length' by (symmetry; exact Hlp).
    destruct (sample_weights_single_reference G st0 Hu)
      as (w & st2 & Hw1 & Hs').
    rewrite (Hs' 0) in Hs. injection Hs as <- <-.
    exists w. split; [reflexivity|exact Hw1]. }
  split; [exact Hrun|]. split; [rewrite Hlen'; exact Hn'|].
  split; [|exact Hone].
  intros i Hi.
  destruct (lookup_lt_is_Some_2 (augmentation_matrix (with_matrix c m')) i)
    as [row Hrow]; [rewrite Hlen', Hn'; exact Hi|].
  destruct (Hone row) as (w & Hw & Hw1).
  { eapply list_elem_of_lookup_2. exact Hrow. }
  exists row, w. split; [exact Hrow|]. split; assumption.
Qed.

(** ** The switches of [run] *)

Lemma set_column_Done (p c : nat) (j : Z) (v : Q) (m : matrix) :
  Forall (fun row => length row = p) m ->
  norm_index p j = Some c ->
  set_column j v m = Done (map (fun row => <[c := v]> row) m).
Proof.
  intros Hshape Hc. induction Hshape as [|row m Hrow _ IH]; simpl.
  - reflexivity.
  - unfold row_set_item. rewrite Hrow, Hc. step_bind.
    rewrite IH. reflexivity.
Qed.

Lemma suppress_distortions_Done (k : nat) (broaden x_shift noise : bool)
  (m : matrix) :
  Forall (fun row => length row = k + 3) m ->
  suppress_distortions broaden x_shift noise m =
  Done (map (fun row => switch_column noise (k + 2)
                          (switch_column x_shift (k + 1)
                             (switch_column broaden k row))) m).
Proof.
  intros Hshape. unfold suppress_distortions.
  assert (H3 : norm_index (k + 3) (-3) = Some k).
  { change (-3)%Z with (- Z.of_nat 3)%Z. rewrite norm_index_neg by lia.
    f_equal. lia. }
  assert (H2 : norm_index (k + 3) (-2) = Some (k + 1)).
  { change (-2)%Z with (- Z.of_nat 2)%Z. rewrite norm_index_neg by lia.
    f_equal. lia. }
  assert (H1 : norm_index (k + 3) (-1) = Some (k + 2)).
  { change (-1)%Z with (- Z.of_nat 1)%Z. rewrite norm_index_neg by lia.
    f_equal. lia. }
  set (m1 := map (switch_column broaden k) m).
  assert (Hm1 : (if broaden then Done m else set_column (-3) 0 m) = Done m1).
  { unfold m1, switch_column. destruct broaden.
    - rewrite map_id. reflexivity.
    - apply (set_column_Done (k + 3)); assumption. }
  assert (Hs1 : Forall (fun row => length row = k + 3) m1).
  { unfold m1. apply Forall_map. eapply Forall_impl; [exact Hshape|].
    intros row Hrow. simpl. unfold switch_column.
    destruct broaden; [|rewrite length_insert]; exact Hrow. }
  rewrite Hm1. step_bind.
  set (m2 := map (switch_column x_shift (k + 1)) m1).
  assert (Hm2 : (if x_shift then Done m1 else set_column (-2) 0 m1) = Done m2).
  { unfold m2, switch_column. destruct x_shift.
    - rewrite map_id. reflexivity.
    - apply (set_column_Done (k + 3)); assumption. }
  assert (Hs2 : Forall (fun row => length row = k + 3) m2).
  { unfold m2. apply Forall_map. eapply Forall_impl; [exact Hs1|].
    intros row Hrow. simpl. unfold switch_column.
    destruct x_shift; [|rewrite length_insert]; exact Hrow. }
  rewrite Hm2. step_bind.
  assert (Hm3 : (if noise then Done m2 else set_column (-1) 0 m2) =
                Done (map (switch_column noise (k + 2)) m2)).
  { unfold switch_column. destruct noise.
    - rewrite map_id. reflexivity.
    - apply (set_column_Done (k + 3)); assumption. }
  rewrite Hm3. unfold m2, m1. rewrite !map_map. reflexivity.
Qed.

Lemma switch_column_length (enabled : bool) (col : nat) (row : list Q) :
  length (switch_column enabled col row) = length row.
Proof.
  unfold switch_column. destruct enabled; [reflexivity|apply length_insert].
Qed.

(** A switch at or past column [k] leaves the [k] weight columns alone. *)
Lemma weights_switch_column (k col : nat) (enabled : bool) (row : list Q) :
  k <= col -> weights k (switch_column enabled col row) = weights k row.
Proof.
  intros Hcol. unfold weights, switch_column. destruct enabled; [reflexivity|].
  apply take_insert_ge. exact Hcol.
Qed.

Lemma lookup_switch_column (enabled : bool) (col j : nat) (row : list Q) :
  switch_column enabled col row !! j =
  if decide (enabled = false /\ j = col /\ col < length row)
  then Some 0%Q else row !! j.
Proof.
  unfold switch_column. destruct enabled.
  - destruct (decide _) as [[H _]|_]; [discriminate|reflexivity].
  - destruct (decide _) as [(_ & -> & Hlt)|Hn].
    + apply list_lookup_insert_eq. exact Hlt.
    + destruct (decide (col = j)) as [->|Hne].
      * rewrite list_insert_ge; [reflexivity|].
        destruct (decide (j < length row)); [tauto|lia].
      * apply list_lookup_insert_ne. exact Hne.
Qed.

Lemma lookup_switches (k : nat) (broaden x_shift noise : bool) (row : list Q)
  (j : nat) :
  length row = k + 3 ->
  switch_column noise (k + 2)
    (switch_column x_shift (k + 1) (switch_column broaden k row)) !! j =
  if decide ((broaden = false /\ j = k) \/ (x_shift = false /\ j = k + 1) \/
             (noise = false /\ j = k + 2))
  then Some 0%Q else row !! j.
Proof.
  intros Hlen. rewrite !lookup_switch_column, !switch_column_length, Hlen.
  repeat destruct (decide _); try reflexivity; exfalso;
    repeat match goal with
    | H : _ /\ _ |- _ => destruct H
    | H : _ \/ _ |- _ => destruct H
    end; subst; try lia; try discriminate;
    match goal with
    | H : ~ _ |- _ => apply H; clear H
    end; repeat split; auto; lia.
Qed.

(** C7: in every row that [create_matrix] stored, read as [run] reads it
    after its switches, the column of an enabled distortion holds an integer
    that numpy's [randint] returned for the bounds of that distortion:
    [145, 722) for the broadening width, [-8, 9), that is -8 to 8 inclusive,
    for the shift, and [15, 200) for the signal-to-noise target. *)
Theorem distortion_columns_in_range (G : RandomGen) (fuel : nat)
  (c c' : Creator) (single : bool) (st st' : rng_state G)
  (broaden x_shift noise : bool) (m : matrix) :
  randint_in_range G ->
  well_shaped c ->
  create_matrix G fuel c single st = Done (c', st') ->
  suppress_distortions broaden x_shift noise (augmentation_matrix c') = Done m ->
  forall row, row ∈ m ->
    let k := no_of_linear_params c in
    (broaden = true ->
     exists (z : Z) (s : rng_state G),
       row !! k = Some (inject_Z z) /\ z = (randint G 145 722 s).1 /\
       (145 <= z < 722)%Z) /\
    (x_shift = true ->
     exists (z : Z) (s : rng_state G),
       row !! (k + 1) = Some (inject_Z z) /\ z = (randint G (-8) 9 s).1 /\
       (-8 <= z <= 8)%Z) /\
    (noise = true ->
     exists (z : Z) (s : rng_state G),
       row !! (k + 2) = Some (inject_Z z) /\ z = (randint G 15 200 s).1 /\
       (15 <= z < 200)%Z).
Proof.
  intros Hrand Hshape Hrun Hsup row Hin. cbv zeta.
  destruct (create_matrix_rows _ _ _ _ _ _ _ Hshape Hrun)
    as (_ & Hk & [_ Hshape'] & Hgen).
  rewrite Hk in Hshape'.
  rewrite (suppress_distortions_Done _ _ _ _ _ Hshape') in Hsup.
  injection Hsup as <-.
  apply list_elem_of_fmap in Hin as (row0 & -> & Hin0).
  assert (Hlen0 : length row0 = no_of_linear_params c + 3).
  { rewrite Forall_forall in Hshape'. apply Hshape'. exact Hin0. }
  apply Hgen, generated_row_parts in Hin0
    as (r & s0 & r1 & s1 & _ & _ & _ & _ & Hdrop).
  set (k := no_of_linear_params c) in *.
  assert (Hcol : forall j, row0 !! (k + j) =
    [inject_Z (randint G 145 722 s1).1;
     inject_Z (randint G (-8) 9 (randint G 145 722 s1).2).1;
     inject_Z (randint G 15 200
                 (randint G (-8) 9 (randint G 145 722 s1).2).2).1] !! j).
  { intros j. rewrite <- Hdrop. symmetry. apply lookup_drop. }
  split; [|split]; intros ->.
  - eexists _, s1. rewrite lookup_switches by exact Hlen0.
    destruct (decide _) as [[[H _]|[[_ H]|[_ H]]]|_]; [discriminate|lia|lia|].
    split; [|split; [reflexivity|]].
    + pose proof (Hcol 0) as H0. rewrite Nat.add_0_r in H0.
      rewrite H0. reflexivity.
    + apply Hrand. lia.
  - eexists _, _. rewrite lookup_switches by exact Hlen0.
    destruct (decide _) as [[[_ H]|[[H _]|[_ H]]]|_]; [lia|discriminate|lia|].
    split; [|split; [reflexivity|]].
    + rewrite Hcol. reflexivity.
    + pose proof (Hrand (-8)%Z 9%Z (randint G 145 722 s1).2) as Hr. lia.
  - eexists _, _. rewrite lookup_switches by exact Hlen0.
    destruct (decide _) as [[[_ H]|[[_ H]|[H _]]]|_]; [lia|lia|discriminate|].
    split; [|split; [reflexivity|]].
    + rewrite Hcol. reflexivity.
    + apply Hrand. lia.
Qed.

(** ** [run] *)

Lemma run_Done (G : RandomGen) (S : SimulationClass G) (c c' : Creator)
  (broaden x_shift noise : bool) (st st' : rng_state G) :
  run G S c broaden x_shift noise st = Done (c', st') ->
  exists m recs,
    suppress_distortions broaden x_shift noise (augmentation_matrix c) = Done m /\
    simulate_rows G S c m (seq 0 (no_of_simulations c)) [] st = Done (recs, st') /\
    augmentation_matrix c' = m /\
    df c' = Some recs /\
    reduced_df c' = Some (map reduce_record recs).
Proof.
  unfold run. intros H.
  apply bind_Done in H as (m & Hm & H).
  apply bind_Done in H as ([recs st1] & Hrows & H).
  exists m, recs. destruct recs as [|d recs]; [discriminate|].
  injection H as <- <-. simpl. auto.
Qed.

(** The loop appends one record per index, in the order of the indices,
    each the record of [simulate_one] at that index. *)
Lemma simulate_rows_Done (G : RandomGen) (S : SimulationClass G) (c : Creator)
  (m : matrix) (rows : list nat) (acc recs : list SimRecord)
  (st st' : rng_state G) :
  simulate_rows G S c m rows acc st = Done (recs, st') ->
  exists new,
    recs = acc ++ new /\ length new = length rows /\
    forall j i, rows !! j = Some i ->
      exists d s s', simulate_one G S c m i s = Done (d, s') /\
                     new !! j = Some d.
Proof.
  revert acc st. induction rows as [|i rows IH]; intros acc st; simpl.
  - intros H. injection H as <- <-. exists [].
    rewrite app_nil_r. split; [reflexivity|]. split; [reflexivity|].
    intros j i Hj. rewrite lookup_nil in Hj. discriminate.
  - intros H. apply bind_Done in H as ([d st1] & Hone & H).
    apply IH in H as (new & -> & Hlen & Hnew).
    exists (d :: new). rewrite <- app_assoc. split; [reflexivity|].
    split; [simpl; lia|].
    intros [|j] i' Hj; simpl in Hj.
    + injection Hj as <-. exists d, st, st1. split; [exact Hone|reflexivity].
    + apply Hnew in Hj. exact Hj.
Qed.

(** C2: two runs from the same creator (the same sampled matrix, so the
    same seed) that differ in which distortions are enabled work on
    matrices with the same weight columns, those of the sampled matrix, and
    the column of every distortion that a run disabled is 0 in each of its
    rows. *)
Theorem switches_keep_weights (G : RandomGen) (S : SimulationClass G)
  (c c1 c2 : Creator) (broaden x_shift noise broaden' x_shift' noise' : bool)
  (st st1 st2 : rng_state G) :
  well_shaped c ->
  run G S c broaden x_shift noise st = Done (c1, st1) ->
  run G S c broaden' x_shift' noise' st = Done (c2, st2) ->
  let k := no_of_linear_params c in
  map (weights k) (augmentation_matrix c1) =
    map (weights k) (augmentation_matrix c) /\
  map (weights k) (augmentation_matrix c1) =
    map (weights k) (augmentation_matrix c2) /\
  forall row, row ∈ augmentation_matrix c1 ->
    (broaden = false -> row !! k = Some 0%Q) /\
    (x_shift = false -> row !! (k + 1) = Some 0%Q) /\
    (noise = false -> row !! (k + 2) = Some 0%Q).
Proof.
  intros [_ Hshape] H1 H2. cbv zeta.
  apply run_Done in H1 as (m1 & _ & Hm1 & _ & -> & _).
  apply run_Done in H2 as (m2 & _ & Hm2 & _ & -> & _).
  rewrite (suppress_distortions_Done _ _ _ _ _ Hshape) in Hm1.
  rewrite (suppress_distortions_Done _ _ _ _ _ Hshape) in Hm2.
  injection Hm1 as <-. injection Hm2 as <-.
  set (k := no_of_linear_params c) in *.
  assert (Hw : forall b x n,
    map (weights k)
      (map (fun row => switch_column n (k + 2)
                         (switch_column x (k + 1) (switch_column b k row)))
           (augmentation_matrix c)) =
    map (weights k) (augmentation_matrix c)).
  { intros b x n. rewrite map_map. apply map_ext. intros row.
    rewrite !weights_switch_column by lia. reflexivity. }
  split; [apply Hw|]. split; [rewrite !Hw; reflexivity|].
  intros row Hin. apply list_elem_of_fmap in Hin as (row0 & -> & Hin0).
  assert (Hlen0 : length row0 = k + 3).
  { rewrite Forall_forall in Hshape. apply Hshape. exact Hin0. }
  rewrite !lookup_switches by exact Hlen0.
  split; [|split]; intros ->.
  - destruct (decide _) as [_|Hn]; [reflexivity|]. exfalso. apply Hn. auto.
  - destruct (decide _) as [_|Hn]; [reflexivity|]. exfalso. apply Hn. auto.
  - destruct (decide _) as [_|Hn]; [reflexivity|]. exfalso. apply Hn. auto.
Qed.

(** What one pass of the loop of [run] reads and calls: row [i] of the
    matrix, its first [no_of_linear_params] entries for [combine_linear],
    its last three for [change_spectrum]. *)
Lemma simulate_one_Done (G : RandomGen) (S : SimulationClass G) (c : Creator)
  (m : matrix) (i : nat) (st st' : rng_state G) (d : SimRecord) :
  simulate_one G S c m i st = Done (d, st') ->
  exists row sim sim1 sim2 fwhm shift_x signal_to_noise,
    m !! i = Some row /\
    new_simulation S (input_spectra c) = Done sim /\
    combine_linear S sim (take (no_of_linear_params c) row) = Done sim1 /\
    row_item (-3) row = Done fwhm /\
    row_item (-2) row = Done shift_x /\
    row_item (-1) row = Done signal_to_noise /\
    change_spectrum S sim1 fwhm shift_x signal_to_noise st =
      Done (sim2, st') /\
    d = dict_from_one_simulation (output_spectrum S sim2).
Proof.
  unfold simulate_one, matrix_row. intros H.
  apply bind_Done in H as (sim & Hsim & H).
  destruct (m !! i) as [row|] eqn:Hrow; [|discriminate].
  apply bind_Done in H as (row' & Hr & H). injection Hr as <-.
  apply bind_Done in H as (sim1 & Hsim1 & H).
  apply bind_Done in H as (fwhm & Hf & H).
  apply bind_Done in Hf as (row' & Hr & Hf). injection Hr as <-.
  apply bind_Done in H as (shift_x & Hx & H).
  apply bind_Done in Hx as (row' & Hr & Hx). injection Hr as <-.
  apply bind_Done in H as (snr & Hn & H).
  apply bind_Done in Hn as (row' & Hr & Hn). injection Hr as <-.
  apply bind_Done in H as ([sim2 st2] & Hch & H). injection H as <- <-.
  exists row, sim, sim1, sim2, fwhm, shift_x, snr.
  repeat (split; [assumption || reflexivity|]). reflexivity.
Qed.

(** The loop threads the generator state: pass [j] starts from the state
    that pass [j - 1] left. *)
Lemma simulate_rows_states (G : RandomGen) (S : SimulationClass G)
  (c : Creator) (m : matrix) (rows : list nat) (acc recs : list SimRecord)
  (st st' : rng_state G) :
  simulate_rows G S c m rows acc st = Done (recs, st') ->
  exists new states,
    recs = acc ++ new /\ length new = length rows /\
    length states = length rows + 1 /\
    states !! 0 = Some st /\ states !! length rows = Some st' /\
    forall j i, rows !! j = Some i ->
      exists d s s',
        states !! j = Some s /\ states !! (j + 1) = Some s' /\
        simulate_one G S c m i s = Done (d, s') /\
        new !! j = Some d.
Proof.
  revert acc st. induction rows as [|i rows IH]; intros acc st; simpl.
  - intros H. injection H as <- <-. exists [], [st].
    rewrite app_nil_r. repeat (split; [reflexivity|]).
    intros j i Hj. rewrite lookup_nil in Hj. discriminate.
  - intros H. apply bind_Done in H as ([d st1] & Hone & H).
    apply IH in H as (new & states & -> & Hlen & Hls & H0 & Hl & Hnew).
    exists (d :: new), (st :: states). rewrite <- app_assoc.
    split; [reflexivity|]. split; [simpl; lia|]. split; [simpl; lia|].
    split; [reflexivity|]. split; [exact Hl|].
    intros [|j] i' Hj; simpl in Hj.
    + injection Hj as <-. exists d, st, st1.
      split; [reflexivity|]. split; [exact H0|].
      split; [exact Hone|reflexivity].
    + destruct (Hnew j i' Hj) as (d' & s & s' & Hs & Hs' & Hsim & Hd).
      exists d', s, s'. split; [exact Hs|]. split; [exact Hs'|].
      split; [exact Hsim|exact Hd].
Qed.

(** C8: when [run] completes, the collection [df] holds exactly
    [no_of_simulations] records, in the order of the rows: record [i] is
    made from row [i] of the matrix, whose weights are the scaling
    parameters given to [combine_linear] and whose last three entries are
    the width, shift and signal-to-noise given to [change_spectrum], and
    from the generator state that the record before it left. *)
Theorem run_collects_records (G : RandomGen) (S : SimulationClass G)
  (c c' : Creator) (broaden x_shift noise : bool) (st st' : rng_state G) :
  run G S c broaden x_shift noise st = Done (c', st') ->
  exists recs states,
    df c' = Some recs /\
    length recs = no_of_simulations c /\
    length states = no_of_simulations c + 1 /\
    states !! 0 = Some st /\
    states !! no_of_simulations c = Some st' /\
    forall i, i < no_of_simulations c ->
      exists row sim sim1 sim2 fwhm shift_x signal_to_noise s s',
        augmentation_matrix c' !! i = Some row /\
        states !! i = Some s /\ states !! (i + 1) = Some s' /\
        new_simulation S (input_spectra c) = Done sim /\
        combine_linear S sim (take (no_of_linear_params c) row) =
          Done sim1 /\
        row_item (-3) row = Done fwhm /\
        row_item (-2) row = Done shift_x /\
        row_item (-1) row = Done signal_to_noise /\
        change_spectrum S sim1 fwhm shift_x signal_to_noise s =
          Done (sim2, s') /\
        recs !! i =
          Some (dict_from_one_simulation (output_spectrum S sim2)).
Proof.
  intros H. apply run_Done in H as (m & recs & _ & Hrows & -> & Hdf & _).
  apply simulate_rows_states in Hrows
    as (new & states & -> & Hlen & Hls & H0 & Hl & Hnew).
  rewrite length_seq in Hlen, Hls, Hl.
  exists new, states. simpl.
  split; [exact Hdf|]. split; [exact Hlen|]. split; [exact Hls|].
  split; [exact H0|]. split; [exact Hl|].
  intros i Hi.
  destruct (Hnew i i) as (d & s & s' & Hs & Hs' & Hsim & Hd).
  { apply lookup_seq. lia. }
  apply simulate_one_Done in Hsim
    as (row & sim & sim1 & sim2 & fwhm & shift_x & snr &
        Hrow & Hnew_sim & Hcomb & Hf & Hx & Hn & Hch & ->).
  exists row, sim, sim1, sim2, fwhm, shift_x, snr, s, s'.
  repeat (split; [assumption|]). exact Hd.
Qed.

(** ** The replaying generator keeps numpy's contract *)

Lemma Replay_uniform_in_range : uniform_in_range Replay.
Proof.
  intros lo hi st Hle. simpl. unfold replay_uniform.
  destruct (replay_next st) as [z st']. simpl.
  pose proof (Z.mod_pos_bound z 1000 ltac:(lia)) as Hz.
  set (f := (z mod 1000 # 1000)%Q).
  assert (Hf0 : (0 <= f)%Q) by (unfold f, Qle; simpl; lia).
  assert (Hf1 : (f <= 1)%Q) by (unfold f, Qle; simpl; lia).
  assert (H0 : (0 <= (hi - lo) * f)%Q) by (apply Qmult_le_0_compat; lra).
  assert (H1 : ((hi - lo) * f <= (hi - lo) * 1)%Q).
  { rewrite !(Qmult_comm (hi - lo)). apply Qmult_le_compat_r; lra. }
  lra.
Qed.

Lemma Replay_randint_in_range : randint_in_range Replay.
Proof.
  intros lo hi st Hlt. simpl. unfold replay_randint.
  destruct (replay_next st) as [z st']. simpl.
  pose proof (Z.mod_pos_bound z (hi - lo) ltac:(lia)). lia.
Qed.

Lemma Replay_choice_from_list : choice_from_list Replay.
Proof.
  intros l st q st'. simpl. unfold replay_choice.
  destruct (replay_next st) as [z st0].
  destruct (l !! Z.to_nat (z mod Z.of_nat (length l))) as [q'|] eqn:Hq;
    [|discriminate].
  intros H. injection H as <- <-.
  eapply list_elem_of_lookup_2. exact Hq.
Qed.

Lemma blank_creator_well_shaped (n : nat) (spectra : list MeasuredSpectrum) :
  well_shaped (blank_creator n spectra).
Proof.
  unfold well_shaped, matrix_shape. simpl. apply np_zeros_shape.
Qed.

(** ** Examples *)

(** The rows of [sampled_combination] satisfy C1's invariant. *)
Lemma combination_rows_weights_example :
  let w := weights 2 [(550000000000000 # 1100000000000000)%Q;
                      (550000000000000 # 1100000000000000)%Q;
                      149%Q; (-3)%Q; 21%Q] in
  length w = 2 /\
  Forall (fun p => (0 <= p)%Q) w /\
  Forall (fun p => (1 # 10 <= p)%Q) w /\
  (Qabs (py_sum w - 1) <= 1 # 1000000)%Q /\
  exists st0 r st1,
    draw_uniforms Replay 2 st0 = (r, st1) /\ normalise r = Done w.
Proof.
  apply (combination_rows_weights Replay 3 (blank_creator 2 [Fe_metal; FeO])
           sampled_combination.1 recording sampled_combination.2).
  - apply blank_creator_well_shaped.
  - simpl. lia.
  - vm_compute. reflexivity.
  - simpl. right. left.
Defined.

(** C1 as stated fails without reference spectra: [create_matrix] returns,
    and the weights of the row it stored, none, sum to 0. *)
Lemma no_references_weights_sum_to_zero :
  exists c st',
    Creator_init Replay 0 1 [] false [] = Done (c, st') /\
    exists row, row ∈ augmentation_matrix c /\
      ~ (Qabs (py_sum (weights (no_of_linear_params c) row) - 1)
         <= 1 # 1000000)%Q.
Proof.
  eexists _, _. split; [vm_compute; reflexivity|].
  eexists. split; [left|].
  vm_compute. intros H. apply H. reflexivity.
Qed.

(** C3 as stated fails for eleven references: whatever number of rounds the
    rejection loop is given, the sampler is still running: it neither
    returns nor signals an error. *)
Lemma eleven_references_never_return :
  never_returns (fun fuel => sample_weights Replay fuel 11 []).
Proof.
  intros fuel. unfold sample_weights.
  destruct (draw_normalise Replay 11 [] Replay_uniform_in_range)
    as (r & st' & w & -> & -> & Hl & Hs); [lia|].
  step_bind.
  apply resample_unreachable; [apply Replay_uniform_in_range|lia|exact Hl|exact Hs].
Qed.

(** The loop of [sampled_combination]'s first row is still running after no
    round and has returned after one. *)
Lemma rejection_loop_has_no_cap_example :
  (forall fuel st e, sample_weights Replay fuel 2 st <> Raise e) /\
  (forall fuel st w st',
     sample_weights Replay fuel 2 st = Done (w, st') ->
     all_above_floor w = true /\
     forall fuel', fuel <= fuel' ->
       sample_weights Replay fuel' 2 st = Done (w, st')) /\
  (11 <= 2 ->
   forall st, never_returns (fun fuel => sample_weights Replay fuel 2 st)).
Proof.
  apply (rejection_loop_has_no_cap Replay 2).
  - apply Replay_uniform_in_range.
  - lia.
Defined.

Lemma single_rows_one_hot_example :
  let w := weights 2 [0%Q; 1%Q; 147%Q; (-5)%Q; 145%Q] in
  length w = 2 /\
  exists q, q < 2 /\
    w !! q = Some 1%Q /\
    forall j, j < 2 -> j <> q -> w !! j = Some 0%Q.
Proof.
  apply (single_rows_one_hot Replay 0 (blank_creator 2 [Fe_metal; FeO])
           sampled_single.1 recording sampled_single.2).
  - apply Replay_choice_from_list.
  - apply blank_creator_well_shaped.
  - vm_compute. reflexivity.
  - simpl. right. left.
Defined.

(** Two rows over one reference: both are stored, and the weight of the
    first is 1. *)
Lemma single_reference_weight_is_one_example :
  (forall fuel,
     create_matrix Replay fuel (blank_creator 2 [Fe_metal]) false recording =
     Done sampled_one_reference) /\
  length (augmentation_matrix sampled_one_reference.1) = 2 /\
  exists row w,
    augmentation_matrix sampled_one_reference.1 !! 0 = Some row /\
    weights 1 row = [w] /\ (w == 1)%Q.
Proof.
  destruct (single_reference_weight_is_one Replay
              (blank_creator 2 [Fe_metal]) recording)
    as (c' & st' & Hrun & Hlen & Hrows & _).
  - apply Replay_uniform_in_range.
  - apply blank_creator_well_shaped.
  - reflexivity.
  - assert (E : create_matrix Replay 0 (blank_creator 2 [Fe_metal]) false
                  recording = Done sampled_one_reference)
      by (vm_compute; reflexivity).
    pose proof (Hrun 0) as H0. rewrite E in H0. apply Done_inj in H0.
    assert (Hc : c' = sampled_one_reference.1) by (rewrite H0; reflexivity).
    assert (Hs : st' = sampled_one_reference.2) by (rewrite H0; reflexivity).
    subst c' st'. split; [exact Hrun|]. split; [exact Hlen|].
    apply (Hrows 0). simpl. lia.
Defined.

Lemma distortion_columns_in_range_example :
  let k := 2 in
  let row := [(100000000000000 # 830000000000000)%Q;
              (730000000000000 # 830000000000000)%Q; 0%Q; (-6)%Q; 18%Q] in
  (false = true ->
   exists (z : Z) (s : list Z),
     row !! k = Some (inject_Z z) /\ z = (replay_randint 145 722 s).1 /\
     (145 <= z < 722)%Z) /\
  (true = true ->
   exists (z : Z) (s : list Z),
     row !! (k + 1) = Some (inject_Z z) /\ z = (replay_randint (-8) 9 s).1 /\
     (-8 <= z <= 8)%Z) /\
  (true = true ->
   exists (z : Z) (s : list Z),
     row !! (k + 2) = Some (inject_Z z) /\ z = (replay_randint 15 200 s).1 /\
     (15 <= z < 200)%Z).
Proof.
  apply (distortion_columns_in_range Replay 3 (blank_creator 2 [Fe_metal; FeO])
           sampled_combination.1 false recording sampled_combination.2
           false true true (augmentation_matrix run_no_broadening.1)).
  - apply Replay_randint_in_range.
  - apply blank_creator_well_shaped.
  - vm_compute. reflexivity.
  - vm_compute. reflexivity.
  - simpl. left.
Defined.

Lemma sampled_combination_well_shaped : well_shaped sampled_combination.1.
Proof.
  split; [reflexivity|]. repeat constructor.
Qed.

Lemma switches_keep_weights_example :
  let k := 2 in
  map (weights k) (augmentation_matrix run_no_broadening.1) =
    map (weights k) (augmentation_matrix sampled_combination.1) /\
  map (weights k) (augmentation_matrix run_no_broadening.1) =
    map (weights k) (augmentation_matrix run_all_enabled.1) /\
  forall row, row ∈ augmentation_matrix run_no_broadening.1 ->
    (false = false -> row !! k = Some 0%Q) /\
    (true = false -> row !! (k + 1) = Some 0%Q) /\
    (true = false -> row !! (k + 2) = Some 0%Q).
Proof.
  apply (switches_keep_weights Replay (ToySimulation Replay)
           sampled_combination.1 run_no_broadening.1 run_all_enabled.1
           false true true true true true
           sampled_combination.2 run_no_broadening.2 run_all_enabled.2).
  - apply sampled_combination_well_shaped.
  - vm_compute. reflexivity.
  - vm_compute. reflexivity.
Defined.

(** The run of [sampled_combination]: two records, the first made from
    the first row of the matrix. *)
Lemma run_collects_records_example :
  exists recs states,
    df run_all_enabled.1 = Some recs /\
    length recs = 2 /\
    length states = 2 + 1 /\
    states !! 0 = Some sampled_combination.2 /\
    states !! 2 = Some run_all_enabled.2 /\
    forall i, i < 2 ->
      exists row sim sim1 sim2 fwhm shift_x signal_to_noise s s',
        augmentation_matrix run_all_enabled.1 !! i = Some row /\
        states !! i = Some s /\ states !! (i + 1) = Some s' /\
        new_simulation (ToySimulation Replay)
          (input_spectra sampled_combination.1) = Done sim /\
        combine_linear (ToySimulation Replay) sim (take 2 row) = Done sim1 /\
        row_item (-3) row = Done fwhm /\
        row_item (-2) row = Done shift_x /\
        row_item (-1) row = Done signal_to_noise /\
        change_spectrum (ToySimulation Replay) sim1 fwhm shift_x
          signal_to_noise s = Done (sim2, s') /\
        recs !! i =
          Some (dict_from_one_simulation
                  (output_spectrum (ToySimulation Replay) sim2)).
Proof.
  apply (run_collects_records Replay (ToySimulation Replay)
           sampled_combination.1 run_all_enabled.1 true true true
           sampled_combination.2 run_all_enabled.2).
  vm_compute. reflexivity.
Defined.

(** ** [to_file] with a file type outside [filetypes] *)

Lemma io_bind_done {A B : Type} (m : io A) (f : A -> io B) (a : A)
  (w w' : world) :
  m w = (Done a, w') -> (m ≫= f) w = f a w'.
Proof.
  intros H. unfold mbind, io_bind. rewrite H. reflexivity.
Qed.

Lemma io_bind_raise {A B : Type} (m : io A) (f : A -> io B) (e : exn)
  (w w' : world) :
  m w = (Raise e, w') -> (m ≫= f) w = (Raise e, w').
Proof.
  intros H. unfold mbind, io_bind. rewrite H. reflexivity.
Qed.

Lemma not_in_filetypes (filetype : string) :
  filetype ∉ filetypes ->
  filetype <> "excel" /\ filetype <> "json" /\ filetype <> "pickle".
Proof.
  unfold filetypes. intros H. repeat split; intros ->; apply H.
  - left.
  - right. left.
  - right. right. left.
Qed.

Lemma save_unsupported (df : content) (filename filetype : string) (w : world) :
  filetype ∉ filetypes ->
  _save_to_file df filename filetype w = (Done tt, w).
Proof.
  intros H. apply not_in_filetypes in H as (He & Hj & Hp).
  unfold _save_to_file.
  destruct (decide (filetype = "excel")) as [|_]; [contradiction|].
  destruct (decide (filetype = "json")) as [|_]; [contradiction|].
  destruct (decide (filetype = "pickle")) as [|_]; [contradiction|].
  reflexivity.
Qed.

(** The per-record loop leaves the world as it found it, and ends normally
    or with the error of reading the frame. *)
Lemma save_each_unsupported (datafolder name filetype : string)
  (df : option table) (rows : list nat) (w : world) :
  filetype ∉ filetypes ->
  (save_each datafolder name filetype df rows w).2 = w /\
  ((save_each datafolder name filetype df rows w).1 = Done tt \/
   (save_each datafolder name filetype df rows w).1 = Raise UnboundLocalError \/
   (save_each datafolder name filetype df rows w).1 = Raise IndexError).
Proof.
  intros H. induction rows as [|i rows IH]; simpl.
  - auto.
  - destruct df as [t|].
    + destruct (iloc t i w) as [[row| |] w1] eqn:Hi.
      * assert (w1 = w) as ->.
        { destruct t as [rs|rs]; simpl in Hi;
            destruct (rs !! i); inversion Hi; reflexivity. }
        erewrite io_bind_done.
        2:{ erewrite io_bind_done by reflexivity.
            erewrite io_bind_done by exact Hi.
            apply save_unsupported. exact H. }
        exact IH.
      * assert (w1 = w /\ e = IndexError) as [-> ->].
        { destruct t as [rs|rs]; simpl in Hi;
            destruct (rs !! i); inversion Hi; auto. }
        erewrite io_bind_raise.
        2:{ erewrite io_bind_done by reflexivity.
            erewrite io_bind_raise by exact Hi. reflexivity. }
        auto.
      * exfalso. destruct t as [rs|rs]; simpl in Hi;
          destruct (rs !! i); inversion Hi.
    + erewrite io_bind_raise.
      2:{ erewrite io_bind_raise by reflexivity. reflexivity. }
      auto.
Qed.

Lemma save_each_complete (datafolder name filetype : string) (t : table)
  (rows : list nat) (w : world) :
  filetype ∉ filetypes ->
  (forall i, i ∈ rows -> exists row, iloc t i w = (Done row, w)) ->
  (save_each datafolder name filetype (Some t) rows w).1 = Done tt.
Proof.
  intros H. induction rows as [|i rows IH]; intros Hrows; simpl.
  - reflexivity.
  - destruct (Hrows i) as [row Hi]; [left|].
    erewrite io_bind_done.
    2:{ erewrite io_bind_done by reflexivity.
        erewrite io_bind_done by exact Hi.
        apply save_unsupported. exact H. }
    apply IH. intros j Hj. apply Hrows. right. exact Hj.
Qed.

(** C9 (amended): a request to export with a file type that is none of
    'excel', 'json' and 'pickle' raises no error for it: [to_file] prints
    'Saving was not successful. Choose a valid filetype!' and goes on,
    writes no file whatever else it is asked, and, when the frame that [how]
    names exists and holds the [no_of_simulations] rows, returns
    normally. *)
Theorem unsupported_filetype_writes_nothing (datafolder : string)
  (c : Creator) (name filetype how : string) (single : bool) (w : world) :
  filetype ∉ filetypes ->
  (to_file datafolder c name filetype how single w).2 =
    (print "Saving was not successful. Choose a valid filetype!" w).2 /\
  files (to_file datafolder c name filetype how single w).2 = files w /\
  ((to_file datafolder c name filetype how single w).1 = Done tt \/
   (to_file datafolder c name filetype how single w).1 = Raise AttributeError \/
   (to_file datafolder c name filetype how single w).1 = Raise UnboundLocalError \/
   (to_file datafolder c name filetype how single w).1 = Raise IndexError) /\
  (forall rows rrows,
     df c = Some rows -> reduced_df c = Some rrows ->
     length rows = no_of_simulations c ->
     length rrows = no_of_simulations c ->
     how = "full" \/ how = "reduced" ->
     (to_file datafolder c name filetype how single w).1 = Done tt).
Proof.
  intros H. unfold to_file.
  destruct (decide (filetype ∈ filetypes)) as [|_]; [contradiction|].
  set (msg := "Saving was not successful. Choose a valid filetype!").
  erewrite io_bind_done by reflexivity.
  set (w1 := (print msg w).2).
  change (print msg w).2 with w1.
  assert (Hf : files w1 = files w) by reflexivity.
  destruct (select_table c how w1) as [[t| |] w2] eqn:Hsel.
  - assert (w2 = w1) as ->.
    { revert Hsel. unfold select_table.
      destruct (decide (how = "full")); [destruct (df c)|];
        [| |destruct (decide (how = "reduced")); [destruct (reduced_df c)|]];
        intros Hsel; inversion Hsel; reflexivity. }
    erewrite io_bind_done by exact Hsel.
    destruct single.
    + destruct (save_each_unsupported datafolder name filetype t
                  (seq 0 (no_of_simulations c)) w1 H) as [Hw Ho].
      rewrite Hw. split; [reflexivity|]. split; [exact Hf|]. split.
      { tauto. }
      intros rows rrows Hdf Hrdf Hl Hrl Hhow.
      assert (exists t', t = Some t' /\
                (t' = FullTable rows \/ t' = ReducedTable rrows))
        as (t' & -> & Ht').
      { revert Hsel. unfold select_table. rewrite Hdf, Hrdf.
        destruct Hhow as [-> | ->]; simpl; intros Hsel; inversion Hsel; eauto. }
      apply save_each_complete; [exact H|].
      intros i Hi. apply elem_of_seq in Hi.
      destruct Ht' as [-> | ->]; simpl.
      * destruct (lookup_lt_is_Some_2 rows i) as [r ->]; [lia|]. eauto.
      * destruct (lookup_lt_is_Some_2 rrows i) as [r ->]; [lia|]. eauto.
    + destruct t as [t'|].
      * erewrite io_bind_done by reflexivity.
        rewrite save_unsupported by exact H.
        split; [reflexivity|]. split; [exact Hf|]. split; [auto|]. auto.
      * erewrite io_bind_raise by reflexivity.
        split; [reflexivity|]. split; [exact Hf|]. split; [auto|].
        intros rows rrows Hdf Hrdf _ _ Hhow. exfalso.
        revert Hsel. unfold select_table. rewrite Hdf, Hrdf.
        destruct Hhow as [-> | ->]; simpl; intros Hsel; inversion Hsel.
  - assert (w2 = w1 /\ e = AttributeError) as [-> ->].
    { revert Hsel. unfold select_table.
      destruct (decide (how = "full")); [destruct (df c)|];
        [| |destruct (decide (how = "reduced")); [destruct (reduced_df c)|]];
        intros Hsel; inversion Hsel; auto. }
    erewrite io_bind_raise by exact Hsel.
    split; [reflexivity|]. split; [exact Hf|]. split; [auto|].
    intros rows rrows Hdf Hrdf _ _ Hhow. exfalso.
    revert Hsel. unfold select_table. rewrite Hdf, Hrdf.
    destruct Hhow as [-> | ->]; simpl; intros Hsel; inversion Hsel.
  - exfalso. revert Hsel. unfold select_table.
    destruct (decide (how = "full")); [destruct (df c)|];
      [| |destruct (decide (how = "reduced")); [destruct (reduced_df c)|]];
      intros Hsel; inversion Hsel.
Qed.

(** C9 as stated fails: asked for the file type 'txt', which the docstring
    lists and [filetypes] does not, [to_file] returns normally. *)
Lemma txt_export_returns_normally :
  (to_file "data\simulated" run_all_enabled.1 "spectra" "txt" "full" false
     empty_world).1 = Done tt.
Proof.
  vm_compute. reflexivity.
Qed.

Lemma unsupported_filetype_writes_nothing_example :
  let call := to_file "data\simulated" run_all_enabled.1 "spectra" "txt"
                "reduced" true empty_world in
  call.2 =
    (print "Saving was not successful. Choose a valid filetype!"
       empty_world).2 /\
  files call.2 = files empty_world /\
  (call.1 = Done tt \/ call.1 = Raise AttributeError \/
   call.1 = Raise UnboundLocalError \/ call.1 = Raise IndexError) /\
  (forall rows rrows,
     df run_all_enabled.1 = Some rows ->
     reduced_df run_all_enabled.1 = Some rrows ->
     length rows = no_of_simulations run_all_enabled.1 ->
     length rrows = no_of_simulations run_all_enabled.1 ->
     "reduced" = "full" \/ "reduced" = "reduced" ->
     call.1 = Done tt).
Proof.
  apply (unsupported_filetype_writes_nothing "data\simulated"
           run_all_enabled.1 "spectra" "txt" "reduced" true empty_world).
  unfold filetypes. intros H. apply list_elem_of_In in H. simpl in H.
  intuition discriminate.
Defined.

(** ** [upload_to_DB] *)

Lemma collection_insert_one (name : string) (doc : SimRecord) (w : world) :
  collection (insert_one name doc w).2 name = collection w name ++ [doc].
Proof.
  unfold collection, insert_one. simpl. rewrite lookup_insert_eq. reflexivity.
Qed.

Lemma collection_delete_many (name : string) (w : world) :
  collection (delete_many name w).2 name = [].
Proof.
  unfold collection, delete_many. simpl.
  destruct (db w !! name) eqn:H.
  - rewrite lookup_insert_eq. reflexivity.
  - rewrite H. reflexivity.
Qed.

(** When the upload loop completes, it has appended the documents of the
    rows of the full table, in order. *)
Lemma insert_rows_Done (c : Creator) (name : string) (full : list SimRecord)
  (n a : nat) (w w' : world) :
  df c = Some full ->
  insert_rows c name (seq a n) w = (Done tt, w') ->
  collection w' name =
    collection w name ++ (to_document <$> take n (drop a full)).
Proof.
  intros Hdf. revert a w. induction n as [|n IH]; intros a w; simpl.
  - intros H. inversion H. rewrite app_nil_r. reflexivity.
  - rewrite Hdf. destruct (full !! a) as [row|] eqn:Hrow.
    + unfold mbind at 1, io_bind at 1.
      unfold mbind at 1, io_bind at 1.
      destruct (insert_one name (to_document row) w) as [o w1] eqn:Hins.
      assert (o = Done tt) as -> by (inversion Hins; reflexivity).
      unfold print at 1.
      intros H. apply IH in H. rewrite H. simpl.
      assert (Hc : collection w1 name = collection w name ++ [to_document row]).
      { replace w1 with (insert_one name (to_document row) w).2
          by (rewrite Hins; reflexivity).
        apply collection_insert_one. }
      unfold collection in *. simpl. rewrite Hc.
      rewrite (drop_S _ _ _ Hrow). simpl.
      rewrite <- app_assoc. reflexivity.
    + unfold mbind, io_bind. simpl. discriminate.
Qed.

(** C10: when both frames exist, the two calls that differ only in [reduced]
    have the same outcome and leave the same world; and whatever [reduced]
    is, a call that was to write and completed leaves in the collection
    exactly the documents of the first [no_of_simulations] rows of the full
    table [self.df], all their fields. *)
Theorem upload_ignores_reduced (connectionstring collection_name : string)
  (c : Creator) (w : world) (rows : list SimRecord)
  (rrows : list ReducedRecord) :
  df c = Some rows ->
  reduced_df c = Some rrows ->
  upload_to_DB (Some connectionstring) c collection_name true w =
    upload_to_DB (Some connectionstring) c collection_name false w /\
  forall reduced name' w1 w2,
    resolve_collection collection_name w = (Done (true, name'), w1) ->
    upload_to_DB (Some connectionstring) c collection_name reduced w =
      (Done tt, w2) ->
    collection w2 name' = to_document <$> take (no_of_simulations c) rows.
Proof.
  intros Hdf Hrdf.
  assert (Hsel : forall reduced,
    upload_to_DB (Some connectionstring) c collection_name reduced w =
    (resolve_collection collection_name ≫= fun decision : bool * string =>
     if decision.1 then
       delete_many decision.2 ≫= fun _ =>
       insert_rows c decision.2 (seq 0 (no_of_simulations c))
     else mret tt) w).
  { intros reduced. unfold upload_to_DB. rewrite Hdf, Hrdf.
    destruct reduced; reflexivity. }
  split; [rewrite !Hsel; reflexivity|].
  intros reduced name' w1 w2 Hres. rewrite Hsel.
  erewrite io_bind_done by exact Hres. simpl.
  unfold mbind, io_bind.
  destruct (delete_many name' w1) as [o w1'] eqn:Hdel.
  assert (o = Done tt) as -> by (inversion Hdel; reflexivity).
  intros H. apply (insert_rows_Done c name' rows) in H; [|exact Hdf].
  rewrite H. rewrite drop_0.
  replace w1' with (delete_many name' w1).2 by (rewrite Hdel; reflexivity).
  rewrite collection_delete_many. reflexivity.
Qed.

Lemma upload_ignores_reduced_example :
  upload_to_DB (Some "mongodb://sia") run_all_enabled.1 "Fe_old" true
    busy_world =
  upload_to_DB (Some "mongodb://sia") run_all_enabled.1 "Fe_old" false
    busy_world /\
  forall reduced name' w1 w2,
    resolve_collection "Fe_old" busy_world = (Done (true, name'), w1) ->
    upload_to_DB (Some "mongodb://sia") run_all_enabled.1 "Fe_old" reduced
      busy_world = (Done tt, w2) ->
    collection w2 name' =
      to_document <$>
        take (no_of_simulations run_all_enabled.1)
             (default [] (df run_all_enabled.1)).
Proof.
  apply (upload_ignores_reduced "mongodb://sia" "Fe_old" run_all_enabled.1
           busy_world (default [] (df run_all_enabled.1))
           (default [] (reduced_df run_all_enabled.1))).
  - reflexivity.
  - reflexivity.
Defined.

(** * float64 division: what the fill of a gap needs of it *)

Lemma Qfloor_unique (q : Q) (n : Z) :
  (inject_Z n <= q)%Q -> (q < inject_Z (n + 1))%Q -> Qfloor q = n.
Proof.
  intros Hle Hlt.
  assert (H1 : (n <= Qfloor q)%Z).
  { rewrite <- (Qfloor_Z n). apply Qfloor_resp_le. exact Hle. }
  assert (H2 : (Qfloor q < n + 1)%Z).
  { rewrite Zlt_Qlt. eapply Qle_lt_trans; [apply Qfloor_le|exact Hlt]. }
  lia.
Qed.

(** [rint] is the floor or the next integer. *)
Lemma rint_floor (q : Q) :
  rint q = Qfloor q \/
  (rint q = (Qfloor q + 1)%Z /\ (1 # 2 <= q - inject_Z (Qfloor q))%Q).
Proof.
  unfold rint.
  destruct (q - inject_Z (Qfloor q) ?= 1 # 2)%Q eqn:Hc.
  - apply Qeq_alt in Hc. destruct (Z.even (Qfloor q)); [left; reflexivity|].
    right. split; [reflexivity|]. rewrite Hc. apply Qle_refl.
  - left. reflexivity.
  - apply Qgt_alt in Hc. right. split; [reflexivity|]. apply Qlt_le_weak.
    exact Hc.
Qed.

Lemma rint_lower (q : Q) (k : Z) : (inject_Z k <= q)%Q -> (k <= rint q)%Z.
Proof.
  intros H.
  assert (Hf : (k <= Qfloor q)%Z).
  { rewrite <- (Qfloor_Z k). apply Qfloor_resp_le. exact H. }
  destruct (rint_floor q) as [->|[-> _]]; lia.
Qed.

Lemma rint_at_most (q : Q) (k : Z) : (q <= inject_Z k)%Q -> (rint q <= k)%Z.
Proof.
  intros H.
  assert (Hf : (Qfloor q <= k)%Z).
  { rewrite <- (Qfloor_Z k). apply Qfloor_resp_le. exact H. }
  destruct (rint_floor q) as [->|[-> Hhalf]]; [exact Hf|].
  destruct (Z.eq_dec (Qfloor q) k) as [E|]; [|lia].
  rewrite E in Hhalf. lra.
Qed.

Lemma rint_mono (a b : Q) : (a <= b)%Q -> (rint a <= rint b)%Z.
Proof.
  intros H.
  pose proof (Qfloor_resp_le _ _ H) as Hf.
  pose proof (Qfloor_le a) as Ha. pose proof (Qfloor_le b) as Hb.
  destruct (Z.eq_dec (Qfloor a) (Qfloor b)) as [E|Hne].
  - unfold rint. rewrite E.
    destruct (a - inject_Z (Qfloor b) ?= 1 # 2)%Q eqn:Hca;
      destruct (b - inject_Z (Qfloor b) ?= 1 # 2)%Q eqn:Hcb;
      try (destruct (Z.even (Qfloor b))); try lia; exfalso;
      repeat match goal with
      | H : (_ ?= _)%Q = Eq |- _ => apply Qeq_alt in H
      | H : (_ ?= _)%Q = Lt |- _ => apply Qlt_alt in H
      | H : (_ ?= _)%Q = Gt |- _ => apply Qgt_alt in H
      end; lra.
  - assert (Hlt : (Qfloor a + 1 <= Qfloor b)%Z) by lia.
    destruct (rint_floor a) as [->|[-> _]];
      destruct (rint_floor b) as [->|[-> _]]; lia.
Qed.

Lemma Qmake_as_div (n : Z) (d : positive) :
  (n # d == inject_Z n / inject_Z (Z.pos d))%Q.
Proof. apply Qmake_Qdiv. Qed.

Lemma two_power_pos (e : Z) : (0 < 2 ^ e)%Q.
Proof. apply Qpower_0_lt. reflexivity. Qed.

Lemma two_power_succ (e : Z) : (2 ^ (e + 1) == 2 * 2 ^ e)%Q.
Proof. rewrite Qpower_plus by discriminate. ring. Qed.

Lemma two_power_pred (e : Z) : (2 * 2 ^ (e - 1) == 2 ^ e)%Q.
Proof.
  rewrite <- two_power_succ. replace (e - 1 + 1)%Z with e by lia. reflexivity.
Qed.

(** A positive integer between two powers of 2. *)
Lemma log2_bounds (n : Z) :
  (0 < n)%Z ->
  (2 ^ Z.log2 n <= inject_Z n)%Q /\ (inject_Z n < 2 * 2 ^ Z.log2 n)%Q.
Proof.
  intros Hn. pose proof (Z.log2_spec n Hn) as [H1 H2].
  pose proof (Z.log2_nonneg n) as H0.
  change 2%Q with (inject_Z 2) at 1 3.
  rewrite <- Zpower_Qpower by exact H0.
  split.
  - rewrite <- Zle_Qle. exact H1.
  - change 2%Q with (inject_Z 2). rewrite <- inject_Z_mult, <- Zlt_Qlt.
    rewrite Z.pow_succ_r in H2 by exact H0. exact H2.
Qed.

Lemma ilog2_spec (q : Q) :
  (0 < q)%Q -> (2 ^ ilog2 q <= q)%Q /\ (q < 2 ^ (ilog2 q + 1))%Q.
Proof.
  intros Hq. destruct q as [n d]. unfold ilog2. cbn [Qnum Qden].
  assert (Hn : (0 < n)%Z).
  { unfold Qlt in Hq. simpl in Hq. lia. }
  destruct (log2_bounds n Hn) as [Hn1 Hn2].
  destruct (log2_bounds (Z.pos d) ltac:(lia)) as [Hd1 Hd2].
  set (a := Z.log2 n) in *. set (b := Z.log2 (Z.pos d)) in *.
  pose proof (two_power_pos a) as Ha. pose proof (two_power_pos b) as Hb.
  assert (He : (2 ^ (a - b) == 2 ^ a / 2 ^ b)%Q).
  { apply Qpower_minus. discriminate. }
  assert (Hd0 : (0 < inject_Z (Z.pos d))%Q) by reflexivity.
  rewrite (Qmake_as_div n d) in *.
  set (N := inject_Z n) in *. set (D := inject_Z (Z.pos d)) in *.
  set (A := (2 ^ a)%Q) in *. set (B := (2 ^ b)%Q) in *.
  destruct (Qle_bool (2 ^ (a - b)) (N / D)) eqn:Hc.
  - apply Qle_bool_iff in Hc. split; [exact Hc|].
    rewrite two_power_succ, He.
    apply Qlt_shift_div_r; [exact Hd0|].
    assert (E : (2 * (A / B) * D == (2 * A) * (D / B))%Q) by (field; lra).
    rewrite E.
    assert (H1 : (1 <= D / B)%Q) by (apply Qle_shift_div_l; lra).
    nra.
  - assert (Hlt : (N / D < 2 ^ (a - b))%Q).
    { apply Qnot_le_lt. intros H. apply Qle_bool_iff in H. congruence. }
    replace (a - b - 1 + 1)%Z with (a - b)%Z by lia.
    split; [|exact Hlt].
    apply Qle_shift_div_l; [exact Hd0|].
    assert (E2 : (2 ^ (a - b - 1) == (A / B) / 2)%Q).
    { rewrite <- He, <- (two_power_pred (a - b)). field. }
    rewrite E2.
    assert (E : (A / B / 2 * D == A * (D / (2 * B)))%Q) by (field; lra).
    rewrite E.
    assert (H1 : (D / (2 * B) <= 1)%Q) by (apply Qle_shift_div_r; lra).
    nra.
Qed.

(** A positive number is rounded within its binade. *)
Lemma round53_bounds (q : Q) :
  (0 < q)%Q ->
  (2 ^ ilog2 q <= round53 q)%Q /\ (round53 q <= 2 ^ (ilog2 q + 1))%Q.
Proof.
  intros Hq. destruct (ilog2_spec q Hq) as [H1 H2].
  unfold round53. set (e := ilog2 q) in *.
  pose proof (two_power_pos (e - 52)) as Hu.
  assert (He : (2 ^ e == inject_Z (2 ^ 52) * 2 ^ (e - 52))%Q).
  { replace e with (52 + (e - 52))%Z at 1 by lia.
    rewrite Qpower_plus by discriminate. reflexivity. }
  assert (He1 : (2 ^ (e + 1) == inject_Z (2 ^ 53) * 2 ^ (e - 52))%Q).
  { replace (e + 1)%Z with (53 + (e - 52))%Z by lia.
    rewrite Qpower_plus by discriminate. reflexivity. }
  set (u := (2 ^ (e - 52))%Q) in *.
  assert (Hlo : (2 ^ 52 <= rint (q / u))%Z).
  { apply rint_lower. apply Qle_shift_div_l; [exact Hu|].
    rewrite <- He. exact H1. }
  assert (Hhi : (rint (q / u) <= 2 ^ 53)%Z).
  { apply rint_at_most. apply Qle_shift_div_r; [exact Hu|].
    rewrite <- He1. apply Qlt_le_weak. exact H2. }
  rewrite He, He1. rewrite Zle_Qle in Hlo, Hhi.
  split; apply Qmult_le_compat_r; try assumption; lra.
Qed.

Lemma round53_mono (a b : Q) :
  (0 < a)%Q -> (a <= b)%Q -> (round53 a <= round53 b)%Q.
Proof.
  intros Ha Hab.
  assert (Hb : (0 < b)%Q) by lra.
  destruct (ilog2_spec a Ha) as [Ha1 Ha2].
  destruct (ilog2_spec b Hb) as [Hb1 Hb2].
  assert (He : (ilog2 a < ilog2 b + 1)%Z).
  { apply (Qpower_lt_compat_l_inv 2); [lra|reflexivity]. }
  destruct (Z.eq_dec (ilog2 a) (ilog2 b)) as [E|Hne].
  - unfold round53. rewrite E.
    pose proof (two_power_pos (ilog2 b - 52)) as Hu.
    apply Qmult_le_compat_r; [|lra].
    rewrite <- Zle_Qle. apply rint_mono.
    apply Qmult_le_compat_r; [exact Hab|].
    apply Qlt_le_weak, Qinv_lt_0_compat. exact Hu.
  - destruct (round53_bounds a Ha) as [_ Hra].
    destruct (round53_bounds b Hb) as [Hrb _].
    assert (Hp : (2 ^ (ilog2 a + 1) <= 2 ^ ilog2 b)%Q).
    { apply Qpower_le_compat_l; [lia|discriminate]. }
    lra.
Qed.

Lemma float64_pos (q : Q) : (0 < q)%Q -> float64 q = round53 q.
Proof.
  intros Hq. unfold float64. apply Qgt_alt in Hq. rewrite Hq. reflexivity.
Qed.

(** On float64, a number over a smaller positive one is at least 1: the
    integer part of the quotient is not 0. *)
Lemma float_div_at_least_one (a b : Q) :
  (0 < b)%Q -> (b < a)%Q -> (1 <= float_div a b)%Q.
Proof.
  intros Hb Hab. unfold float_div.
  assert (Ha : (0 < a)%Q) by lra.
  rewrite (float64_pos a Ha), (float64_pos b Hb).
  pose proof (round53_mono b a Hb (Qlt_le_weak _ _ Hab)) as Hm.
  destruct (round53_bounds b Hb) as [Hb1 _].
  pose proof (two_power_pos (ilog2 b)) as Hp.
  assert (Hq : (1 <= round53 a / round53 b)%Q).
  { apply Qle_shift_div_l; lra. }
  rewrite float64_pos by lra.
  assert (H1 : (round53 1 == 1)%Q) by reflexivity.
  rewrite <- H1 at 1. apply round53_mono; [reflexivity|exact Hq].
Qed.

Lemma py_int_at_least_one (q : Q) : (1 <= q)%Q -> (1 <= py_int q)%Z.
Proof.
  unfold py_int, Qle. destruct q as [n d]. simpl. intros H.
  rewrite Z.quot_div_nonneg by lia.
  apply Z.div_le_lower_bound; lia.
Qed.

(** ** The text parser's grid regularisation *)

Lemma Qlt_bool_iff (a b : Q) : Qlt_bool a b = true <-> (a < b)%Q.
Proof.
  unfold Qlt_bool. rewrite negb_true_iff. split.
  - intros H. apply Qnot_le_lt. intros Hle.
    apply Qle_bool_iff in Hle. congruence.
  - intros H. destruct (Qle_bool b a) eqn:Hle; [|reflexivity].
    apply Qle_bool_iff in Hle. exfalso. lra.
Qed.

Lemma Qmin_cases (a b : Q) : Qmin a b = a \/ Qmin a b = b.
Proof.
  unfold Qmin, GenericMinMax.gmin. destruct (a ?= b)%Q; auto.
Qed.

(** The fold of [np.min] returns a member that is below every member. *)
Lemma fold_Qmin_spec (l : list Q) (v : Q) :
  In (fold_left Qmin l v) (v :: l) /\
  forall d, In d (v :: l) -> (fold_left Qmin l v <= d)%Q.
Proof.
  revert v. induction l as [|a l IH]; intros v; simpl.
  - split; [auto|]. intros d [<-|[]]. apply Qle_refl.
  - destruct (IH (Qmin v a)) as [Hin Hle]. split.
    + destruct Hin as [Hin|Hin]; [|auto].
      rewrite <- Hin. destruct (Qmin_cases v a) as [-> | ->]; auto.
    + intros d [<-|[<-|Hd]].
      * eapply Qle_trans; [apply Hle; left; reflexivity|apply Q.le_min_l].
      * eapply Qle_trans; [apply Hle; left; reflexivity|apply Q.le_min_r].
      * apply Hle. right. exact Hd.
Qed.

Lemma np_min_Done (l : list Q) (m : Q) :
  np_min l = Done m ->
  In m l /\ forall d, In d l -> (m <= d)%Q.
Proof.
  destruct l as [|v l]; simpl; [discriminate|].
  intros H. injection H as <-. apply fold_Qmin_spec.
Qed.

(** The step is the least non-zero difference, rounded to two decimals. *)
Lemma canonical_step_Done (x : list Q) (s : Q) :
  canonical_step x = Done s ->
  exists m,
    m ∈ abs_diffs x /\ ~ (m == 0)%Q /\
    (forall d, d ∈ abs_diffs x -> ~ (d == 0)%Q -> (m <= d)%Q) /\
    s = np_around m 2.
Proof.
  unfold canonical_step. intros H.
  apply bind_Done in H as (m & Hmin & H). injection H as <-.
  apply np_min_Done in Hmin as [Hin Hle].
  unfold nonzero in Hin, Hle.
  apply filter_In in Hin as [Hin Hnz].
  exists m. split; [apply list_elem_of_In; exact Hin|]. split.
  { intros Hz. apply Qeq_bool_iff in Hz. rewrite Hz in Hnz. discriminate. }
  split; [|reflexivity].
  intros d Hd Hdz. apply Hle. apply filter_In. split.
  - apply list_elem_of_In. exact Hd.
  - destruct (Qeq_bool d 0) eqn:Hq; [|reflexivity].
    apply Qeq_bool_iff in Hq. contradiction.
Qed.


Lemma row_item_nat (l : list Q) (i : nat) (v : Q) :
  l !! i = Some v -> row_item (Z.of_nat i) l = Done v.
Proof.
  intros H. unfold row_item.
  rewrite norm_index_nat by (eapply lookup_lt_Some; exact H).
  rewrite H. reflexivity.
Qed.

Lemma row_item_last (l : list Q) (v : Q) :
  l !! (length l - 1) = Some v -> row_item (-1) l = Done v.
Proof.
  intros H. pose proof (lookup_lt_Some _ _ _ H) as Hlt.
  unfold row_item. change (-1)%Z with (- Z.of_nat 1)%Z.
  rewrite norm_index_neg by lia. rewrite H. reflexivity.
Qed.

(** With a positive step below the gap, the integer part of the float64
    quotient is not 0. *)
Lemma py_int_quotient (gap step : Q) :
  (0 < step)%Q -> (step < gap)%Q -> py_int (float_div gap step) <> 0%Z.
Proof.
  intros Hs Hg.
  pose proof (py_int_at_least_one _ (float_div_at_least_one _ _ Hs Hg)). lia.
Qed.

Lemma fill_gap_Done (x y : list Q) (step : Q) (i : nat) (m : Z)
  (xi yi yi1 : Q) (js : list nat) (new_x new_y : list Q) :
  x !! i = Some xi -> y !! i = Some yi -> y !! (i + 1) = Some yi1 ->
  m <> 0%Z ->
  fill_gap x y step i m js new_x new_y =
  Done (new_x ++ map (fun j : nat => (xi + inject_Z (Z.of_nat j) * step)%Q) js,
        new_y ++ map (fun j : nat =>
                        let k := (inject_Z (Z.of_nat j) / inject_Z m)%Q in
                        (yi * (1 - k) + yi1 * k)%Q) js).
Proof.
  intros Hx Hy Hy1 Hm. revert new_x new_y.
  induction js as [|j js IH]; intros new_x new_y; simpl.
  - rewrite !app_nil_r. reflexivity.
  - rewrite (row_item_nat _ _ _ Hx). step_bind.
    destruct (decide (m = 0%Z)) as [|_]; [contradiction|].
    rewrite (row_item_nat _ _ _ Hy). step_bind.
    rewrite (row_item_nat _ _ _ Hy1). step_bind.
    rewrite IH. rewrite <- !app_assoc. reflexivity.
Qed.

Lemma fmap_map {A B C : Type} (g : B -> C) (f : A -> B) (l : list A) :
  g <$> map f l = map (fun a => g (f a)) l.
Proof.
  induction l as [|a l IH]; simpl; [reflexivity|].
  rewrite <- IH. reflexivity.
Qed.

(** One pass of the loop appends the points that stand for sample [i]. *)
Lemma interpolate_at_Done (x y : list Q) (step : Q) (i : nat)
  (xi yi xi1 yi1 : Q) (new_x new_y : list Q) :
  (0 < step)%Q ->
  x !! i = Some xi -> y !! i = Some yi ->
  x !! (i + 1) = Some xi1 -> y !! (i + 1) = Some yi1 ->
  interpolate_at x y step i new_x new_y =
  Done (new_x ++ (points_between step (xi, yi) (xi1, yi1)).*1,
        new_y ++ (points_between step (xi, yi) (xi1, yi1)).*2).
Proof.
  intros Hs Hx Hy Hx1 Hy1. unfold interpolate_at, points_between.
  rewrite (row_item_nat _ _ _ Hx1). step_bind.
  rewrite (row_item_nat _ _ _ Hx). step_bind. simpl fst. simpl snd.
  set (gap := Qabs (np_around (xi1 - xi) 2)).
  destruct (Qlt_bool step gap) eqn:Hg; simpl andb.
  - destruct (Qlt_bool gap 10) eqn:H10.
    + destruct (Qeq_bool step 0) eqn:Hz.
      { apply Qeq_bool_iff in Hz. lra. }
      apply Qlt_bool_iff in Hg.
      rewrite (fill_gap_Done x y step i _ xi yi yi1); try assumption.
      2:{ apply py_int_quotient; assumption. }
      rewrite !fmap_map. reflexivity.
    + rewrite (row_item_nat _ _ _ Hy). step_bind. reflexivity.
  - rewrite (row_item_nat _ _ _ Hy). step_bind. reflexivity.
Qed.

(** The loop over the samples [a], ..., [a + k - 1], the last of the array
    being sample [a + k]: it appends the regular grid of the samples from
    [a] on, short of the last. *)
Lemma interpolate_loop_Done (x y : list Q) (step : Q) (k a : nat)
  (new_x new_y : list Q) :
  (0 < step)%Q ->
  length x = length y ->
  a + k + 1 = length x ->
  exists pts last,
    regular_grid step (drop a (zip x y)) = pts ++ [last] /\
    zip x y !! (a + k) = Some last /\
    interpolate_loop x y step (seq a k) new_x new_y =
      Done (new_x ++ pts.*1, new_y ++ pts.*2).
Proof.
  intros Hs Hlen. revert a new_x new_y.
  assert (Hzl : length (zip x y) = length x).
  { rewrite length_zip_with. lia. }
  induction k as [|k IH]; intros a new_x new_y Ha.
  - destruct (lookup_lt_is_Some_2 (zip x y) a) as [p Hp]; [lia|].
    exists [], p. rewrite Nat.add_0_r. split; [|split; [exact Hp|]].
    + rewrite (drop_S _ _ _ Hp). rewrite drop_ge by lia. reflexivity.
    + simpl. rewrite !app_nil_r. reflexivity.
  - destruct (lookup_lt_is_Some_2 (zip x y) a) as [[xi yi] Hp]; [lia|].
    destruct (lookup_lt_is_Some_2 (zip x y) (S a)) as [[xi1 yi1] Hp1]; [lia|].
    destruct (IH (S a) (new_x ++ (points_between step (xi, yi) (xi1, yi1)).*1)
                 (new_y ++ (points_between step (xi, yi) (xi1, yi1)).*2))
      as (pts & last & Hgrid & Hlast & Hloop); [lia|].
    exists (points_between step (xi, yi) (xi1, yi1) ++ pts), last.
    split; [|split].
    + rewrite (drop_S _ _ _ Hp). simpl.
      rewrite (drop_S _ _ _ Hp1) in Hgrid |- *.
      rewrite Hgrid. rewrite app_assoc. reflexivity.
    + rewrite <- Hlast. f_equal. lia.
    + apply lookup_zip_with_Some in Hp as (? & ? & Heq & Hx & Hy).
      injection Heq as <- <-.
      apply lookup_zip_with_Some in Hp1 as (? & ? & Heq & Hx1 & Hy1).
      injection Heq as <- <-.
      replace (S a) with (a + 1) in Hx1, Hy1 by lia.
      cbn [seq interpolate_loop].
      rewrite (interpolate_at_Done x y step a xi yi xi1 yi1); try assumption.
      step_bind. rewrite Hloop. rewrite !fmap_app, !app_assoc. reflexivity.
Qed.

(** With a positive step, [_interpolate] returns the regular grid of the
    samples. *)
Lemma interpolate_regular_grid (x y : list Q) (step : Q) :
  (0 < step)%Q ->
  length x = length y ->
  x <> [] ->
  _interpolate x y step =
  Done ((regular_grid step (zip x y)).*1, (regular_grid step (zip x y)).*2).
Proof.
  intros Hs Hlen Hx.
  assert (Hpos : 0 < length x) by (destruct x; [congruence|simpl; lia]).
  destruct (interpolate_loop_Done x y step (length x - 1) 0 [] [] Hs Hlen)
    as (pts & [xl yl] & Hgrid & Hlast & Hloop); [lia|].
  rewrite drop_0 in Hgrid. simpl in Hlast.
  apply lookup_zip_with_Some in Hlast as (? & ? & Heq & Hxl & Hyl).
  injection Heq as <- <-.
  unfold _interpolate. rewrite Hloop. step_bind. simpl app.
  rewrite (row_item_last _ _ Hxl). step_bind.
  rewrite Hlen in Hyl. rewrite (row_item_last _ _ Hyl). step_bind.
  rewrite Hgrid, !fmap_app. reflexivity.
Qed.


(** The regular grid is the points of every pair of neighbours, then the
    last sample. *)
Lemma regular_grid_segments (step : Q) (samples : list (Q * Q))
  (last : Q * Q) :
  samples !! (length samples - 1) = Some last ->
  regular_grid step samples =
  concat (zip_with (points_between step) samples (drop 1 samples)) ++ [last].
Proof.
  induction samples as [|p rest IH]; [discriminate|].
  destruct rest as [|p1 rest'].
  - simpl. intros H. injection H as <-. reflexivity.
  - intros H.
    change (regular_grid step (p :: p1 :: rest'))
      with (points_between step p p1 ++ regular_grid step (p1 :: rest')).
    rewrite IH.
    + simpl. rewrite drop_0, app_assoc. reflexivity.
    + simpl in H |- *. rewrite Nat.sub_0_r. exact H.
Qed.





(** * Further properties of the sampler and of [run] *)

(** ** The loop body does not read the row it assigns *)

Lemma row_set_weights_single_closed (G : RandomGen) (fuel k : nat)
  (row : list Q) (st : rng_state G) :
  length row = k + 3 ->
  row_set_weights G fuel k true row st =
  match choice G (seq 0 k) st with
  | None => Raise ValueError
  | Some (q, st') =>
      if decide (q < k + 3) then Done (one_hot (k + 3) q, st')
      else Raise IndexError
  end.
Proof.
  intros Hlen.
  destruct (row_set_weights G fuel k true row st) as [[r1 st1]| |] eqn:E.
  - apply row_set_weights_single in E as (q & -> & Hq & ->); [|exact Hlen].
    destruct (decide (q < k + 3)); [reflexivity|contradiction].
  - revert E. unfold row_set_weights.
    destruct (choice G (seq 0 k) st) as [[q st']|]; [|intros E; exact (eq_sym E)].
    destruct (decide (q < k + 3)) as [Hq|Hq].
    + rewrite row_set_item_nat by lia. step_bind.
      unfold row_fill_slice. step_bind. discriminate.
    + unfold row_set_item, norm_index.
      destruct (decide _) as [H|_]; [lia|].
      destruct (decide _) as [H|_]; [lia|].
      step_bind. intros E. exact (eq_sym E).
  - revert E. unfold row_set_weights.
    destruct (choice G (seq 0 k) st) as [[q st']|]; [|discriminate].
    unfold row_set_item.
    destruct (norm_index (length row) (Z.of_nat q)); step_bind;
      [|discriminate].
    unfold row_fill_slice. step_bind. discriminate.
Qed.

Lemma row_set_weights_combination_closed (G : RandomGen) (fuel k : nat)
  (row : list Q) (st : rng_state G) :
  length row = k + 3 ->
  row_set_weights G fuel k false row st =
  '(lp, st') ← sample_weights G fuel k st; Done (lp ++ drop k row, st').
Proof.
  intros Hlen. unfold row_set_weights.
  destruct (sample_weights G fuel k st) as [[lp st1]| |] eqn:Hs;
    step_bind; try reflexivity.
  pose proof (sample_weights_length _ _ _ _ _ _ Hs) as Hlp.
  unfold row_set_slice.
  rewrite Nat.min_l by lia. rewrite Nat.min_l by lia.
  destruct (decide (length lp = k - 0)) as [_|Hn]; [|lia].
  step_bind. reflexivity.
Qed.

(** The end of the loop body from a row of [k + 3] entries on. *)
Lemma set_distortions_closed (G : RandomGen) (k : nat) (r1 : list Q)
  (st1 : rng_state G) :
  length r1 = k + 3 ->
  (let '(fwhm, st2) := randint G 145 722 st1 in
   r2 ← row_set_item (-3) (inject_Z fwhm) r1;
   let '(shift, st3) := randint G (-8) 9 st2 in
   r3 ← row_set_item (-2) (inject_Z shift) r2;
   let '(snr, st4) := randint G 15 200 st3 in
   r4 ← row_set_item (-1) (inject_Z snr) r3;
   Done (r4, st4)) =
  Done (take k r1 ++
          [inject_Z (randint G 145 722 st1).1;
           inject_Z (randint G (-8) 9 (randint G 145 722 st1).2).1;
           inject_Z (randint G 15 200
                       (randint G (-8) 9 (randint G 145 722 st1).2).2).1],
        (randint G 15 200 (randint G (-8) 9 (randint G 145 722 st1).2).2).2).
Proof.
  intros Hl1.
  destruct (randint G 145 722 st1) as [f st2]. simpl.
  destruct (randint G (-8) 9 st2) as [s st3]. simpl.
  destruct (randint G 15 200 st3) as [n st4]. simpl.
  change (-3)%Z with (- Z.of_nat 3)%Z.
  change (-2)%Z with (- Z.of_nat 2)%Z.
  change (-1)%Z with (- Z.of_nat 1)%Z.
  rewrite row_set_item_neg by lia. step_bind.
  rewrite row_set_item_neg by (rewrite length_insert; lia). step_bind.
  rewrite row_set_item_neg by (rewrite !length_insert; lia). step_bind.
  rewrite !length_insert, Hl1.
  replace (k + 3 - 3) with k by lia.
  replace (k + 3 - 2) with (k + 1) by lia.
  replace (k + 3 - 1) with (k + 2) by lia.
  rewrite set_distortions by exact Hl1. reflexivity.
Qed.

(** The loop body, whatever the row held in its distortion columns. *)
Lemma row_step_closed (G : RandomGen) (fuel k : nat) (single : bool)
  (row : list Q) (st : rng_state G) :
  length row = k + 3 ->
  row_step G fuel k single row st =
  '(r1, st1) ← row_set_weights G fuel k single row st;
  Done (take k r1 ++
          [inject_Z (randint G 145 722 st1).1;
           inject_Z (randint G (-8) 9 (randint G 145 722 st1).2).1;
           inject_Z (randint G 15 200
                       (randint G (-8) 9 (randint G 145 722 st1).2).2).1],
        (randint G 15 200 (randint G (-8) 9 (randint G 145 722 st1).2).2).2).
Proof.
  intros Hlen. unfold row_step.
  destruct (row_set_weights G fuel k single row st) as [[r1 st1]| |] eqn:Hw;
    step_bind; try reflexivity.
  apply set_distortions_closed.
  eapply row_set_weights_length; eassumption.
Qed.

Lemma row_step_independent (G : RandomGen) (fuel k : nat) (single : bool)
  (row1 row2 : list Q) (st : rng_state G) :
  length row1 = k + 3 -> length row2 = k + 3 ->
  row_step G fuel k single row1 st = row_step G fuel k single row2 st.
Proof.
  intros H1 H2. rewrite !row_step_closed by assumption. destruct single.
  - rewrite !row_set_weights_single_closed by assumption. reflexivity.
  - rewrite !row_set_weights_combination_closed by assumption.
    destruct (sample_weights G fuel k st) as [[lp st1]| |] eqn:Hs;
      step_bind; try reflexivity.
    pose proof (sample_weights_length _ _ _ _ _ _ Hs) as Hlp.
    rewrite !take_app_length' by (symmetry; exact Hlp). reflexivity.
Qed.

Lemma create_rows_independent (G : RandomGen) (fuel k : nat) (single : bool)
  (n a : nat) (m1 m2 : matrix) (st : rng_state G) :
  length m1 = a + n -> length m2 = a + n ->
  Forall (fun row => length row = k + 3) m1 ->
  Forall (fun row => length row = k + 3) m2 ->
  (forall i, i < a -> m1 !! i = m2 !! i) ->
  create_rows G fuel k single (seq a n) m1 st =
  create_rows G fuel k single (seq a n) m2 st.
Proof.
  revert a m1 m2 st. induction n as [|n IH];
    intros a m1 m2 st Hl1 Hl2 Hs1 Hs2 Hlow.
  - simpl. f_equal. f_equal. apply list_eq. intros i.
    destruct (decide (i < a)) as [Hi|Hi]; [apply Hlow; exact Hi|].
    rewrite !lookup_ge_None_2 by lia. reflexivity.
  - cbn [seq create_rows].
    destruct (lookup_lt_is_Some_2 m1 a) as [r1 Hr1]; [lia|].
    destruct (lookup_lt_is_Some_2 m2 a) as [r2 Hr2]; [lia|].
    rewrite (create_row_on_row _ _ _ _ _ _ _ _ Hr1).
    rewrite (create_row_on_row _ _ _ _ _ _ _ _ Hr2).
    assert (Hlen1 : length r1 = k + 3).
    { rewrite Forall_forall in Hs1. apply Hs1.
      eapply list_elem_of_lookup_2. exact Hr1. }
    assert (Hlen2 : length r2 = k + 3).
    { rewrite Forall_forall in Hs2. apply Hs2.
      eapply list_elem_of_lookup_2. exact Hr2. }
    rewrite (row_step_independent G fuel k single r1 r2 st Hlen1 Hlen2).
    destruct (row_step G fuel k single r2 st) as [[row' st']| |] eqn:Hstep;
      step_bind; try reflexivity.
    pose proof (row_step_length _ _ _ _ _ _ _ _ Hlen2 Hstep) as Hlen'.
    apply IH.
    + rewrite length_insert. lia.
    + rewrite length_insert. lia.
    + apply Forall_insert; assumption.
    + apply Forall_insert; assumption.
    + intros i Hi. destruct (decide (i = a)) as [->|Hne].
      * rewrite !list_lookup_insert_eq by lia. reflexivity.
      * rewrite !list_lookup_insert_ne by lia. apply Hlow. lia.
Qed.

(** X1: [create_matrix] overwrites every entry: what it returns does not
    depend on what the matrix held before, only on its shape. *)
Theorem create_matrix_forgets_matrix (G : RandomGen) (fuel : nat)
  (c : Creator) (m : matrix) (single : bool) (st : rng_state G) :
  well_shaped c ->
  matrix_shape (no_of_simulations c) (no_of_linear_params c) m ->
  create_matrix G fuel (with_matrix c m) single st =
  create_matrix G fuel c single st.
Proof.
  intros [Hn Hs] [Hn' Hs']. unfold create_matrix. simpl.
  rewrite (create_rows_independent G fuel (no_of_linear_params c) single
             (no_of_simulations c) 0 m (augmentation_matrix c) st);
    try assumption; try (simpl; lia).
  destruct (create_rows _ _ _ _ _ _ _) as [[m' st']| |]; reflexivity.
Qed.

(** X2: in single mode with no reference spectrum and a row to fill,
    [create_matrix] raises the ValueError of [np.random.choice] on an empty
    list. *)
Theorem single_mode_without_references (G : RandomGen) (fuel : nat)
  (c : Creator) (st : rng_state G) :
  choice_from_list G ->
  no_of_linear_params c = 0 ->
  1 <= no_of_simulations c ->
  create_matrix G fuel c true st = Raise ValueError.
Proof.
  intros Hchoice Hk Hn. unfold create_matrix. rewrite Hk.
  destruct (no_of_simulations c) as [|n]; [lia|].
  cbn [seq create_rows]. unfold create_row, set_weights. simpl seq.
  destruct (choice G [] st) as [[q st']|] eqn:Hq; [|reflexivity].
  apply Hchoice in Hq. apply not_elem_of_nil in Hq. contradiction.
Qed.

(** X3: the object [__init__] returns: a matrix of [no_of_simulations] rows
    and as many columns as reference spectra plus three, and no data frame
    yet. *)
Theorem Creator_init_shape (G : RandomGen) (fuel n : nat)
  (spectra : list MeasuredSpectrum) (single : bool) (st st' : rng_state G)
  (c : Creator) :
  Creator_init G fuel n spectra single st = Done (c, st') ->
  no_of_simulations c = n /\
  no_of_linear_params c = length spectra /\
  input_spectra c = spectra /\
  length (augmentation_matrix c) = n /\
  Forall (fun row => length row = length spectra + 3) (augmentation_matrix c) /\
  df c = None /\ reduced_df c = None.
Proof.
  unfold Creator_init. intros H.
  pose proof (create_matrix_rows _ _ _ _ _ _ _
                (blank_creator_well_shaped n spectra) H)
    as (Hn & Hk & [Hl Hs] & _).
  simpl in Hn, Hk. rewrite Hn in Hl. rewrite Hk in Hs.
  unfold create_matrix in H.
  apply bind_Done in H as ([m st1] & _ & H). injection H as <- <-.
  simpl in *. repeat split; try reflexivity; assumption.
Qed.

(** ** [run] on its own results *)

Lemma run_fields (G : RandomGen) (S : SimulationClass G) (c c' : Creator)
  (broaden x_shift noise : bool) (st st' : rng_state G) :
  run G S c broaden x_shift noise st = Done (c', st') ->
  no_of_simulations c' = no_of_simulations c /\
  no_of_linear_params c' = no_of_linear_params c /\
  input_spectra c' = input_spectra c.
Proof.
  unfold run. intros H.
  apply bind_Done in H as (m & _ & H).
  apply bind_Done in H as ([recs st1] & _ & H).
  destruct recs as [|d recs]; [discriminate|].
  injection H as <- <-. simpl. auto.
Qed.

(** X5: a run of no simulation does not return an empty data set: it ends
    in the KeyError of selecting the columns x, y and label from a frame
    that has none. *)
Theorem run_without_simulations (G : RandomGen) (S : SimulationClass G)
  (c : Creator) (broaden x_shift noise : bool) (st : rng_state G) :
  well_shaped c ->
  no_of_simulations c = 0 ->
  run G S c broaden x_shift noise st = Raise KeyError.
Proof.
  intros [Hlen _] Hn. rewrite Hn in Hlen.
  apply length_zero_iff_nil in Hlen.
  unfold run. rewrite Hlen, Hn.
  destruct broaden, x_shift, noise; reflexivity.
Qed.

(** X6: [run] overwrites the matrix of the creator it is given, so the
    switches add up over runs: in the matrix after a second run, started
    from the creator the first one left, the column of every distortion
    that the first run disabled is still 0 in every row, also when the
    second run enables it. *)
Theorem disabled_distortion_stays_disabled (G : RandomGen)
  (S : SimulationClass G) (c c1 c2 : Creator)
  (broaden x_shift noise broaden' x_shift' noise' : bool)
  (st st1 st' st2 : rng_state G) :
  well_shaped c ->
  run G S c broaden x_shift noise st = Done (c1, st1) ->
  run G S c1 broaden' x_shift' noise' st' = Done (c2, st2) ->
  forall row, row ∈ augmentation_matrix c2 ->
    let k := no_of_linear_params c in
    (broaden = false -> row !! k = Some 0%Q) /\
    (x_shift = false -> row !! (k + 1) = Some 0%Q) /\
    (noise = false -> row !! (k + 2) = Some 0%Q).
Proof.
  intros [_ Hshape] H1 H2 row Hin. cbv zeta.
  set (k := no_of_linear_params c) in *.
  apply run_Done in H1 as (m1 & _ & Hm1 & _ & Hc1 & _).
  apply run_Done in H2 as (m2 & _ & Hm2 & _ & Hc2 & _).
  rewrite (suppress_distortions_Done k _ _ _ _ Hshape) in Hm1.
  injection Hm1 as <-.
  assert (Hshape1 : Forall (fun row => length row = k + 3)
                      (augmentation_matrix c1)).
  { rewrite Hc1. apply Forall_map. eapply Forall_impl; [exact Hshape|].
    intros r Hr. simpl. rewrite !switch_column_length. exact Hr. }
  rewrite (suppress_distortions_Done k _ _ _ _ Hshape1) in Hm2.
  injection Hm2 as <-. rewrite Hc2 in Hin.
  apply list_elem_of_fmap in Hin as (row1 & -> & Hin1).
  assert (Hlen1 : length row1 = k + 3).
  { rewrite Forall_forall in Hshape1. apply Hshape1. exact Hin1. }
  rewrite Hc1 in Hin1.
  apply list_elem_of_fmap in Hin1 as (row0 & -> & Hin0).
  assert (Hlen0 : length row0 = k + 3).
  { rewrite Forall_forall in Hshape. apply Hshape. exact Hin0. }
  rewrite !(lookup_switches k broaden' x_shift' noise') by exact Hlen1.
  rewrite !(lookup_switches k broaden x_shift noise) by exact Hlen0.
  split; [|split]; intros ->.
  - destruct (decide _) as [_|_]; [reflexivity|].
    destruct (decide _) as [_|Hn]; [reflexivity|]. exfalso. apply Hn. auto.
  - destruct (decide _) as [_|_]; [reflexivity|].
    destruct (decide _) as [_|Hn]; [reflexivity|]. exfalso. apply Hn. auto.
  - destruct (decide _) as [_|_]; [reflexivity|].
    destruct (decide _) as [_|Hn]; [reflexivity|]. exfalso. apply Hn. auto.
Qed.

(** ** [plot_random] *)

Lemma draw_unseen_Done (G : RandomGen) (fuel n : nat) (seen : list Z)
  (r r' : Z) (st st' : rng_state G) :
  draw_unseen G fuel n seen r st = Done (r', st') ->
  (r' ∉ seen) /\
  (r' = r \/ exists s, r' = (randint G 0 (Z.of_nat n) s).1).
Proof.
  revert r st. induction fuel as [|fuel IH]; intros r st; simpl.
  - destruct (bool_decide (r ∈ seen)) eqn:Hin; [discriminate|].
    intros H. injection H as <- <-.
    apply bool_decide_eq_false in Hin. auto.
  - destruct (bool_decide (r ∈ seen)) eqn:Hin.
    + destruct (randint G 0 (Z.of_nat n) st) as [r1 st1] eqn:Hr.
      intros H. apply IH in H as [Hnot [->|[s ->]]].
      * split; [exact Hnot|]. right. exists st. rewrite Hr. reflexivity.
      * split; [exact Hnot|]. right. eauto.
    + intros H. injection H as <- <-.
      apply bool_decide_eq_false in Hin. auto.
Qed.

Lemma plot_loop_Done (G : RandomGen) (fuel : nat) (c : Creator) (todo : nat)
  (plots plots' : list (Z * Figure)) (st st' : rng_state G) :
  randint_in_range G ->
  todo <= no_of_simulations c ->
  plot_loop G fuel c todo plots st = Done (plots', st') ->
  exists new,
    plots' = plots ++ new /\
    length new = todo /\
    (NoDup (plots.*1) -> NoDup (plots'.*1)) /\
    forall r fig, (r, fig) ∈ new ->
      (0 <= r < Z.of_nat (no_of_simulations c))%Z /\
      exists row, df_iloc c r = Done row /\ fig = figure_of r row.
Proof.
  intros Hrand. revert plots st. induction todo as [|todo IH];
    intros plots st Hle; simpl.
  - intros H. injection H as <- <-. exists [].
    rewrite app_nil_r. split; [reflexivity|]. split; [reflexivity|].
    split; [auto|].
    intros r fig Hin. apply not_elem_of_nil in Hin. contradiction.
  - destruct (randint G 0 (Z.of_nat (no_of_simulations c)) st)
      as [r0 st0] eqn:Hr0.
    intros H. apply bind_Done in H as ([r st1] & Hdraw & H).
    apply bind_Done in H as (row & Hrow & H).
    apply draw_unseen_Done in Hdraw as [Hnew Hfrom].
    apply IH in H as (new & -> & Hlen & Hnodup & Hprop); [|lia].
    exists ([(r, figure_of r row)] ++ new).
    split; [symmetry; apply app_assoc|].
    split; [simpl; lia|]. split.
    + intros Hnd. apply Hnodup. rewrite fmap_app. simpl.
      apply NoDup_app. split; [exact Hnd|]. split.
      * intros z Hz Hz'. apply list_elem_of_singleton in Hz'. subst z.
        contradiction.
      * apply NoDup_singleton.
    + intros r' fig Hin. simpl in Hin.
      apply elem_of_cons in Hin as [Heq|Hin].
      * injection Heq as Hr' Hfig. subst r' fig. split; [|eauto].
        assert (Hpos : (0 < Z.of_nat (no_of_simulations c))%Z) by lia.
        destruct Hfrom as [->|[s ->]].
        -- pose proof (Hrand 0%Z _ st Hpos) as Hb. rewrite Hr0 in Hb.
           exact Hb.
        -- apply Hrand. exact Hpos.
      * apply Hprop. exact Hin.
Qed.

(** X7: when [plot_random] returns, it has made as many figures as asked
    for, or as there are simulations if that is fewer, each of a spectrum
    that the run simulated and no spectrum twice; the figure of number [r]
    is made from row [r] of the data frame. *)
Theorem plot_random_distinct (G : RandomGen) (fuel : nat) (c : Creator)
  (no_of_spectra : nat) (st st' : rng_state G)
  (plots : list (Z * Figure)) :
  randint_in_range G ->
  plot_random G fuel c no_of_spectra st = Done (plots, st') ->
  length plots = no_of_spectra `min` no_of_simulations c /\
  NoDup (plots.*1) /\
  forall r fig, (r, fig) ∈ plots ->
    (0 <= r < Z.of_nat (no_of_simulations c))%Z /\
    exists rows row,
      df c = Some rows /\ rows !! Z.to_nat r = Some row /\
      fig = figure_of r row.
Proof.
  intros Hrand. unfold plot_random. intros H.
  apply plot_loop_Done in H as (new & -> & Hlen & Hnodup & Hprop);
    [|exact Hrand|destruct (decide _); lia].
  simpl. split.
  { rewrite Hlen. destruct (decide _); lia. }
  split; [apply Hnodup; constructor|].
  intros r fig Hin. destruct (Hprop r fig Hin) as (Hr & row & Hrow & ->).
  split; [exact Hr|].
  unfold df_iloc in Hrow. destruct (df c) as [rows|]; [|discriminate].
  destruct (norm_index (length rows) r) as [i|] eqn:Hi; [|discriminate].
  destruct (rows !! i) as [row'|] eqn:Hrow'; [|discriminate].
  assert (row' = row) as -> by congruence.
  exists rows, row. split; [reflexivity|].
  split; [|reflexivity].
  unfold norm_index in Hi.
  destruct (decide (0 <= r < Z.of_nat (length rows))%Z) as [_|Hn].
  - injection Hi as <-. exact Hrow'.
  - destruct (decide (- Z.of_nat (length rows) <= r < 0)%Z) as [Hneg|_];
      [lia|discriminate].
Qed.

(** ** [to_file] with a file type of [filetypes] *)

Lemma string_length_app (a b : string) :
  String.length (a +:+ b) = String.length a + String.length b.
Proof.
  induction a as [|ch a IH]; simpl; [reflexivity|]. rewrite IH. reflexivity.
Qed.

Lemma string_app_inv_tail (a b s : string) : a +:+ s = b +:+ s -> a = b.
Proof.
  revert b. induction a as [|ch a IH]; intros [|ch' b] H.
  - reflexivity.
  - apply (f_equal String.length) in H.
    rewrite !string_length_app in H. simpl in H. lia.
  - apply (f_equal String.length) in H.
    rewrite !string_length_app in H. simpl in H. lia.
  - simpl in H. injection H as -> H. f_equal. apply IH. exact H.
Qed.

(** Two records are never written to one file. *)
Lemma record_file_inj (datafolder name ending : string) (i j : nat) :
  record_filename datafolder name i +:+ ending =
  record_filename datafolder name j +:+ ending ->
  i = j.
Proof.
  intros H. apply string_app_inv_tail in H. unfold record_filename in H.
  apply String.app_inj in H. apply String.app_inj in H.
  apply String.app_inj in H. apply pretty_nat_inj in H. exact H.
Qed.

Lemma save_known (df : content) (filename filetype : string) (w : world) :
  filetype = "json" \/ filetype = "pickle" ->
  _save_to_file df filename filetype w =
  write_file (filename +:+ extension filetype)
    (written filetype filename df) w.
Proof.
  unfold _save_to_file, extension, written.
  intros [->| ->]; reflexivity.
Qed.

Lemma json_pickle_known (filetype : string) :
  filetype = "json" \/ filetype = "pickle" -> filetype ∈ filetypes.
Proof. unfold filetypes. intros [->| ->]; set_solver. Qed.

Lemma select_table_selected (c : Creator) (how : string) (t : table)
  (w : world) :
  selected c how = Some t ->
  select_table c how w = (Done (Some t), w).
Proof.
  unfold selected, select_table.
  destruct (decide (how = "full")).
  - destruct (df c); simpl; [|discriminate].
    intros H. injection H as <-. reflexivity.
  - destruct (decide (how = "reduced")); [|discriminate].
    destruct (reduced_df c); simpl; [|discriminate].
    intros H. injection H as <-. reflexivity.
Qed.

Lemma iloc_table_row (t : table) (i : nat) (row : series) (w : world) :
  table_row t i = Some row -> iloc t i w = (Done row, w).
Proof.
  destruct t as [rows|rows]; simpl; destruct (rows !! i); simpl;
    try discriminate; intros H; injection H as <-; reflexivity.
Qed.

(** X8: an export of the whole frame as 'json' or 'pickle' prints 'Data
    was saved.', writes one file, named after [name] with the ending of
    the file type, that holds the frame [how] selects, and changes nothing
    else. *)
Theorem to_file_whole_table (datafolder : string) (c : Creator)
  (name filetype how : string) (t : table) (w : world) :
  filetype = "json" \/ filetype = "pickle" ->
  selected c how = Some t ->
  to_file datafolder c name filetype how false w =
  (Done tt,
   {| stdout := stdout w ++ ["Data was saved."];
      stdin := stdin w;
      files := <[(datafolder +:+ "\" +:+ name) +:+ extension filetype :=
                   written filetype (datafolder +:+ "\" +:+ name)
                     (WholeTable t)]> (files w);
      db := db w |}).
Proof.
  intros Hft Hsel. unfold to_file.
  destruct (decide (filetype ∈ filetypes)) as [_|Hn];
    [|destruct (Hn (json_pickle_known _ Hft))].
  erewrite io_bind_done by reflexivity.
  erewrite io_bind_done by (apply select_table_selected; exact Hsel).
  erewrite io_bind_done by reflexivity.
  rewrite save_known by exact Hft. reflexivity.
Qed.

Lemma save_each_known (datafolder name filetype : string) (t : table)
  (n a : nat) (w : world) :
  filetype = "json" \/ filetype = "pickle" ->
  a + n <= table_length t ->
  exists w',
    save_each datafolder name filetype (Some t) (seq a n) w = (Done tt, w') /\
    stdout w' = stdout w /\ stdin w' = stdin w /\ db w' = db w /\
    (forall i row, a <= i < a + n -> table_row t i = Some row ->
       files w' !! (record_filename datafolder name i +:+ extension filetype) =
       Some (written filetype (record_filename datafolder name i)
               (OneRow row))) /\
    (forall p,
       (forall i, a <= i < a + n ->
          p <> record_filename datafolder name i +:+ extension filetype) ->
       files w' !! p = files w !! p).
Proof.
  intros Hft. revert a w. induction n as [|n IH]; intros a w Hle.
  - exists w. simpl. repeat split; try reflexivity.
    intros i row Hi. lia.
  - assert (exists row, table_row t a = Some row) as [row Hrow].
    { destruct t as [rows|rows]; simpl in *;
        (destruct (lookup_lt_is_Some_2 rows a) as [r ->]; [lia|]); eauto. }
    set (w1 := (write_file
                  (record_filename datafolder name a +:+ extension filetype)
                  (written filetype (record_filename datafolder name a)
                     (OneRow row)) w).2).
    destruct (IH (S a) w1) as (w' & Hrun & Hout & Hin & Hdb & Hnew & Hold);
      [lia|].
    exists w'. split; [|split; [|split; [|split; [|split]]]].
    + cbn [seq save_each].
      erewrite io_bind_done.
      2:{ erewrite io_bind_done by reflexivity.
          erewrite io_bind_done by (apply iloc_table_row; exact Hrow).
          rewrite save_known by exact Hft. reflexivity. }
      exact Hrun.
    + rewrite Hout. reflexivity.
    + rewrite Hin. reflexivity.
    + rewrite Hdb. reflexivity.
    + intros i row' Hi Hrow'. destruct (decide (i = a)) as [->|Hne].
      * rewrite Hold.
        -- unfold w1. simpl. rewrite lookup_insert_eq.
           rewrite Hrow in Hrow'. injection Hrow' as <-. reflexivity.
        -- intros j Hj Heq. apply record_file_inj in Heq. lia.
      * apply Hnew; [lia|exact Hrow'].
    + intros p Hp. rewrite Hold.
      * unfold w1. simpl. apply lookup_insert_ne.
        intros Heq. apply (Hp a); [lia|]. symmetry. exact Heq.
      * intros i Hi. apply Hp. lia.
Qed.

(** X9: an export of one file per record as 'json' or 'pickle', from a
    frame that holds the [no_of_simulations] rows, prints 'Data was saved.'
    and returns; afterwards the file of record [i], named after [name]
    followed by [i] and the ending of the file type, holds row [i] of the
    frame [how] selects, for every [i], and every other file is as it
    was. *)
Theorem to_file_one_file_per_record (datafolder : string) (c : Creator)
  (name filetype how : string) (t : table) (w : world) :
  filetype = "json" \/ filetype = "pickle" ->
  selected c how = Some t ->
  no_of_simulations c <= table_length t ->
  exists w',
    to_file datafolder c name filetype how true w = (Done tt, w') /\
    stdout w' = stdout w ++ ["Data was saved."] /\
    db w' = db w /\
    (forall i row, i < no_of_simulations c -> table_row t i = Some row ->
       files w' !! (record_filename datafolder name i +:+ extension filetype) =
       Some (written filetype (record_filename datafolder name i)
               (OneRow row))) /\
    (forall p,
       (forall i, i < no_of_simulations c ->
          p <> record_filename datafolder name i +:+ extension filetype) ->
       files w' !! p = files w !! p).
Proof.
  intros Hft Hsel Hlen.
  destruct (save_each_known datafolder name filetype t (no_of_simulations c) 0
              (print "Data was saved." w).2 Hft)
    as (w' & Hrun & Hout & _ & Hdb & Hnew & Hold); [simpl; lia|].
  exists w'. split; [|split; [|split; [|split]]].
  - unfold to_file.
    destruct (decide (filetype ∈ filetypes)) as [_|Hn];
      [|destruct (Hn (json_pickle_known _ Hft))].
    erewrite io_bind_done by reflexivity.
    erewrite io_bind_done by (apply select_table_selected; exact Hsel).
    exact Hrun.
  - rewrite Hout. reflexivity.
  - rewrite Hdb. reflexivity.
  - intros i row Hi. apply Hnew. lia.
  - intros p Hp. rewrite Hold; [reflexivity|].
    intros i Hi. apply Hp. lia.
Qed.

(** ** [to_file] with the file type 'excel' *)

(** The path of a file holds a backslash, which no sheet may have in its
    name. *)
Lemma path_is_no_sheet_title (datafolder name : string) :
  sheet_title_ok (datafolder +:+ "\" +:+ name) = false.
Proof.
  induction datafolder as [|ch rest IH]; [reflexivity|].
  change (sheet_title_ok (String ch (rest +:+ "\" +:+ name)) = false).
  unfold sheet_title_ok in *.
  cbn [String.list_ascii_of_string forallb]. rewrite IH. apply andb_false_r.
Qed.

Lemma save_excel_refused (df : content) (datafolder name : string)
  (w : world) :
  _save_to_file df (datafolder +:+ "\" +:+ name) "excel" w =
  (Raise ValueError, w).
Proof.
  unfold _save_to_file. rewrite path_is_no_sheet_title. reflexivity.
Qed.

(** X26: an export as 'excel' never succeeds, though it has announced
    success: [to_file] prints 'Data was saved.' and then ends in the
    exception of the Excel writer, which is given the path of the file, a
    backslash included, as the name of the sheet. With one file per record
    that is so as soon as there is a record to write. *)
Theorem excel_export_is_refused (datafolder : string) (c : Creator)
  (name how : string) (t : table) (single : bool) (w : world) :
  selected c how = Some t ->
  (single = true -> 1 <= no_of_simulations c) ->
  exists e w',
    to_file datafolder c name "excel" how single w = (Raise e, w') /\
    stdout w' = stdout w ++ ["Data was saved."] /\
    db w' = db w.
Proof.
  intros Hsel Hn. unfold to_file.
  destruct (decide ("excel" ∈ filetypes)) as [_|Hne];
    [|exfalso; apply Hne; unfold filetypes; set_solver].
  erewrite io_bind_done by reflexivity.
  erewrite io_bind_done by (apply select_table_selected; exact Hsel).
  destruct single.
  - destruct (no_of_simulations c) as [|n]; [specialize (Hn eq_refl); lia|].
    cbn [seq save_each].
    destruct (table_row t 0) as [row|] eqn:Hrow.
    + eexists _, _. split.
      * erewrite io_bind_raise; [reflexivity|].
        erewrite io_bind_done by reflexivity.
        erewrite io_bind_done by (apply iloc_table_row; exact Hrow).
        apply (save_excel_refused _ datafolder (name +:+ pretty 0)).
      * split; reflexivity.
    + eexists _, _. split.
      * erewrite io_bind_raise; [reflexivity|].
        erewrite io_bind_done by reflexivity.
        erewrite io_bind_raise; [reflexivity|].
        destruct t as [rows|rows]; simpl in Hrow |- *;
          destruct (rows !! 0); try discriminate; reflexivity.
      * split; reflexivity.
  - eexists _, _. split.
    + erewrite io_bind_done by reflexivity.
      apply save_excel_refused.
    + split; reflexivity.
Qed.

(** ** The dialogue and the writes of [upload_to_DB] *)

Lemma known_collection_spec (w : world) (name : string) :
  known_collection (dom (db w)) name = true <-> is_Some (db w !! name).
Proof.
  unfold known_collection. rewrite bool_decide_eq_true. apply elem_of_dom.
Qed.

(** The dialogue reads and prints, and leaves files and database alone. *)
Lemma resolve_collection_frame (name : string) (w : world) :
  db (resolve_collection name w).2 = db w /\
  files (resolve_collection name w).2 = files w.
Proof.
  unfold resolve_collection.
  destruct (known_collection (dom (db w)) name); [|auto].
  destruct (overwrite_dialogue _ _ _ _ _ _) as [[res rest] out]. auto.
Qed.

Lemma insert_rows_frame (c : Creator) (name other : string)
  (rows : list nat) (w : world) :
  other <> name ->
  db (insert_rows c name rows w).2 !! other = db w !! other.
Proof.
  intros Hne. revert w. induction rows as [|i rows IH]; intros w; simpl.
  - reflexivity.
  - unfold mbind at 1, io_bind at 1.
    destruct (df c) as [full|]; [|reflexivity].
    destruct (full !! i) as [row|]; [|reflexivity].
    unfold mbind at 1, io_bind at 1. unfold insert_one at 1.
    unfold print at 1. rewrite IH. simpl.
    apply lookup_insert_ne. congruence.
Qed.

(** X10: [upload_to_DB] changes no collection but the one it writes to,
    also when it ends in an exception; when it is not to write, it changes
    none. *)
Theorem upload_touches_one_collection (credentials : option string)
  (c : Creator) (collection_name : string) (reduced : bool) (w : world)
  (other : string) :
  (forall name' w1,
     resolve_collection collection_name w = (Done (true, name'), w1) ->
     other <> name') ->
  db (upload_to_DB credentials c collection_name reduced w).2 !! other =
  db w !! other.
Proof.
  intros Hother. unfold upload_to_DB.
  destruct credentials as [cs|]; [|reflexivity].
  assert (Hrest : forall w0 : world, w0 = w ->
    db ((resolve_collection collection_name ≫= fun decision : bool * string =>
         if decision.1 then
           delete_many decision.2 ≫= fun _ =>
           insert_rows c decision.2 (seq 0 (no_of_simulations c))
         else mret tt) w0).2 !! other = db w !! other).
  { intros w0 ->. unfold mbind at 1, io_bind at 1.
    pose proof (resolve_collection_frame collection_name w) as [Hdb _].
    destruct (resolve_collection collection_name w)
      as [[[write name']| |] w1] eqn:Hres; simpl in Hdb;
      [|simpl; rewrite Hdb; reflexivity..].
    destruct write; simpl;
      [|unfold mret, io_ret; simpl; rewrite Hdb; reflexivity].
    unfold mbind, io_bind. unfold delete_many at 1.
    rewrite insert_rows_frame by (apply (Hother name' w1); reflexivity).
    simpl. rewrite Hdb.
    destruct (db w !! name') eqn:Hn; [|reflexivity].
    apply lookup_insert_ne. intros ->.
    apply (Hother other w1); reflexivity. }
  unfold mbind at 1, io_bind at 1.
  destruct reduced.
  - destruct (reduced_df c); [apply Hrest; reflexivity|reflexivity].
  - destruct (df c); [apply Hrest; reflexivity|reflexivity].
Qed.

(** X11: at the first question about overwriting, an answer that is
    neither 'yes' nor 'no' does not bring the question again: the upload
    ends in an UnboundLocalError (the test of [answer2], which no statement
    has assigned yet), with the database as it was. *)
Theorem first_answer_must_be_yes_or_no (connectionstring : string)
  (c : Creator) (collection_name : string) (reduced : bool) (w : world)
  (answer : string) (answers : list string) :
  is_Some (if reduced then ReducedTable <$> reduced_df c
           else FullTable <$> df c) ->
  is_Some (db w !! collection_name) ->
  stdin w = answer :: answers ->
  answer <> "yes" -> answer <> "no" ->
  (upload_to_DB (Some connectionstring) c collection_name reduced w).1 =
    Raise UnboundLocalError /\
  db (upload_to_DB (Some connectionstring) c collection_name reduced w).2 =
    db w.
Proof.
  intros Hsel Hknown Hin Hyes Hno.
  assert (Hres : resolve_collection collection_name w =
    (Raise UnboundLocalError,
     {| stdout := stdout w ++ ["
 SIALAb MongoDB: Collection already exists!";
                               "Do you want to overwrite it? (yes/no)"];
        stdin := answers; files := files w; db := db w |})).
  { unfold resolve_collection.
    apply known_collection_spec in Hknown. rewrite Hknown, Hin. simpl.
    destruct (decide (answer = "yes")); [contradiction|].
    destruct (decide (answer = "no")); [contradiction|]. reflexivity. }
  unfold upload_to_DB.
  assert (Hfirst : forall (m : io table) (t : table),
    m w = (Done t, w) ->
    ((m ≫= fun df_local : table =>
      resolve_collection collection_name ≫= fun decision : bool * string =>
      if decision.1 then
        delete_many decision.2 ≫= fun _ =>
        insert_rows c decision.2 (seq 0 (no_of_simulations c))
      else mret tt) w).1 = Raise UnboundLocalError /\
    db ((m ≫= fun df_local : table =>
      resolve_collection collection_name ≫= fun decision : bool * string =>
      if decision.1 then
        delete_many decision.2 ≫= fun _ =>
        insert_rows c decision.2 (seq 0 (no_of_simulations c))
      else mret tt) w).2 = db w).
  { intros m t Hm. erewrite io_bind_done by exact Hm.
    erewrite io_bind_raise by exact Hres. auto. }
  destruct reduced.
  - destruct (reduced_df c) as [rr|]; [|destruct Hsel; discriminate].
    apply (Hfirst _ (ReducedTable rr)). reflexivity.
  - destruct (df c) as [rr|]; [|destruct Hsel; discriminate].
    apply (Hfirst _ (FullTable rr)). reflexivity.
Qed.

Lemma insert_rows_total (c : Creator) (name : string)
  (full : list SimRecord) (n a : nat) (w : world) :
  df c = Some full ->
  a + n <= length full ->
  exists w',
    insert_rows c name (seq a n) w = (Done tt, w') /\
    stdin w' = stdin w /\ files w' = files w.
Proof.
  intros Hdf. revert a w. induction n as [|n IH]; intros a w Hle; simpl.
  - exists w. auto.
  - rewrite Hdf.
    destruct (lookup_lt_is_Some_2 full a) as [row ->]; [lia|].
    unfold mbind at 1, io_bind at 1.
    unfold mbind at 1, io_bind at 1. unfold insert_one at 1.
    unfold print at 1.
    match goal with |- context [insert_rows c name (seq (S a) n) ?w1] =>
      destruct (IH (S a) w1) as (w' & Hrun & Hin & Hf); [lia|]
    end.
    exists w'. rewrite Hrun. simpl in Hin, Hf. auto.
Qed.

Lemma dialogue_overwrites_on_yes (collections : gset string)
  (answers rest : list string) (at_ : prompt) (answer2 : option string)
  (name name' : string) (out out' : list string) :
  overwrite_dialogue collections answers at_ answer2 name out =
    (Done (true, name'), rest, out') ->
  name' ∈ collections ->
  exists before, answers = before ++ "yes" :: rest.
Proof.
  intros H Hin. revert H.
  remember (length answers) as n eqn:Hn.
  assert (Hle : length answers <= n) by lia. clear Hn.
  revert answers Hle at_ answer2 name out.
  induction n as [|n IH]; intros answers Hle at_ answer2 name out.
  { destruct answers; [discriminate|simpl in Hle; lia]. }
  destruct answers as [|a answers]; [discriminate|]. simpl in Hle.
  destruct at_; cbn [overwrite_dialogue].
  - destruct (decide (a = "yes")) as [->|_].
    { intros H. injection H as _ <- _. exists []. reflexivity. }
    destruct (decide (a = "no")) as [_|_].
    { intros H. apply IH in H as [before ->]; [|lia].
      exists (a :: before). reflexivity. }
    destruct answer2 as [a2|]; [|discriminate].
    destruct (decide (a2 = "no")); intros H;
      (apply IH in H as [before ->]; [|lia]);
      exists (a :: before); reflexivity.
  - destruct (decide (a = "yes")) as [_|_].
    { destruct answers as [|new_name rest']; [discriminate|]. simpl in Hle.
      destruct (known_collection collections new_name) eqn:Hknown.
      - intros H. apply IH in H as [before ->]; [|lia].
        exists (a :: new_name :: before). reflexivity.
      - intros H. injection H as <- _ _.
        unfold known_collection in Hknown.
        apply bool_decide_eq_false in Hknown. contradiction. }
    destruct (decide (a = "no")) as [_|_]; [discriminate|].
    intros H. apply IH in H as [before ->]; [|lia].
    exists (a :: before). reflexivity.
Qed.

(** X12: [upload_to_DB] never writes to a collection that exists without
    having been told to: when it is to write to a collection that the
    database already holds, the last answer it read is a 'yes' to the
    question whether to overwrite. *)
Theorem no_overwrite_without_yes (collection_name name' : string)
  (w w1 : world) :
  resolve_collection collection_name w = (Done (true, name'), w1) ->
  is_Some (db w !! name') ->
  exists before, stdin w = before ++ "yes" :: stdin w1.
Proof.
  unfold resolve_collection. intros H Hknown.
  destruct (known_collection (dom (db w)) collection_name) eqn:Hk.
  - destruct (overwrite_dialogue _ _ _ _ _ _) as [[res rest] out] eqn:Hd.
    injection H as -> <-. simpl.
    eapply dialogue_overwrites_on_yes; [exact Hd|].
    apply elem_of_dom. exact Hknown.
  - injection H as <- <-. apply known_collection_spec in Hknown. congruence.
Qed.

(** X13: told 'yes' at the question about overwriting, the upload replaces
    the collection: afterwards it holds the documents of the first
    [no_of_simulations] rows of the full table and nothing of what it held
    before. *)
Theorem overwrite_replaces_collection (connectionstring : string)
  (c : Creator) (collection_name : string) (reduced : bool) (w : world)
  (rows : list SimRecord) (answers : list string) :
  df c = Some rows ->
  is_Some (reduced_df c) ->
  no_of_simulations c <= length rows ->
  is_Some (db w !! collection_name) ->
  stdin w = "yes" :: answers ->
  exists w',
    upload_to_DB (Some connectionstring) c collection_name reduced w =
      (Done tt, w') /\
    stdin w' = answers /\
    collection w' collection_name =
      to_document <$> take (no_of_simulations c) rows.
Proof.
  intros Hdf [rr Hrdf] Hlen Hknown Hin.
  set (w1 := {| stdout := stdout w ++ ["
 SIALAb MongoDB: Collection already exists!";
                  "Do you want to overwrite it? (yes/no)";
                  "Collection overwritten."];
                stdin := answers; files := files w; db := db w |}).
  assert (Hres : resolve_collection collection_name w =
                 (Done (true, collection_name), w1)).
  { unfold resolve_collection.
    apply known_collection_spec in Hknown. rewrite Hknown, Hin. reflexivity. }
  destruct (insert_rows_total c collection_name rows (no_of_simulations c) 0
              (delete_many collection_name w1).2 Hdf)
    as (w' & Hrun & Hin' & _); [simpl; lia|].
  exists w'. split; [|split].
  - unfold upload_to_DB. rewrite Hdf, Hrdf.
    destruct reduced;
      (erewrite io_bind_done by reflexivity;
       erewrite io_bind_done by exact Hres; simpl;
       erewrite io_bind_done by reflexivity; exact Hrun).
  - rewrite Hin'. reflexivity.
  - rewrite (insert_rows_Done c collection_name rows _ 0 _ w' Hdf Hrun).
    rewrite collection_delete_many, drop_0. reflexivity.
Qed.

(** X14: told 'no' at the question about overwriting and 'no' again at the
    question about a new collection, the upload returns with the database
    as it was. *)
Theorem declining_leaves_database (connectionstring : string)
  (c : Creator) (collection_name : string) (reduced : bool) (w : world)
  (answers : list string) :
  is_Some (df c) ->
  is_Some (reduced_df c) ->
  is_Some (db w !! collection_name) ->
  stdin w = "no" :: "no" :: answers ->
  exists w',
    upload_to_DB (Some connectionstring) c collection_name reduced w =
      (Done tt, w') /\
    stdin w' = answers /\ db w' = db w /\ files w' = files w.
Proof.
  intros [rows Hdf] [rr Hrdf] Hknown Hin.
  eexists. split.
  - unfold upload_to_DB. rewrite Hdf, Hrdf.
    assert (Hres : resolve_collection collection_name w =
      (Done (false, collection_name),
       {| stdout := stdout w ++ ["
 SIALAb MongoDB: Collection already exists!";
                     "Do you want to overwrite it? (yes/no)";
                     "Collection not overwritten.";
                     "Do you want to create a new collection? (yes/no)";
                     "Data was not uploaded."];
          stdin := answers; files := files w; db := db w |})).
    { unfold resolve_collection.
      apply known_collection_spec in Hknown. rewrite Hknown, Hin.
      reflexivity. }
    destruct reduced;
      (erewrite io_bind_done by reflexivity;
       erewrite io_bind_done by exact Hres; reflexivity).
  - simpl. auto.
Qed.

(** X15: an upload followed by [check_db]: when the upload was to write
    and completed, [check_db] on the collection it wrote to returns the
    documents of the first [no_of_simulations] rows of the full table, x
    rounded to two decimals, in the order of the rows. *)
Theorem upload_then_check_db (connectionstring : string) (c : Creator)
  (collection_name name' : string) (reduced : bool) (w w1 w2 : world)
  (rows : list SimRecord) :
  df c = Some rows ->
  resolve_collection collection_name w = (Done (true, name'), w1) ->
  upload_to_DB (Some connectionstring) c collection_name reduced w =
    (Done tt, w2) ->
  exists listing,
    check_db (Some connectionstring) name' w2 =
    (Done (listing, to_document <$> take (no_of_simulations c) rows), w2).
Proof.
  intros Hdf Hres Hup. unfold check_db. eexists. f_equal. f_equal. f_equal.
  revert Hup. unfold upload_to_DB. unfold mbind at 1, io_bind at 1.
  assert (Hgo :
    (resolve_collection collection_name ≫= fun decision : bool * string =>
     if decision.1 then
       delete_many decision.2 ≫= fun _ =>
       insert_rows c decision.2 (seq 0 (no_of_simulations c))
     else mret tt) w = (Done tt, w2) ->
    collection w2 name' = to_document <$> take (no_of_simulations c) rows).
  { erewrite io_bind_done by exact Hres. simpl.
    rewrite (io_bind_done (delete_many name') _ tt w1
               (delete_many name' w1).2 eq_refl).
    intros H.
    rewrite (insert_rows_Done c name' rows _ 0 _ w2 Hdf H).
    rewrite collection_delete_many, drop_0. reflexivity. }
  destruct reduced.
  - destruct (reduced_df c); [exact Hgo|discriminate].
  - rewrite Hdf. exact Hgo.
Qed.

(** X21: after [drop_db_collection], an upload under the name of the
    dropped collection asks nothing: it reads no answer, creates the
    collection with the documents of the first [no_of_simulations] rows of
    the full table, and leaves every other collection as it was before the
    drop. *)
Theorem upload_after_drop (connectionstring : string) (c : Creator)
  (collection_name : string) (reduced : bool) (w : world)
  (rows : list SimRecord) :
  df c = Some rows ->
  is_Some (reduced_df c) ->
  no_of_simulations c <= length rows ->
  exists w1 w',
    drop_db_collection (Some connectionstring) collection_name w =
      (Done tt, w1) /\
    upload_to_DB (Some connectionstring) c collection_name reduced w1 =
      (Done tt, w') /\
    stdin w' = stdin w /\
    collection w' collection_name =
      to_document <$> take (no_of_simulations c) rows /\
    forall other, other <> collection_name ->
      db w' !! other = db w !! other.
Proof.
  intros Hdf [rr Hrdf] Hlen.
  set (w1 := {| stdout := stdout w; stdin := stdin w; files := files w;
                db := delete collection_name (db w) |}).
  assert (Hgone : db w1 !! collection_name = None) by apply lookup_delete_eq.
  assert (Hres : resolve_collection collection_name w1 =
                 (Done (true, collection_name), w1)).
  { unfold resolve_collection.
    destruct (known_collection (dom (db w1)) collection_name) eqn:Hk;
      [|reflexivity].
    apply known_collection_spec in Hk. rewrite Hgone in Hk.
    destruct Hk; discriminate. }
  assert (Hdel : delete_many collection_name w1 = (Done tt, w1)).
  { unfold delete_many. rewrite Hgone. reflexivity. }
  destruct (insert_rows_total c collection_name rows (no_of_simulations c) 0
              w1 Hdf) as (w' & Hrun & Hin' & _); [simpl; lia|].
  exists w1, w'. split; [reflexivity|]. split; [|split; [|split]].
  - unfold upload_to_DB. rewrite Hdf, Hrdf.
    destruct reduced;
      (erewrite io_bind_done by reflexivity;
       erewrite io_bind_done by exact Hres; simpl;
       erewrite io_bind_done by exact Hdel; exact Hrun).
  - rewrite Hin'. reflexivity.
  - rewrite (insert_rows_Done c collection_name rows _ 0 _ w' Hdf Hrun).
    unfold collection at 1. rewrite Hgone, drop_0. reflexivity.
  - intros other Hne.
    pose proof (insert_rows_frame c collection_name other
                  (seq 0 (no_of_simulations c)) w1 Hne) as Hfr.
    rewrite Hrun in Hfr. simpl in Hfr. rewrite Hfr.
    apply lookup_delete_ne. congruence.
Qed.

(** * Further properties of the grid regularisation *)

Lemma rint_integer (q : Q) (n : Z) : (q == inject_Z n)%Q -> rint q = n.
Proof.
  intros Hq. unfold rint.
  assert (Hf : Qfloor q = n).
  { rewrite (Qfloor_comp _ _ Hq). apply Qfloor_Z. }
  rewrite Hf.
  assert (Hc : (q - inject_Z n ?= 1 # 2)%Q = Lt).
  { assert (E : (q - inject_Z n == 0)%Q) by (rewrite Hq; ring).
    rewrite E. reflexivity. }
  rewrite Hc. reflexivity.
Qed.

Lemma rint_nonneg (q : Q) : (0 <= q)%Q -> (0 <= rint q)%Z.
Proof.
  intros Hq. unfold rint.
  assert (Hf : (0 <= Qfloor q)%Z).
  { change 0%Z with (Qfloor 0). apply Qfloor_resp_le. exact Hq. }
  destruct (q - inject_Z (Qfloor q) ?= 1 # 2)%Q; [|lia..].
  destruct (Z.even (Qfloor q)); lia.
Qed.

Lemma py_int_integer (q : Q) (n : Z) : (q == inject_Z n)%Q -> py_int q = n.
Proof.
  unfold py_int, Qeq. destruct q as [a d]. simpl. intros H.
  rewrite Z.mul_1_r in H. rewrite H. apply Z.quot_mul. lia.
Qed.

Lemma np_around_nonneg (q : Q) (decimals : nat) :
  (0 <= q)%Q -> (0 <= np_around q decimals)%Q.
Proof.
  intros Hq. unfold np_around.
  assert (Hp : (0 < 10 ^ Z.of_nat decimals)%Z) by (apply Z.pow_pos_nonneg; lia).
  assert (Hpq : (0 < inject_Z (10 ^ Z.of_nat decimals))%Q).
  { change 0%Q with (inject_Z 0). rewrite <- Zlt_Qlt. exact Hp. }
  apply Qle_shift_div_l; [exact Hpq|].
  rewrite Qmult_0_l. change 0%Q with (inject_Z 0). rewrite <- Zle_Qle.
  apply rint_nonneg. apply Qmult_le_0_compat; [exact Hq|lra].
Qed.

Lemma elem_of_roll_left (x : list Q) (v : Q) : v ∈ roll_left x -> v ∈ x.
Proof.
  unfold roll_left. intros H. apply elem_of_app in H as [H|H].
  - apply (subseteq_drop 1 x). exact H.
  - apply (subseteq_take 1 x). exact H.
Qed.

Lemma elem_of_abs_diffs (x : list Q) (d : Q) :
  d ∈ abs_diffs x -> exists a b, a ∈ x /\ b ∈ x /\ d = Qabs (a - b).
Proof.
  unfold abs_diffs. intros H. apply list_elem_of_lookup in H as [i Hi].
  apply lookup_zip_with_Some in Hi as (a & b & -> & Ha & Hb).
  exists a, b. split; [eapply list_elem_of_lookup_2; exact Ha|].
  split; [|reflexivity].
  apply elem_of_roll_left. eapply list_elem_of_lookup_2; exact Hb.
Qed.

(** The step, when there is one, is not negative. *)
Lemma canonical_step_nonneg (x : list Q) (s : Q) :
  canonical_step x = Done s -> (0 <= s)%Q.
Proof.
  intros H. apply canonical_step_Done in H as (m & Hm & _ & _ & ->).
  apply np_around_nonneg.
  apply elem_of_abs_diffs in Hm as (a & b & _ & _ & ->). apply Qabs_nonneg.
Qed.

Lemma check_step_width_unfold (x y : list Q) (start stop : Q) :
  x !! 0 = Some start -> x !! (length x - 1) = Some stop ->
  _check_step_width x y =
  step ← canonical_step x;
  if quotient_exceeds (stop - start) step (length x)
  then _interpolate x y step else Done (x, y).
Proof.
  intros Hstart Hstop. unfold _check_step_width.
  rewrite (row_item_nat x 0 start Hstart : row_item 0 x = Done start).
  step_bind. rewrite (row_item_last _ _ Hstop). step_bind. reflexivity.
Qed.

(** X16: a spectrum whose x values do not end above where they start, as
    one recorded from high to low energy, is never interpolated, whatever
    gaps it has: it is returned as it is, or refused with a ValueError when
    all its x values are equal. *)
Theorem descending_grid_is_kept (x y : list Q) (start stop : Q) :
  x !! 0 = Some start ->
  x !! (length x - 1) = Some stop ->
  (stop <= start)%Q ->
  _check_step_width x y = Done (x, y) \/
  _check_step_width x y = Raise ValueError.
Proof.
  intros Hstart Hstop Hle.
  rewrite (check_step_width_unfold x y start stop Hstart Hstop).
  destruct (canonical_step x) as [s| |] eqn:Hs.
  - left. step_bind. pose proof (canonical_step_nonneg _ _ Hs) as Hs0.
    assert (Hq : quotient_exceeds (stop - start) s (length x) = false).
    { unfold quotient_exceeds. destruct (Qeq_bool s 0) eqn:Hz.
      - destruct (Qlt_bool 0 (stop - start)) eqn:Hlt; [|reflexivity].
        apply Qlt_bool_iff in Hlt. lra.
      - destruct (Qlt_bool _ _) eqn:Hlt; [|reflexivity].
        apply Qlt_bool_iff in Hlt.
        assert (Hspos : (0 < s)%Q).
        { apply Qle_lteq in Hs0 as [H|H]; [exact H|].
          symmetry in H. apply Qeq_bool_iff in H. congruence. }
        assert (Hn : (0 <= inject_Z (Z.of_nat (length x)))%Q).
        { change 0%Q with (inject_Z 0). rewrite <- Zle_Qle. lia. }
        assert (Hd : ((stop - start) / s <= 0)%Q).
        { apply Qle_shift_div_r; [exact Hspos|]. lra. }
        lra. }
    rewrite Hq. reflexivity.
  - right. step_bind. revert Hs. unfold canonical_step.
    destruct (np_min (nonzero (abs_diffs x))) as [m| |] eqn:Hm;
      step_bind; try discriminate.
    unfold np_min in Hm. destruct (nonzero (abs_diffs x)); [|discriminate].
    injection Hm as <-. intros H. injection H as <-. reflexivity.
  - exfalso. revert Hs. unfold canonical_step.
    destruct (np_min (nonzero (abs_diffs x))) as [m| |] eqn:Hm;
      step_bind; try discriminate.
    unfold np_min in Hm. destruct (nonzero (abs_diffs x)); discriminate.
Qed.

Lemma nonzero_nil (d : list Q) :
  Forall (fun v => (v == 0)%Q) d -> nonzero d = [].
Proof.
  unfold nonzero. induction 1 as [|v d Hv _ IH]; simpl; [reflexivity|].
  apply Qeq_bool_iff in Hv. rewrite Hv. simpl. exact IH.
Qed.

(** X17: a spectrum with a single x value, however often it is repeated,
    has no step: [_check_step_width] ends in the ValueError of the minimum
    of an empty array; on an empty spectrum it ends in an IndexError. *)
Theorem constant_grid_is_refused (x y : list Q) :
  (x = [] -> _check_step_width x y = Raise IndexError) /\
  (forall x0, x <> [] -> Forall (fun v => (v == x0)%Q) x ->
     _check_step_width x y = Raise ValueError).
Proof.
  split.
  - intros ->. reflexivity.
  - intros x0 Hx Hall.
    destruct (lookup_lt_is_Some_2 x 0) as [start Hstart].
    { destruct x; [congruence|simpl; lia]. }
    destruct (lookup_lt_is_Some_2 x (length x - 1)) as [stop Hstop].
    { destruct x; [congruence|simpl; lia]. }
    rewrite (check_step_width_unfold x y start stop Hstart Hstop).
    unfold canonical_step. rewrite nonzero_nil; [reflexivity|].
    apply Forall_forall. intros d Hd.
    apply elem_of_abs_diffs in Hd as (a & b & Ha & Hb & ->).
    rewrite Forall_forall in Hall.
    rewrite (Hall a Ha), (Hall b Hb).
    assert (E : (x0 - x0 == 0)%Q) by ring. rewrite E. reflexivity.
Qed.

(** ** Spectra without a gap to fill *)

Lemma take_all_but_last (l : list Q) (v : Q) :
  l !! (length l - 1) = Some v -> take (length l - 1) l ++ [v] = l.
Proof.
  intros H. pose proof (lookup_lt_Some _ _ _ H) as Hlt.
  rewrite <- (take_S_r _ _ _ H).
  apply take_ge. lia.
Qed.

Lemma interpolate_loop_keeps (x y : list Q) (step : Q) (k a : nat)
  (new_x new_y : list Q) :
  length x = length y ->
  a + k + 1 <= length x ->
  (forall i xi xi1, x !! i = Some xi -> x !! (i + 1) = Some xi1 ->
     Qlt_bool step (Qabs (np_around (xi1 - xi) 2)) &&
     Qlt_bool (Qabs (np_around (xi1 - xi) 2)) 10 = false) ->
  interpolate_loop x y step (seq a k) new_x new_y =
  Done (new_x ++ take k (drop a x), new_y ++ take k (drop a y)).
Proof.
  intros Hlen. revert a new_x new_y.
  induction k as [|k IH]; intros a new_x new_y Ha Hgap.
  - simpl. rewrite !app_nil_r. reflexivity.
  - destruct (lookup_lt_is_Some_2 x a) as [xi Hx]; [lia|].
    destruct (lookup_lt_is_Some_2 x (a + 1)) as [xi1 Hx1]; [lia|].
    destruct (lookup_lt_is_Some_2 y a) as [yi Hy]; [lia|].
    cbn [seq interpolate_loop]. unfold interpolate_at.
    rewrite (row_item_nat _ _ _ Hx1). step_bind.
    rewrite (row_item_nat _ _ _ Hx). step_bind.
    rewrite (Hgap a xi xi1 Hx Hx1).
    rewrite (row_item_nat _ _ _ Hy). step_bind.
    rewrite IH by (try lia; exact Hgap).
    rewrite (drop_S _ _ _ Hx), (drop_S _ _ _ Hy). simpl.
    rewrite <- !app_assoc. reflexivity.
Qed.

(** X18: a spectrum in which no two consecutive samples are further apart,
    after rounding to two decimals, than the step and closer than 10, is
    returned unchanged: a regular grid is left alone whatever the step
    comes out as, zero included. *)
Theorem nothing_to_fill (x y : list Q) (s : Q) :
  length x = length y ->
  canonical_step x = Done s ->
  (forall i xi xi1, x !! i = Some xi -> x !! (i + 1) = Some xi1 ->
     ~ ((s < Qabs (np_around (xi1 - xi) 2))%Q /\
        (Qabs (np_around (xi1 - xi) 2) < 10)%Q)) ->
  _check_step_width x y = Done (x, y).
Proof.
  intros Hlen Hstep Hgap.
  assert (Hx : x <> []) by (intros ->; discriminate Hstep).
  destruct (lookup_lt_is_Some_2 x 0) as [start Hstart].
  { destruct x; [congruence|simpl; lia]. }
  destruct (lookup_lt_is_Some_2 x (length x - 1)) as [stop Hstop].
  { destruct x; [congruence|simpl; lia]. }
  destruct (lookup_lt_is_Some_2 y (length y - 1)) as [ystop Hystop].
  { destruct x; [congruence|simpl in Hlen; lia]. }
  rewrite (check_step_width_unfold x y start stop Hstart Hstop).
  rewrite Hstep. step_bind.
  destruct (quotient_exceeds _ _ _); [|reflexivity].
  unfold _interpolate.
  pose proof (lookup_lt_Some _ _ _ Hstart) as Hpos.
  rewrite (interpolate_loop_keeps x y s (length x - 1) 0 [] [] Hlen);
    [|lia|].
  - step_bind. rewrite (row_item_last _ _ Hstop). step_bind.
    rewrite (row_item_last _ _ Hystop). step_bind.
    rewrite !drop_0. simpl app. rewrite Hlen at 2.
    rewrite (take_all_but_last _ _ Hstop), (take_all_but_last _ _ Hystop).
    reflexivity.
  - intros i xi xi1 Hi Hi1.
    destruct (Qlt_bool s _) eqn:H1; [|reflexivity].
    destruct (Qlt_bool _ 10) eqn:H2; [|reflexivity].
    exfalso. apply (Hgap i xi xi1 Hi Hi1).
    split; apply Qlt_bool_iff; assumption.
Qed.

(** ** A step that rounds to zero *)

Lemma interpolate_loop_overflows (x y : list Q) (step : Q) (k a : nat)
  (new_x new_y : list Q) :
  length x = length y ->
  (step == 0)%Q ->
  a + k + 1 <= length x ->
  (exists i xi xi1,
     a <= i < a + k /\ x !! i = Some xi /\ x !! (i + 1) = Some xi1 /\
     Qlt_bool step (Qabs (np_around (xi1 - xi) 2)) &&
     Qlt_bool (Qabs (np_around (xi1 - xi) 2)) 10 = true) ->
  interpolate_loop x y step (seq a k) new_x new_y = Raise OverflowError.
Proof.
  intros Hlen Hz. apply Qeq_bool_iff in Hz. revert a new_x new_y.
  induction k as [|k IH]; intros a new_x new_y Ha Hbad.
  - destruct Hbad as (i & _ & _ & Hi & _). lia.
  - destruct (lookup_lt_is_Some_2 x a) as [xa Hx]; [lia|].
    destruct (lookup_lt_is_Some_2 x (a + 1)) as [xa1 Hx1]; [lia|].
    destruct (lookup_lt_is_Some_2 y a) as [ya Hy]; [lia|].
    cbn [seq interpolate_loop]. unfold interpolate_at.
    rewrite (row_item_nat _ _ _ Hx1). step_bind.
    rewrite (row_item_nat _ _ _ Hx). step_bind.
    destruct (Qlt_bool step (Qabs (np_around (xa1 - xa) 2)) &&
              Qlt_bool (Qabs (np_around (xa1 - xa) 2)) 10) eqn:Hc.
    + rewrite Hz. reflexivity.
    + rewrite (row_item_nat _ _ _ Hy). step_bind.
      apply IH; [lia|].
      destruct Hbad as (i & xi & xi1 & Hi & Hxi & Hxi1 & Hb).
      exists i, xi, xi1. split; [|auto].
      destruct (decide (i = a)) as [->|Hne]; [|lia].
      rewrite Hx in Hxi. rewrite Hx1 in Hxi1.
      injection Hxi as <-. injection Hxi1 as <-. congruence.
Qed.

(** X19: when the step rounds to zero (the least difference of the x
    values is 0.005 or less), the x values end above where they start, and
    two consecutive samples are apart by more than nothing and less than
    10 after rounding, the regularisation ends in the OverflowError of
    turning an infinite quotient into an integer. *)
Theorem zero_step_overflows (x y : list Q) (s start stop : Q) :
  length x = length y ->
  canonical_step x = Done s ->
  (s == 0)%Q ->
  x !! 0 = Some start ->
  x !! (length x - 1) = Some stop ->
  (start < stop)%Q ->
  (exists i xi xi1,
     x !! i = Some xi /\ x !! (i + 1) = Some xi1 /\
     (0 < Qabs (np_around (xi1 - xi) 2))%Q /\
     (Qabs (np_around (xi1 - xi) 2) < 10)%Q) ->
  _check_step_width x y = Raise OverflowError.
Proof.
  intros Hlen Hstep Hz Hstart Hstop Hspan (i & xi & xi1 & Hi & Hi1 & H0 & H10).
  rewrite (check_step_width_unfold x y start stop Hstart Hstop).
  rewrite Hstep. step_bind.
  assert (Hq : quotient_exceeds (stop - start) s (length x) = true).
  { unfold quotient_exceeds. pose proof Hz as Hz'.
    apply Qeq_bool_iff in Hz'. rewrite Hz'. apply Qlt_bool_iff. lra. }
  rewrite Hq. unfold _interpolate.
  pose proof (lookup_lt_Some _ _ _ Hi1) as Hlt.
  rewrite (interpolate_loop_overflows x y s (length x - 1) 0 [] [] Hlen Hz);
    [reflexivity|lia|].
  exists i, xi, xi1. split; [lia|]. split; [exact Hi|]. split; [exact Hi1|].
  apply andb_true_intro. split; apply Qlt_bool_iff; [|exact H10].
  rewrite Hz. exact H0.
Qed.

(** ** A quotient that falls just below a whole number *)

Lemma lookup_map_seq {A : Type} (f : nat -> A) (m a j : nat) :
  j < m -> map f (seq a m) !! j = Some (f (a + j)).
Proof.
  revert a j. induction m as [|m IH]; intros a j Hj; [lia|].
  destruct j as [|j]; simpl.
  - f_equal. f_equal. lia.
  - rewrite IH by lia. f_equal. f_equal. lia.
Qed.

(** X25: the points put into a gap number the nearest integer [n] to the
    float64 quotient of gap and step, but their y values advance by the
    index over the integer part [m] of that quotient. When the quotient
    falls just below a whole number, so that [m = n - 1] (as for a gap of
    0.3 and a step of 0.1), the last point put in, [m] steps from the left
    sample and so one step short of the right one, already has the y value
    of the right sample. *)
Theorem fill_reaches_right_sample_early (x y : list Q) (s : Q) :
  length x = length y ->
  x <> [] ->
  (0 < s)%Q ->
  exists (segments : list (list (Q * Q))) (last : Q * Q),
    _interpolate x y s =
      Done ((concat segments ++ [last]).*1, (concat segments ++ [last]).*2) /\
    forall i p p1,
      zip x y !! i = Some p -> zip x y !! (i + 1) = Some p1 ->
      exists pts,
        segments !! i = Some pts /\
        let gap := Qabs (np_around (p1.1 - p.1) 2) in
        let m := py_int (float_div gap s) in
        (s < gap)%Q -> (gap < 10)%Q ->
        rint (float_div gap s) = (m + 1)%Z ->
        length pts = Z.to_nat m + 1 /\
        exists pm,
          pts !! Z.to_nat m = Some pm /\
          (pm.1 == p.1 + inject_Z m * s)%Q /\
          (pm.2 == p1.2)%Q.
Proof.
  intros Hlen Hx Hs.
  assert (Hpos : 0 < length x) by (destruct x; [congruence|simpl; lia]).
  assert (Hzl : length (zip x y) = length x).
  { rewrite length_zip_with. lia. }
  destruct (lookup_lt_is_Some_2 (zip x y) (length x - 1)) as [last Hlast];
    [lia|].
  exists (zip_with (points_between s) (zip x y) (drop 1 (zip x y))), last.
  split.
  - rewrite interpolate_regular_grid by assumption.
    rewrite (regular_grid_segments s (zip x y) last)
      by (rewrite Hzl; exact Hlast).
    reflexivity.
  - intros i p p1 Hp Hp1.
    exists (points_between s p p1). split.
    { apply lookup_zip_with_Some. exists p, p1.
      split; [reflexivity|]. split; [exact Hp|].
      rewrite lookup_drop. rewrite <- Hp1. f_equal. lia. }
    intros gap m H1 H2 Hn.
    pose proof (py_int_at_least_one _ (float_div_at_least_one _ _ Hs H1))
      as Hm.
    fold gap in Hm. fold m in Hm.
    unfold points_between. fold gap.
    assert (Hc : Qlt_bool s gap && Qlt_bool gap 10 = true).
    { apply andb_true_intro. split; apply Qlt_bool_iff; assumption. }
    rewrite Hc, Hn. fold m.
    replace (Z.to_nat (m + 1)) with (Z.to_nat m + 1) by lia.
    split; [rewrite length_map, length_seq; reflexivity|].
    eexists. split; [apply lookup_map_seq; lia|].
    simpl. rewrite Z2Nat.id by lia.
    assert (Hm0 : ~ (inject_Z m == 0)%Q).
    { change 0%Q with (inject_Z 0). rewrite inject_Z_injective. lia. }
    split; [reflexivity|]. field. exact Hm0.
Qed.

(** * The runtime string *)

Lemma rint_comp (q q' : Q) : (q == q')%Q -> rint q = rint q'.
Proof.
  intros H. unfold rint. rewrite (Qfloor_comp _ _ H).
  assert (E : (q - inject_Z (Qfloor q') == q' - inject_Z (Qfloor q'))%Q)
    by (rewrite H; reflexivity).
  rewrite E. reflexivity.
Qed.

Lemma Qlt_bool_comp (a a' b : Q) : (a == a')%Q -> Qlt_bool a b = Qlt_bool a' b.
Proof.
  intros H. unfold Qlt_bool. f_equal.
  destruct (Qle_bool b a) eqn:E1, (Qle_bool b a') eqn:E2; try reflexivity.
  - apply Qle_bool_iff in E1. rewrite H in E1. apply Qle_bool_iff in E1.
    congruence.
  - apply Qle_bool_iff in E2. rewrite <- H in E2. apply Qle_bool_iff in E2.
    congruence.
Qed.

Lemma format_05_2f_comp (q q' : Q) :
  (q == q')%Q -> format_05_2f q = format_05_2f q'.
Proof.
  intros H. unfold format_05_2f.
  assert (E : (q * 100 == q' * 100)%Q) by (rewrite H; reflexivity).
  rewrite (rint_comp _ _ E), (Qlt_bool_comp _ _ _ H). reflexivity.
Qed.

(** The two divisions of [calculate_runtime], for a time of [k] whole
    minutes and [r] seconds. *)
Lemma runtime_divisions (time : Q) (k : Z) (r : Q) :
  (time == 60 * inject_Z k + r)%Q -> (0 <= r)%Q -> (r < 60)%Q ->
  exists rem seconds,
    divmod time 3600 = (inject_Z (k / 60), rem) /\
    divmod rem 60 = (inject_Z (k mod 60), seconds) /\
    (seconds == r)%Q.
Proof.
  intros Ht Hr0 Hr60.
  pose proof (Z.div_mod k 60 ltac:(lia)) as Hk.
  pose proof (Z.mod_pos_bound k 60 ltac:(lia)) as Hm.
  assert (Hkq : (inject_Z k ==
                 60 * inject_Z (k / 60) + inject_Z (k mod 60))%Q).
  { rewrite Hk at 1. rewrite inject_Z_plus, inject_Z_mult. reflexivity. }
  assert (Hm0 : (0 <= inject_Z (k mod 60))%Q).
  { change 0%Q with (inject_Z 0). rewrite <- Zle_Qle. lia. }
  assert (Hm59 : (inject_Z (k mod 60) <= 59)%Q).
  { change 59%Q with (inject_Z 59). rewrite <- Zle_Qle. lia. }
  assert (Hh : Qfloor (time / 3600) = (k / 60)%Z).
  { apply Qfloor_unique.
    - apply Qle_shift_div_l; [reflexivity|]. rewrite Ht, Hkq. lra.
    - apply Qlt_shift_div_r; [reflexivity|].
      rewrite Ht, Hkq, inject_Z_plus. change (inject_Z 1) with 1%Q. lra. }
  unfold divmod at 1. rewrite Hh.
  set (rem := (time - inject_Z (k / 60) * 3600)%Q).
  assert (Hrem : (rem == 60 * inject_Z (k mod 60) + r)%Q).
  { unfold rem. rewrite Ht, Hkq. ring. }
  assert (Hmin : Qfloor (rem / 60) = (k mod 60)%Z).
  { apply Qfloor_unique.
    - apply Qle_shift_div_l; [reflexivity|]. rewrite Hrem. lra.
    - apply Qlt_shift_div_r; [reflexivity|].
      rewrite Hrem, inject_Z_plus. change (inject_Z 1) with 1%Q. lra. }
  exists rem, (rem - inject_Z (k mod 60) * 60)%Q.
  split; [reflexivity|]. split.
  - unfold divmod. rewrite Hmin. reflexivity.
  - rewrite Hrem. ring.
Qed.

Lemma py_int_inject_Z (n : Z) : py_int (inject_Z n) = n.
Proof. apply py_int_integer. reflexivity. Qed.

(** X22: for a time of [k] whole minutes and [r] seconds, [r] from 0 up to
    but not 60, the runtime string reads the hours [k // 60], the minutes
    [k mod 60] and the seconds [r], the first two filled to two
    characters; a negative time counts its hours downwards from -1. *)
Theorem runtime_hours_minutes_seconds (start end_ : Q) (k : Z) (r : Q) :
  (end_ - start == 60 * inject_Z k + r)%Q -> (0 <= r)%Q -> (r < 60)%Q ->
  calculate_runtime start end_ =
    zfill 2 (pretty (k / 60)%Z) +:+ ":" +:+
    zfill 2 (pretty (k mod 60)%Z) +:+ ":" +:+ format_05_2f r.
Proof.
  intros Ht Hr0 Hr60.
  destruct (runtime_divisions _ k r Ht Hr0 Hr60)
    as (rem & seconds & H1 & H2 & Hs).
  unfold calculate_runtime. rewrite H1, H2, !py_int_inject_Z.
  rewrite (format_05_2f_comp _ _ Hs). reflexivity.
Qed.

Lemma inject_Z_pred (n : Z) : (inject_Z (n - 1) == inject_Z n - 1)%Q.
Proof. unfold Z.sub. rewrite inject_Z_plus. reflexivity. Qed.

Lemma rint_upper (q : Q) (n : Z) :
  (inject_Z n - (1 # 2) < q)%Q -> (q < inject_Z n)%Q -> rint q = n.
Proof.
  intros Hlo Hhi. unfold rint.
  pose proof (inject_Z_pred n) as Hp.
  assert (Hf : Qfloor q = (n - 1)%Z).
  { apply Qfloor_unique.
    - rewrite Hp. lra.
    - replace (n - 1 + 1)%Z with n by lia. exact Hhi. }
  rewrite Hf.
  assert (Hc : (q - inject_Z (n - 1) ?= 1 # 2)%Q = Gt).
  { apply Qgt_alt. rewrite Hp. lra. }
  rewrite Hc. lia.
Qed.

(** X23: the seconds of the runtime string are rounded after the minutes
    are split off, and nothing is carried: a time whose seconds are more
    than 59.995 reads ':60.00' after minutes that are not advanced. *)
Theorem runtime_seconds_read_sixty (start end_ : Q) (k : Z) (r : Q) :
  (end_ - start == 60 * inject_Z k + r)%Q ->
  (59995 # 1000 < r)%Q -> (r < 60)%Q ->
  calculate_runtime start end_ =
    zfill 2 (pretty (k / 60)%Z) +:+ ":" +:+
    zfill 2 (pretty (k mod 60)%Z) +:+ ":60.00".
Proof.
  intros Ht Hlo Hhi.
  destruct (runtime_divisions _ k r Ht) as (rem & seconds & H1 & H2 & Hs);
    [lra|lra|].
  unfold calculate_runtime. rewrite H1, H2, !py_int_inject_Z.
  rewrite (format_05_2f_comp _ _ Hs).
  assert (Hc : rint (r * 100) = 6000%Z).
  { apply rint_upper; change (inject_Z 6000) with 6000%Q; lra. }
  assert (Hpos : Qlt_bool r 0 = false).
  { destruct (Qlt_bool r 0) eqn:E; [|reflexivity].
    apply Qlt_bool_iff in E. lra. }
  unfold format_05_2f. rewrite Hc, Hpos. reflexivity.
Qed.

(** ** Examples of the further properties *)

(** Sampling again does not see the matrix that a run left. *)
Lemma create_matrix_forgets_matrix_example :
  create_matrix Replay 3
    (with_matrix sampled_combination.1 (augmentation_matrix run_all_enabled.1))
    false recording =
  create_matrix Replay 3 sampled_combination.1 false recording.
Proof.
  apply (create_matrix_forgets_matrix Replay 3 sampled_combination.1
           (augmentation_matrix run_all_enabled.1) false recording).
  - split; [reflexivity|]. repeat constructor.
  - split; [reflexivity|]. repeat constructor.
Defined.

Lemma single_mode_without_references_example :
  create_matrix Replay 0 (blank_creator 1 []) true recording =
  Raise ValueError.
Proof.
  apply (single_mode_without_references Replay 0 (blank_creator 1 [])
           recording).
  - apply Replay_choice_from_list.
  - reflexivity.
  - simpl. lia.
Defined.

Lemma Creator_init_shape_example :
  no_of_simulations sampled_combination.1 = 2 /\
  no_of_linear_params sampled_combination.1 = length [Fe_metal; FeO] /\
  input_spectra sampled_combination.1 = [Fe_metal; FeO] /\
  length (augmentation_matrix sampled_combination.1) = 2 /\
  Forall (fun row => length row = length [Fe_metal; FeO] + 3)
    (augmentation_matrix sampled_combination.1) /\
  df sampled_combination.1 = None /\
  reduced_df sampled_combination.1 = None.
Proof.
  apply (Creator_init_shape Replay 3 2 [Fe_metal; FeO] false recording
           sampled_combination.2 sampled_combination.1).
  vm_compute. reflexivity.
Defined.

Lemma run_without_simulations_example :
  run Replay (ToySimulation Replay) (blank_creator 0 [Fe_metal; FeO])
    true true true recording = Raise KeyError.
Proof.
  apply (run_without_simulations Replay (ToySimulation Replay)
           (blank_creator 0 [Fe_metal; FeO]) true true true recording).
  - split; [reflexivity|]. constructor.
  - reflexivity.
Defined.

(** The broadening that the first run disabled is still off after a run
    that enables everything. *)
Lemma disabled_distortion_stays_disabled_example :
  df run_again.1 <> None /\
  forall row, row ∈ augmentation_matrix run_again.1 ->
    (false = false -> row !! 2 = Some 0%Q) /\
    (true = false -> row !! (2 + 1) = Some 0%Q) /\
    (true = false -> row !! (2 + 2) = Some 0%Q).
Proof.
  split; [discriminate|].
  apply (disabled_distortion_stays_disabled Replay (ToySimulation Replay)
           sampled_combination.1 run_no_broadening.1 run_again.1
           false true true true true true
           sampled_combination.2 run_no_broadening.2
           [7; 8; 9; 10; 11; 12]%Z run_again.2).
  - split; [reflexivity|]. repeat constructor.
  - vm_compute. reflexivity.
  - vm_compute. reflexivity.
Defined.

Lemma plot_random_distinct_example :
  length plotted.1 = 5 `min` no_of_simulations run_all_enabled.1 /\
  NoDup (plotted.1.*1) /\
  forall r fig, (r, fig) ∈ plotted.1 ->
    (0 <= r < Z.of_nat (no_of_simulations run_all_enabled.1))%Z /\
    exists rows row,
      df run_all_enabled.1 = Some rows /\ rows !! Z.to_nat r = Some row /\
      fig = figure_of r row.
Proof.
  apply (plot_random_distinct Replay 2 run_all_enabled.1 5
           [0; 0; 1; 4]%Z plotted.2 plotted.1).
  - apply Replay_randint_in_range.
  - vm_compute. reflexivity.
Defined.

Lemma to_file_whole_table_example :
  to_file "C:\data" run_all_enabled.1 "Fe" "json" "reduced" false
    empty_world =
  (Done tt,
   {| stdout := stdout empty_world ++ ["Data was saved."];
      stdin := stdin empty_world;
      files := <[("C:\data" +:+ "\" +:+ "Fe") +:+ extension "json" :=
                   written "json" ("C:\data" +:+ "\" +:+ "Fe")
                     (WholeTable
                        (ReducedTable
                           (default [] (reduced_df run_all_enabled.1))))]>
                 (files empty_world);
      db := db empty_world |}).
Proof.
  apply (to_file_whole_table "C:\data" run_all_enabled.1 "Fe" "json"
           "reduced"
           (ReducedTable (default [] (reduced_df run_all_enabled.1)))
           empty_world).
  - left. reflexivity.
  - reflexivity.
Defined.

Lemma to_file_one_file_per_record_example :
  let t := FullTable (default [] (df run_all_enabled.1)) in
  exists w',
    to_file "C:\data" run_all_enabled.1 "Fe" "pickle" "full" true
      empty_world = (Done tt, w') /\
    stdout w' = stdout empty_world ++ ["Data was saved."] /\
    db w' = db empty_world /\
    (forall i row, i < no_of_simulations run_all_enabled.1 ->
       table_row t i = Some row ->
       files w' !! (record_filename "C:\data" "Fe" i +:+ extension "pickle") =
       Some (written "pickle" (record_filename "C:\data" "Fe" i)
               (OneRow row))) /\
    (forall p,
       (forall i, i < no_of_simulations run_all_enabled.1 ->
          p <> record_filename "C:\data" "Fe" i +:+ extension "pickle") ->
       files w' !! p = files empty_world !! p).
Proof.
  apply (to_file_one_file_per_record "C:\data" run_all_enabled.1 "Fe"
           "pickle" "full" (FullTable (default [] (df run_all_enabled.1)))
           empty_world).
  - right. reflexivity.
  - reflexivity.
  - simpl. lia.
Defined.

(** The user of [busy_world] has the data written to 'Fe_new': 'Fe_old' is
    as it was. *)
Lemma upload_touches_one_collection_example :
  db (upload_to_DB (Some "mongodb://sia") run_all_enabled.1 "Fe_old" true
        busy_world).2 !! "Fe_old" =
  db busy_world !! "Fe_old".
Proof.
  apply (upload_touches_one_collection (Some "mongodb://sia")
           run_all_enabled.1 "Fe_old" true busy_world "Fe_old").
  intros name' w1 H. vm_compute in H. injection H as <- _. discriminate.
Defined.

Lemma first_answer_must_be_yes_or_no_example :
  (upload_to_DB (Some "mongodb://sia") run_all_enabled.1 "Fe_old" false
     unsure_world).1 = Raise UnboundLocalError /\
  db (upload_to_DB (Some "mongodb://sia") run_all_enabled.1 "Fe_old" false
        unsure_world).2 = db unsure_world.
Proof.
  apply (first_answer_must_be_yes_or_no "mongodb://sia" run_all_enabled.1
           "Fe_old" false unsure_world "maybe" ["yes"]).
  - eexists. reflexivity.
  - eexists. reflexivity.
  - reflexivity.
  - discriminate.
  - discriminate.
Defined.

(** A user who first declines, then names the collection that exists: the
    last answer read before the write is the 'yes' to overwriting it. *)
Lemma no_overwrite_without_yes_example :
  exists before,
    stdin roundabout_world =
    before ++ "yes" :: stdin (resolve_collection "Fe_old" roundabout_world).2.
Proof.
  apply (no_overwrite_without_yes "Fe_old" "Fe_old" roundabout_world
           (resolve_collection "Fe_old" roundabout_world).2).
  - reflexivity.
  - eexists. reflexivity.
Defined.

Lemma overwrite_replaces_collection_example :
  exists w',
    upload_to_DB (Some "mongodb://sia") run_all_enabled.1 "Fe_old" true
      agreeing_world = (Done tt, w') /\
    stdin w' = ["next"] /\
    collection w' "Fe_old" =
      to_document <$>
        take (no_of_simulations run_all_enabled.1)
             (default [] (df run_all_enabled.1)).
Proof.
  apply (overwrite_replaces_collection "mongodb://sia" run_all_enabled.1
           "Fe_old" true agreeing_world).
  - reflexivity.
  - eexists. reflexivity.
  - simpl. lia.
  - eexists. reflexivity.
  - reflexivity.
Defined.

Lemma declining_leaves_database_example :
  exists w',
    upload_to_DB (Some "mongodb://sia") run_all_enabled.1 "Fe_old" true
      declining_world = (Done tt, w') /\
    stdin w' = ["next"] /\ db w' = db declining_world /\
    files w' = files declining_world.
Proof.
  apply (declining_leaves_database "mongodb://sia" run_all_enabled.1
           "Fe_old" true declining_world ["next"]).
  - eexists. reflexivity.
  - eexists. reflexivity.
  - eexists. reflexivity.
  - reflexivity.
Defined.

Lemma upload_then_check_db_example :
  let w2 := (upload_to_DB (Some "mongodb://sia") run_all_enabled.1 "Fe_old"
               true busy_world).2 in
  exists listing,
    check_db (Some "mongodb://sia") "Fe_new" w2 =
    (Done (listing,
           to_document <$>
             take (no_of_simulations run_all_enabled.1)
                  (default [] (df run_all_enabled.1))), w2).
Proof.
  apply (upload_then_check_db "mongodb://sia" run_all_enabled.1 "Fe_old"
           "Fe_new" true busy_world
           (resolve_collection "Fe_old" busy_world).2).
  - reflexivity.
  - reflexivity.
  - reflexivity.
Defined.

Lemma upload_after_drop_example :
  exists w1 w',
    drop_db_collection (Some "mongodb://sia") "Fe_old" agreeing_world =
      (Done tt, w1) /\
    upload_to_DB (Some "mongodb://sia") run_all_enabled.1 "Fe_old" false w1 =
      (Done tt, w') /\
    stdin w' = stdin agreeing_world /\
    collection w' "Fe_old" =
      to_document <$>
        take (no_of_simulations run_all_enabled.1)
             (default [] (df run_all_enabled.1)) /\
    forall other, other <> "Fe_old" ->
      db w' !! other = db agreeing_world !! other.
Proof.
  apply (upload_after_drop "mongodb://sia" run_all_enabled.1 "Fe_old" false
           agreeing_world).
  - reflexivity.
  - eexists. reflexivity.
  - simpl. lia.
Defined.

Lemma descending_grid_is_kept_example :
  _check_step_width descending_x descending_y =
    Done (descending_x, descending_y) \/
  _check_step_width descending_x descending_y = Raise ValueError.
Proof.
  apply (descending_grid_is_kept descending_x descending_y 3 (25 # 10)).
  - reflexivity.
  - reflexivity.
  - vm_compute. discriminate.
Defined.

Lemma constant_grid_is_refused_example :
  _check_step_width [5; 5; 5]%Q [1; 2; 3]%Q = Raise ValueError.
Proof.
  apply (proj2 (constant_grid_is_refused [5; 5; 5]%Q [1; 2; 3]%Q) 5%Q).
  - discriminate.
  - repeat constructor.
Defined.

(** The far segment of [segments_x] is no gap to fill: the spectrum is
    handed to [_interpolate] and comes back as it was. *)
Lemma nothing_to_fill_example :
  quotient_exceeds (301 # 10) (result_or 0%Q (canonical_step segments_x))
    (length segments_x) = true /\
  _check_step_width segments_x segments_y = Done (segments_x, segments_y).
Proof.
  split; [reflexivity|].
  apply (nothing_to_fill segments_x segments_y
           (result_or 0%Q (canonical_step segments_x))).
  - reflexivity.
  - reflexivity.
  - intros i xi xi1 Hi Hi1 [H1 H2].
    destruct i as [|[|[|[|[|i]]]]]; vm_compute in Hi; vm_compute in Hi1;
      try discriminate;
      injection Hi as <-; injection Hi1 as <-;
      vm_compute in H1; vm_compute in H2; discriminate.
Defined.

Lemma zero_step_overflows_example :
  _check_step_width fine_x fine_y = Raise OverflowError.
Proof.
  apply (zero_step_overflows fine_x fine_y
           (result_or 1%Q (canonical_step fine_x)) 0%Q 1%Q).
  - reflexivity.
  - reflexivity.
  - reflexivity.
  - reflexivity.
  - reflexivity.
  - reflexivity.
  - exists 1, (1 # 200)%Q, 1%Q.
    split; [reflexivity|]. split; [reflexivity|]. split; reflexivity.
Defined.

(** A time that ends a second before it starts. *)
Lemma runtime_hours_minutes_seconds_example :
  calculate_runtime 10 9 =
    zfill 2 (pretty ((-1) / 60)%Z) +:+ ":" +:+
    zfill 2 (pretty ((-1) mod 60)%Z) +:+ ":" +:+ format_05_2f 59.
Proof.
  apply (runtime_hours_minutes_seconds 10 9 (-1) 59).
  - reflexivity.
  - discriminate.
  - reflexivity.
Defined.

(** A runtime of 59.996 seconds. *)
Lemma runtime_seconds_read_sixty_example :
  calculate_runtime 0 (59996 # 1000) =
    zfill 2 (pretty (0 / 60)%Z) +:+ ":" +:+
    zfill 2 (pretty (0 mod 60)%Z) +:+ ":60.00".
Proof.
  apply (runtime_seconds_read_sixty 0 (59996 # 1000) 0 (59996 # 1000)).
  - reflexivity.
  - reflexivity.
  - reflexivity.
Defined.

(** The whole frame and one file per record, as 'excel'. *)
Lemma excel_export_is_refused_example :
  exists e w',
    to_file "C:\data" run_all_enabled.1 "Fe" "excel" "full" true
      empty_world = (Raise e, w') /\
    stdout w' = stdout empty_world ++ ["Data was saved."] /\
    db w' = db empty_world.
Proof.
  apply (excel_export_is_refused "C:\data" run_all_enabled.1 "Fe" "full"
           (FullTable (default [] (df run_all_enabled.1))) true empty_world).
  - reflexivity.
  - intros _. simpl. lia.
Defined.

(** In [gapped_x] the gap from 0.1 to 0.4 is three steps of 0.1, and the
    float64 quotient 0.3 / 0.1 has the integer part 2: the third point
    put in, at 0.3, has the y value 50 of the sample at 0.4. *)
Lemma fill_reaches_right_sample_early_example :
  rint (float_div (3 # 10) (10 # 100)) = 3%Z /\
  py_int (float_div (3 # 10) (10 # 100)) = 2%Z /\
  (exists xs ys,
     _check_step_width gapped_x gapped_y = Done (xs, ys) /\
     Forall2 Qeq ys [10; 20; 35; 50; 50; 60; 5; 6]%Q) /\
  exists pts pm,
    length pts = 3 /\ pts !! 2 = Some pm /\
    (pm.1 == (1 # 10) + inject_Z 2 * (10 # 100))%Q /\ (pm.2 == 50)%Q.
Proof.
  split; [vm_compute; reflexivity|]. split; [vm_compute; reflexivity|].
  split.
  { eexists _, _. split; [vm_compute; reflexivity|].
    repeat constructor. }
  destruct (fill_reaches_right_sample_early gapped_x gapped_y (10 # 100))
    as (segments & last & _ & Hseg).
  - reflexivity.
  - discriminate.
  - reflexivity.
  - destruct (Hseg 1 ((1 # 10)%Q, 20%Q) ((4 # 10)%Q, 50%Q) eq_refl eq_refl)
      as (pts & _ & H).
    destruct H as (Hlen & pm & Hpm & Hx & Hy).
    + vm_compute. reflexivity.
    + vm_compute. reflexivity.
    + vm_compute. reflexivity.
    + exists pts, pm. split; [exact Hlen|]. split; [exact Hpm|].
      split; [exact Hx|exact Hy].
Defined.
